(** * Resilient retrieval and recovery engine: a shallow embedding

    The development follows the Python sources file by file.  Every module
    below embeds one source file (or the part of the interpreter's library
    that the file calls) and keeps the names of the functions it embeds.

    Conventions.
    - A Python [str] is a [string]; the embedding covers text whose code
      points are below 128, where [str.lower], [str.strip] and
      [str.isspace] act as written in [Py].
    - A Python [int] is a [Z]; the result of [len] is a [nat] injected
      into [Z] where the source mixes it with other integers.
    - A Python [float] that holds a rate or a score is a rational [Q]:
      the comparisons of the source are read over exact arithmetic.
    - A [dict] with string keys is a [gmap string _]; a [set] of strings
      is a [gset string].
    - Calls that leave the process (HTTP, files, clock) are answers of an
      environment given as a parameter, and the calls made are recorded in
      the state that the embedding threads through. *)

From Stdlib Require Import ZArith QArith Lqa Ascii String List Bool Lia.
From stdpp Require Import gmap strings list.

Local Open Scope Z_scope.

(* ===================================================================== *)
(** * Part I: definitions                                                 *)
(* ===================================================================== *)

(** ** Python values and string methods *)

Module Py.

(** [str.lower] on one character. *)
Definition ascii_lower (c : ascii) : ascii :=
  let n := nat_of_ascii c in
  if ((65 <=? n) && (n <=? 90))%nat then ascii_of_nat (n + 32) else c.

Fixpoint lower (s : string) : string :=
  match s with
  | EmptyString => EmptyString
  | String c r => String (ascii_lower c) (lower r)
  end.

(** [str.isspace] on one character: TAB, LF, VT, FF, CR, FS, GS, RS, US
    and the space. *)
Definition isspace (c : ascii) : bool :=
  let n := nat_of_ascii c in
  (((9 <=? n) && (n <=? 13)) || ((28 <=? n) && (n <=? 32)))%nat.

(** [s.lstrip(chars)], the set of characters given as a predicate. *)
Fixpoint lstrip_with (p : ascii -> bool) (s : string) : string :=
  match s with
  | EmptyString => EmptyString
  | String c r => if p c then lstrip_with p r else s
  end.

Definition rstrip_with (p : ascii -> bool) (s : string) : string :=
  String.rev (lstrip_with p (String.rev s)).

(** [s.strip()]. *)
Definition strip (s : string) : string :=
  rstrip_with isspace (lstrip_with isspace s).

(** [s.startswith(pre)]. *)
Fixpoint startswith (s pre : string) {struct pre} : bool :=
  match pre, s with
  | EmptyString, _ => true
  | String a pre', String b s' => if decide (a = b) then startswith s' pre' else false
  | String _ _, EmptyString => false
  end.

(** Truth value of a [str]. *)
Definition truthy (s : string) : bool :=
  match s with EmptyString => false | _ => true end.

(** [s.split(sep)] for a one-character separator: the pieces between
    the separators, at least one piece. *)
Fixpoint split_go (sep : ascii) (cur : string) (s : string) : list string :=
  match s with
  | EmptyString => [String.rev cur]
  | String c r =>
      if decide (c = sep) then String.rev cur :: split_go sep EmptyString r
      else split_go sep (String c cur) r
  end.

Definition split (sep : ascii) (s : string) : list string :=
  split_go sep EmptyString s.

(** [sep.join(parts)]. *)
Fixpoint join (sep : string) (parts : list string) : string :=
  match parts with
  | [] => EmptyString
  | [p] => p
  | p :: rest => p +:+ sep +:+ join sep rest
  end.

(** [c in s] for a character. *)
Fixpoint contains (c : ascii) (s : string) : bool :=
  match s with
  | EmptyString => false
  | String a r => if decide (a = c) then true else contains c r
  end.

(** The values the [dict]s of this program hold.  [VObj] stands for a
    container (a list or a nested dict), of which the program only tests
    whether it is empty. *)
Inductive value : Type :=
| VNone
| VBool (b : bool)
| VInt (n : Z)
| VStr (s : string)
| VObj (nonempty : bool).

(** Truth value, as [bool(v)]. *)
Definition truth (v : value) : bool :=
  match v with
  | VNone => false
  | VBool b => b
  | VInt n => negb (n =? 0)
  | VStr s => truthy s
  | VObj nonempty => nonempty
  end.

(** [d.get(k)] followed by a truth test: a missing key gives [None]. *)
Definition get_truth (d : gmap string value) (k : string) : bool :=
  match d !! k with Some v => truth v | None => false end.

(** [d.get(k) == s] for a string literal [s]. *)
Definition get_eq_str (d : gmap string value) (k s : string) : bool :=
  match d !! k with
  | Some (VStr t) => bool_decide (t = s)
  | _ => false
  end.

End Py.

(** ** tools/phase1/paging.py *)

Module Paging.

Record PagerTracker : Type := mkPagerTracker {
  seen : gset string;
  stalls : Z;
  min_growth : Z;
  max_stalls : Z
}.

(** [PagerTracker.__init__]. *)
Definition init (min_growth max_stalls : Z) : PagerTracker :=
  mkPagerTracker ∅ 0 min_growth max_stalls.

(** The loop [for k in product_keys: if k: self.seen.add(k)]. *)
Fixpoint add_keys (s : gset string) (product_keys : list string) : gset string :=
  match product_keys with
  | [] => s
  | k :: rest => add_keys (if Py.truthy k then {[k]} ∪ s else s) rest
  end.

(** [PagerTracker.add_batch]: the tracker after the call and the value
    returned. *)
Definition add_batch (t : PagerTracker) (product_keys : list string)
  : PagerTracker * bool :=
  let before := Z.of_nat (size (seen t)) in
  let seen' := add_keys (seen t) product_keys in
  let growth := Z.of_nat (size seen') - before in
  if growth <? min_growth t then
    (mkPagerTracker seen' (stalls t + 1) (min_growth t) (max_stalls t), false)
  else
    (mkPagerTracker seen' 0 (min_growth t) (max_stalls t), true).

(** [PagerTracker.should_stop]. *)
Definition should_stop (t : PagerTracker) : bool :=
  max_stalls t <=? stalls t.

End Paging.

(** ** tools/phase1/phase1_oilbot.py *)

Module Oilbot.

(** [should_flip_to_archive]: the reason for leaving the live page, or
    [None]. *)
Definition should_flip_to_archive
    (health : gmap string Py.value) (card_count jsonld_count : Z)
  : option string :=
  if Py.get_truth health "auth_redirect" then Some "auth_redirect"
  else if Py.get_truth health "cf_detected" then Some "cf_challenge"
  else if Py.get_eq_str health "why_flip" "cookie_wall"
          && (card_count =? 0) && (jsonld_count =? 0) then Some "cookie_wall"
  else if Py.get_eq_str health "why_flip" "store_context_failed"
       then Some "store_context_failed"
  else if (card_count <? 5) && (jsonld_count =? 0) then Some "too_few_cards"
  else None.

(** The fields of [exporters.Row]. *)
Record Row : Type := mkRow {
  retailer : string;
  product_name : string;
  quantity : string;
  price_eur : option Q;
  source_url : string;
  snapshot_url : string;
  selector_used : string;
  mode : string;
  stale : bool
}.

Section ProductKey.

(** [hashlib.sha1(b).hexdigest()] and the text of a float inside an
    f-string belong to the interpreter; both are parameters. *)
Variable sha1_hexdigest : string -> string.
Variable float_str : Q -> string.

(** [x or ''] for a string. *)
Definition or_empty (s : string) : string := if Py.truthy s then s else "".

(** [_product_key]. *)
Definition _product_key (name qty url : string) (price : option Q) : string :=
  let base :=
    Py.lower (Py.strip name) +:+ "|" +:+
    Py.lower (Py.strip (or_empty qty)) +:+ "|" +:+
    Py.lower (Py.strip (or_empty url)) +:+ "|" +:+
    match price with None => "" | Some p => float_str p end in
  sha1_hexdigest base.

(** The key under which [run_one] files a row. *)
Definition row_key (r : Row) : string :=
  _product_key (product_name r) (or_empty (quantity r)) (source_url r) (price_eur r).

(** One turn of the loop of the block "Deduplicate" of [run_one]; the
    state is [(seen, uniq)]. *)
Definition dedupe_step (st : gset string * list Row) (r : Row)
  : gset string * list Row :=
  let k := row_key r in
  if decide (k ∈ st.1) then st
  else ({[k]} ∪ st.1, st.2 ++ [r]).

(** The block "Deduplicate" of [run_one]: the new value of [all_rows]. *)
Definition run_one_dedupe (all_rows : list Row) : list Row :=
  (fold_left dedupe_step all_rows (∅, [])).2.

End ProductKey.

End Oilbot.

(** ** tools/phase1/selector_wizard.py *)

Module SelectorWizard.

Record Candidate : Type := mkCandidate {
  id : string;
  css : string;
  last_score : Q;
  wins_in_a_row : Z
}.

Record EvalMetrics : Type := mkEvalMetrics {
  cards : Z;
  price_ok_rate : Q;
  qty_ok_rate : Q;
  dup_rate : Q
}.

Definition PROMOTE_MARGIN : Q := 5 # 100.
Definition REQUIRED_WINS : Z := 2.

(** An entry of [policy["selectors"]["candidates"]]. *)
Record Entry : Type := mkEntry { e_css : string; e_wins : Z }.

(** [policy["selectors"]]. *)
Record Policy : Type := mkPolicy {
  active : option string;
  candidates : gmap string Entry
}.

(** The directory [policy/]: one JSON file per site code. *)
Abbreviation Store := (gmap string Policy).

(** [_load_policy]. *)
Definition _load_policy (st : Store) (code : string) : Policy :=
  match st !! code with
  | Some p => p
  | None => mkPolicy None ∅
  end.

(** [_save_policy]. *)
Definition _save_policy (st : Store) (code : string) (p : Policy) : Store :=
  <[code := p]> st.

(** [shadow_score]. *)
Definition shadow_score (m : EvalMetrics) : Q :=
  ((1 # 2) * price_ok_rate m + (1 # 2) * qty_ok_rate m)%Q.

(** [_gates_pass]. *)
Definition _gates_pass (m : EvalMetrics) : bool :=
  (5 <=? cards m) && Qle_bool (70 # 100) (price_ok_rate m)
  && Qle_bool (50 # 100) (qty_ok_rate m) && Qle_bool (dup_rate m) (20 # 100).

(** [a > b] on scores. *)
Definition Qgt_bool (a b : Q) : bool := negb (Qle_bool a b).

(** What is written to [selectors_explained.json]; the scores are kept
    as computed, without the rounding to three decimals. *)
Record Explanation : Type := mkExplanation {
  active_before : string;
  baseline_score : Q;
  challenger_wins : gmap string (option Q * Z);
  promoted : bool;
  active_after : option string;
  gate_cards : bool;
  gate_price : bool;
  gate_qty : bool;
  gate_dup : bool
}.

(** The registry built at the start of [maybe_promote]. *)
Definition registry (baseline : Candidate) (challengers : list Candidate)
  : gmap string Entry :=
  fold_left (fun reg c => <[id c := mkEntry (css c) 0]> reg) challengers
            {[ id baseline := mkEntry (css baseline) 0 ]}.

(** One turn of the loop "Identify best challenger"; the state is
    [(best, best_score)]. *)
Definition best_step (base_score : Q) (challenger_metrics : gmap string EvalMetrics)
    (st : option Candidate * Q) (c : Candidate) : option Candidate * Q :=
  match challenger_metrics !! id c with
  | None => st
  | Some m =>
      let s := shadow_score m in
      if Qgt_bool s st.2 && Qle_bool PROMOTE_MARGIN (s - base_score) && _gates_pass m
      then (Some c, s) else st
  end.

(** [wins := 0] for every key that satisfies [keep k = false]. *)
Definition reset_wins (keep : string -> bool) (cands : gmap string Entry)
  : gmap string Entry :=
  map_imap (fun k e => Some (if keep k then e else mkEntry (e_css e) 0)) cands.

(** [maybe_promote]: the store after the call, the explanation written
    and the candidate returned; [None] stands for a [KeyError]. *)
Definition maybe_promote (st : Store) (code : string)
    (baseline : Candidate) (challengers : list Candidate)
    (baseline_metrics : EvalMetrics)
    (challenger_metrics : gmap string EvalMetrics)
  : option (Store * Explanation * Candidate) :=
  let policy := _load_policy st code in
  let active_id :=
    match active policy with
    | Some a => if Py.truthy a then a else id baseline
    | None => id baseline
    end in
  let reg := registry baseline challengers in
  let base_score := shadow_score baseline_metrics in
  let best :=
    (fold_left (best_step base_score challenger_metrics) challengers
               (None, base_score)).1 in
  let outcome : option (Policy * Candidate * bool) :=
    match best with
    | Some b =>
        e ← reg !! id b;
        let wins := e_wins e + 1 in
        let cands := <[id b := mkEntry (e_css e) wins]> reg in
        if REQUIRED_WINS <=? wins then
          Some (mkPolicy (Some (id b))
                         (reset_wins (fun k => bool_decide (k = id b)) cands),
                b, true)
        else Some (mkPolicy (active policy) cands, baseline, false)
    | None =>
        Some (mkPolicy (Some (id baseline))
                       (reset_wins (fun k => bool_decide (k = id baseline)) reg),
              baseline, false)
    end in
  '(policy', winner, was_promoted) ← outcome;
  let explanation :=
    mkExplanation active_id base_score
      (map_imap (fun cid e =>
                   if decide (cid = id baseline) then None
                   else Some (shadow_score <$> challenger_metrics !! cid, e_wins e))
                (candidates policy'))
      was_promoted (active policy')
      (5 <=? cards baseline_metrics)
      (Qle_bool (70 # 100) (price_ok_rate baseline_metrics))
      (Qle_bool (50 # 100) (qty_ok_rate baseline_metrics))
      (Qle_bool (dup_rate baseline_metrics) (20 # 100)) in
  Some (_save_policy st code policy', explanation, winner).

End SelectorWizard.

(** ** urllib.parse

    [finder/core/cdx.py] and [src/eopt/net_gateway.py] call [urlsplit],
    [urlunsplit] and [urlparse] of the interpreter's library.  The module
    below follows the text of [Lib/urllib/parse.py] of CPython 3.11 on
    strings of code points below 128 (where [_checknetloc] does nothing);
    [urlparse] gives the scheme and the network location of [urlsplit].
    In this version [urlunsplit] writes the two slashes of a network
    location only when there is one or when the scheme uses one and the
    path does not start with two slashes itself. *)

Module UrlParse.

Record SplitResult : Type := mkSplit {
  scheme : string;
  netloc : string;
  path : string;
  query : string;
  fragment : string
}.

(** Membership in [_WHATWG_C0_CONTROL_OR_SPACE]. *)
Definition is_c0_or_space (c : ascii) : bool := (nat_of_ascii c <=? 32)%nat.

(** Membership in [_UNSAFE_URL_BYTES_TO_REMOVE]: TAB, CR, LF. *)
Definition is_unsafe (c : ascii) : bool :=
  let n := nat_of_ascii c in ((n =? 9) || (n =? 13) || (n =? 10))%nat.

Fixpoint remove_unsafe (s : string) : string :=
  match s with
  | EmptyString => EmptyString
  | String c r => if is_unsafe c then remove_unsafe r else String c (remove_unsafe r)
  end.

Definition isalpha (c : ascii) : bool :=
  let n := nat_of_ascii c in
  (((65 <=? n) && (n <=? 90)) || ((97 <=? n) && (n <=? 122)))%nat.

(** Membership in [scheme_chars]: letters, digits, [+], [-], [.]. *)
Definition is_scheme_char (c : ascii) : bool :=
  let n := nat_of_ascii c in
  (isalpha c || ((48 <=? n) && (n <=? 57)) || (n =? 43) || (n =? 45) || (n =? 46))%nat.

Fixpoint all_chars (p : ascii -> bool) (s : string) : bool :=
  match s with
  | EmptyString => true
  | String c r => p c && all_chars p r
  end.

(** [s.split(c, 1)] when [c] occurs in [s]: the text before the first
    [c] and the text after it. *)
Fixpoint cut (c : ascii) (s : string) : option (string * string) :=
  match s with
  | EmptyString => None
  | String a r =>
      if decide (a = c) then Some (EmptyString, r)
      else match cut c r with
           | Some (b, t) => Some (String a b, t)
           | None => None
           end
  end.

(** [if c in s: s, rest = s.split(c, 1)]: the value of [s] afterwards,
    and the value of [rest] (empty when [c] does not occur). *)
Definition before (c : ascii) (s : string) : string :=
  match cut c s with Some (a, _) => a | None => s end.

Definition after (c : ascii) (s : string) : string :=
  match cut c s with Some (_, b) => b | None => EmptyString end.

(** The scheme test of [urlsplit]: the lowered scheme and the text after
    the colon, when the text before the first colon is a scheme. *)
Definition split_scheme (url : string) : option (string * string) :=
  match cut ":" url with
  | Some (String a pre, rest) =>
      if isalpha a && all_chars is_scheme_char (String a pre)
      then Some (Py.lower (String a pre), rest) else None
  | _ => None
  end.

Definition is_delim (c : ascii) : bool :=
  bool_decide (c = "/"%char) || bool_decide (c = "?"%char) || bool_decide (c = "#"%char).

(** The longest prefix without a character of [p], and the rest. *)
Fixpoint span_until (p : ascii -> bool) (s : string) : string * string :=
  match s with
  | EmptyString => (EmptyString, EmptyString)
  | String a r =>
      if p a then (EmptyString, s)
      else let '(b, t) := span_until p r in (String a b, t)
  end.

(** [_splitnetloc(url, 2)] for a [url] that starts with two slashes. *)
Definition _splitnetloc (url : string) : string * string :=
  match url with
  | String _ (String _ r) => span_until is_delim r
  | _ => (EmptyString, EmptyString)
  end.

Definition uses_netloc : list string :=
  [""; "ftp"; "http"; "gopher"; "nntp"; "telnet"; "imap"; "wais"; "file"; "mms";
   "https"; "shttp"; "snews"; "prospero"; "rtsp"; "rtspu"; "rsync"; "svn";
   "svn+ssh"; "sftp"; "nfs"; "git"; "git+ssh"; "ws"; "wss"].

(** [urlunsplit]. *)
Definition urlunsplit (scheme netloc url query fragment : string) : string :=
  let url :=
    if Py.truthy netloc
       || (Py.truthy scheme && bool_decide (scheme ∈ uses_netloc)
           && negb (Py.startswith url "//"))
    then "//" +:+ netloc +:+
         (if Py.truthy url && negb (Py.startswith url "/") then "/" +:+ url else url)
    else url in
  let url := if Py.truthy scheme then scheme +:+ ":" +:+ url else url in
  let url := if Py.truthy query then url +:+ "?" +:+ query else url in
  if Py.truthy fragment then url +:+ "#" +:+ fragment else url.

Section Split.

(** [_check_bracketed_netloc] validates a bracketed IP literal with the
    [ipaddress] module; [true] when it does not raise. *)
Variable check_bracketed_netloc : string -> bool.

(** [urlsplit]; [None] stands for a [ValueError]. *)
Definition urlsplit (url : string) : option SplitResult :=
  let url := remove_unsafe (Py.lstrip_with is_c0_or_space url) in
  let '(scheme, url) :=
    match split_scheme url with
    | Some (s, r) => (s, r)
    | None => (EmptyString, url)
    end in
  '(netloc, url) ←
    (if Py.startswith url "//" then
       let '(netloc, rest) := _splitnetloc url in
       if xorb (Py.contains "[" netloc) (Py.contains "]" netloc) then None
       else if Py.contains "[" netloc && negb (check_bracketed_netloc netloc)
            then None
            else Some (netloc, rest)
     else Some (EmptyString, url));
  let fragment := after "#" url in
  let url := before "#" url in
  let query := after "?" url in
  let url := before "?" url in
  Some (mkSplit scheme netloc url query fragment).

End Split.

End UrlParse.

(** ** src/eopt/archives.py *)

Module Archives.

Definition DEFAULT_PRIORITY : list string :=
  ["wayback"; "ghost"; "memento"; "arquivo"; "ukwa"; "archivetoday"; "perma"].

Record ArchiveResult : Type := mkArchiveResult {
  ok : bool;
  source : string;
  url : string;
  status : Z;
  html : option string;
  reason : string
}.

(** [bool(html)] for an optional string. *)
Definition html_truthy (h : option string) : bool :=
  match h with Some s => Py.truthy s | None => false end.

(** [_result]. *)
Definition _result (source url : string) (status : Z) (html : option string)
    (reason : string) : ArchiveResult :=
  mkArchiveResult ((200 <=? status) && (status <? 400) && html_truthy html)
                  source url status html reason.

(** [_clean_target]. *)
Definition _clean_target (url : string) : string :=
  if Py.startswith url "http://" || Py.startswith url "https://" then url
  else "https://" +:+ Py.lstrip_with (fun c => bool_decide (c = "/"%char)) url.

(** The keys of [FETCHERS]. *)
Definition FETCHER_NAMES : list string :=
  ["wayback"; "archivetoday"; "ghost"; "memento"; "arquivo"; "ukwa"; "perma"].

(** [name in FETCHERS]. *)
Definition in_FETCHERS (name : string) : bool := bool_decide (name ∈ FETCHER_NAMES).

(** What [selectors.json] holds: the file may be missing or unreadable;
    its [archives] section may lack either key. *)
Record ArchivesSection : Type := mkArchivesSection {
  s_global_priority : option (list string);
  s_timeout_ms : option Z
}.

Inductive SelectorsJson : Type :=
| NoFile
| Unreadable
| Loaded (archives : option ArchivesSection).

(** The part of the dict returned by [read_selectors_archives] that the
    callers read. *)
Record ArchCfg : Type := mkArchCfg {
  global_priority : list string;
  timeout_ms : Z
}.

(** [read_selectors_archives]. *)
Definition read_selectors_archives (f : SelectorsJson) : ArchCfg :=
  match f with
  | NoFile | Unreadable => mkArchCfg DEFAULT_PRIORITY 5000
  | Loaded None => mkArchCfg DEFAULT_PRIORITY 5000
  | Loaded (Some a) =>
      mkArchCfg (default DEFAULT_PRIORITY (s_global_priority a))
                (default 5000 (s_timeout_ms a))
  end.

(** A row of [retailers.csv] as [csv.DictReader] yields it; a column
    may be absent. *)
Record CsvRow : Type := mkCsvRow {
  r_code : option string;
  r_retailer : option string;
  r_archive_priority : option string;
  r_prefer_archive : option string
}.

(** [(x or "")] for an optional string. *)
Definition opt_or_empty (x : option string) : string :=
  match x with Some s => s | None => "" end.

(** The test that selects the row of a retailer. *)
Definition row_matches (code : string) (row : CsvRow) : bool :=
  bool_decide (Py.strip (opt_or_empty (r_code row)) = code)
  || bool_decide (Py.strip (opt_or_empty (r_retailer row)) = code).

(** The first matching row, where the loop breaks. *)
Definition find_row (code : string) (rows : list CsvRow) : option CsvRow :=
  List.find (row_matches code) rows.

(** [[p.strip().lower() for p in raw.split(",") if p.strip()]]. *)
Definition parse_priority (raw : string) : list string :=
  (fun p => Py.lower (Py.strip p)) <$>
    List.filter (fun p => Py.truthy (Py.strip p)) (Py.split "," raw).

(** The value of [pri] after the loop over the rows: [None] unless the
    row gives a non-empty [archive_priority]. *)
Definition row_priority (row : CsvRow) : option (list string) :=
  let raw := Py.strip (opt_or_empty (r_archive_priority row)) in
  if Py.truthy raw then Some (parse_priority raw) else None.

(** The value of [prefer] read from the row; [str(None)] is ["None"]. *)
Definition row_prefer (row : CsvRow) : bool :=
  let s := match r_prefer_archive row with Some s => s | None => "None" end in
  bool_decide (Py.lower (Py.strip s) = "true").

(** The two files read from the project root. *)
Record Files : Type := mkFiles {
  retailers_csv : option (list CsvRow);
  selectors_json : SelectorsJson
}.

(** [read_retailer_archive_overrides]. *)
Definition read_retailer_archive_overrides (fs : Files) (code : string)
  : list string * bool :=
  let '(pri, prefer) :=
    match retailers_csv fs with
    | Some rows =>
        match find_row code rows with
        | Some row => (row_priority row, row_prefer row)
        | None => (None, false)
        end
    | None => (None, false)
    end in
  let arch_cfg := read_selectors_archives (selectors_json fs) in
  (match pri with Some p => p | None => global_priority arch_cfg end, prefer).

(** [a or b] for lists. *)
Definition list_or {A} (a b : list A) : list A :=
  match a with [] => b | _ => a end.

(** The list comprehension that caps the order to known providers and
    removes repetitions; the state is the set [seen]. *)
Fixpoint cap_dedup (seen : gset string) (order : list string) : list string :=
  match order with
  | [] => []
  | p :: rest =>
      if in_FETCHERS p && bool_decide (p ∉ seen)
      then p :: cap_dedup ({[p]} ∪ seen) rest
      else cap_dedup seen rest
  end.

(** [priority or pri_csv or DEFAULT_PRIORITY]. *)
Definition requested_order (fs : Files) (code : string)
    (priority : option (list string)) : list string :=
  let '(pri_csv, _) := read_retailer_archive_overrides fs code in
  list_or (default [] priority) (list_or pri_csv DEFAULT_PRIORITY).

(** The value of [order] once capped: the providers the loop walks,
    before the slice by [limit]. *)
Definition effective_order (fs : Files) (code : string)
    (priority : option (list string)) : list string :=
  cap_dedup ∅ (Py.lower <$> requested_order fs code priority).

(** The value of [prefer]; the function computes it and reads it
    nowhere. *)
Definition effective_prefer (fs : Files) (code : string)
    (prefer_archive : option bool) : bool :=
  match prefer_archive with
  | Some b => b
  | None => (read_retailer_archive_overrides fs code).2
  end.

(** [int(timeout_ms or arch_cfg.get("timeout_ms", 5000))]. *)
Definition effective_timeout (fs : Files) (timeout_ms_arg : option Z) : Z :=
  match timeout_ms_arg with
  | Some t => if t =? 0 then timeout_ms (read_selectors_archives (selectors_json fs)) else t
  | None => timeout_ms (read_selectors_archives (selectors_json fs))
  end.

(** What the ladder does outside the process. *)
Inductive event : Type :=
| Call (name target : string) (timeout : Z)
| Sleep (seconds : Q).

(** The names of the providers called, in order. *)
Definition called (trace : list event) : list string :=
  omap (fun e => match e with Call n _ _ => Some n | Sleep _ => None end) trace.

Section Ladder.

(** The answer of [FETCHERS[name](target_url, timeout)] during the
    call. *)
Variable adapter : string -> string -> Z -> ArchiveResult.

(** The test that stops the ladder. *)
Definition usable (res : ArchiveResult) : bool :=
  ok res && Py.truthy (Py.strip (opt_or_empty (html res))).

(** The loop over [order[: max(1, limit)]]; the state is the list of
    attempts and the trace. *)
Fixpoint ladder (target : string) (timeout : Z) (names : list string)
    (attempts : list ArchiveResult) (trace : list event)
  : option ArchiveResult * list ArchiveResult * list event :=
  match names with
  | [] => (None, attempts, trace)
  | name :: rest =>
      let res := adapter name target timeout in
      let attempts := attempts ++ [res] in
      let trace := trace ++ [Call name target timeout] in
      if usable res then (Some res, attempts, trace)
      else ladder target timeout rest attempts (trace ++ [Sleep (15 # 100)])
  end.

(** [try_archives_for]: the best result, the attempts, and the trace
    of the calls made. *)
Definition try_archives_for (fs : Files) (code target_url : string)
    (priority : option (list string)) (timeout_ms_arg : option Z)
    (prefer_archive : option bool) (limit : Z)
  : option ArchiveResult * list ArchiveResult * list event :=
  let timeout := effective_timeout fs timeout_ms_arg in
  let order := effective_order fs code priority in
  let _prefer := effective_prefer fs code prefer_archive in
  ladder target_url timeout (take (Z.to_nat (Z.max 1 limit)) order) [] [].

End Ladder.

End Archives.

(** ** finder/core/cdx.py *)

Module Cdx.

(** [_group_by_month]: the loop that fills [seen]. *)
Fixpoint months_seen (seen : gset string) (stamps : list string) : gset string :=
  match stamps with
  | [] => seen
  | ts :: rest =>
      months_seen
        (if (8 <=? String.length ts)%nat
         then {[ String.substring 0 4 ts +:+ "-" +:+ String.substring 4 2 ts ]} ∪ seen
         else seen)
        rest
  end.

Definition _group_by_month (stamps : list string) : nat :=
  size (months_seen ∅ stamps).

(** What both CDX functions do with the body of the reply: [None]
    stands for any exception (or for [requests] not being installed),
    [Some data] for the decoded JSON rows. *)
Definition cdx_counts (reply : option (list (list string))) : nat * nat :=
  match reply with
  | None => (0%nat, 0%nat)
  | Some data =>
      if (length data <=? 1)%nat then (0%nat, 0%nat)
      else
        let stamps := omap (fun row => row !! 1%nat) (drop 1 data) in
        (length stamps, _group_by_month stamps)
  end.

Record Summary : Type := mkSummary {
  wayback_hits : Z;
  wayback_months : Z;
  arquivo_hits : Z;
  arquivo_months : Z;
  months_with_snapshots : Z;
  total_hits : Z
}.

Section Sampler.

Variable check_bracketed_netloc : string -> bool.

(** The replies of the two indexes for a URL and a first year. *)
Variable wayback_reply : string -> Z -> option (list (list string)).
Variable arquivo_reply : string -> Z -> option (list (list string)).

Definition wayback_cdx (url : string) (start_year : Z) : nat * nat :=
  cdx_counts (wayback_reply url start_year).

Definition arquivo_cdx (url : string) (start_year : Z) : nat * nat :=
  cdx_counts (arquivo_reply url start_year).

(** [_strip_query_and_fragment]. *)
Definition _strip_query_and_fragment (url : string) : option string :=
  sp ← UrlParse.urlsplit check_bracketed_netloc url;
  Some (UrlParse.urlunsplit (UrlParse.scheme sp) (Py.lower (UrlParse.netloc sp))
                            (UrlParse.path sp) "" "").

(** [[s for s in path.split("/") if s]]. *)
Definition segments (path : string) : list string :=
  List.filter Py.truthy (Py.split "/" path).

(** The URL yielded for the index [i]. *)
Definition level_url (sp : UrlParse.SplitResult) (segs : list string) (i : nat)
  : string :=
  let p := match i with
           | O => "/"
           | _ => "/" +:+ Py.join "/" (take i segs)
           end in
  UrlParse.urlunsplit
    (if Py.truthy (UrlParse.scheme sp) then UrlParse.scheme sp else "https")
    (UrlParse.netloc sp) p "" "".

(** [range(n, -1, -1)]. *)
Definition countdown (n : nat) : list nat := rev (seq 0 (S n)).

(** [_parent_urls], as the list of the URLs yielded. *)
Definition _parent_urls (url : string) : option (list string) :=
  u ← _strip_query_and_fragment url;
  sp ← UrlParse.urlsplit check_bracketed_netloc u;
  let segs := segments (UrlParse.path sp) in
  Some (level_url sp segs <$> countdown (length segs)).

(** The counts of one candidate, as the body of the loop of
    [summarize_archives] builds them. *)
Definition level_summary (candidate : string) (start_year : Z) : Summary :=
  let '(w_hits, w_months) := wayback_cdx candidate start_year in
  let '(a_hits, a_months) := arquivo_cdx candidate start_year in
  mkSummary (Z.of_nat w_hits) (Z.of_nat w_months)
            (Z.of_nat a_hits) (Z.of_nat a_months)
            (Z.max (Z.of_nat w_months) (Z.of_nat a_months))
            (Z.of_nat w_hits + Z.of_nat a_hits).

(** The loop of [summarize_archives]. *)
Fixpoint climb (candidates : list string) (start_year : Z) : Summary :=
  match candidates with
  | [] => mkSummary 0 0 0 0 0 0
  | candidate :: rest =>
      let s := level_summary candidate start_year in
      if (0 <? months_with_snapshots s) || (0 <? total_hits s) then s
      else climb rest start_year
  end.

(** [summarize_archives]; [None] stands for the [ValueError] of
    [urlsplit]. *)
Definition summarize_archives (url : string) (start_year : Z) : option Summary :=
  candidates ← _parent_urls url;
  Some (climb candidates start_year).

End Sampler.

End Cdx.

(** ** src/eopt/net_gateway.py *)

Module NetGateway.

Record GatewayPolicy : Type := mkGatewayPolicy {
  user_agent : string;
  rps : Q;
  burst : Z;
  timeout_s : Q;
  budget_s : Q;
  respect_robots : bool
}.

Record _Bucket : Type := mkBucket {
  capacity : Q;
  tokens : Q;
  b_rps : Q;
  last : Q
}.

(** What a call does outside the process. *)
Inductive event : Type :=
| RobotsRead (robots_url : string)
| ClientGet (url : string) (referer : option string)
| Slept (seconds : Q).

(** The world: how many times the clock was read, and what was done. *)
Record World : Type := mkWorld {
  clock_reads : nat;
  events : list event
}.

(** The answer of [self._client.get]: a reply, or an [httpx.HTTPError]
    of the named class. *)
Inductive response : Type :=
| Reply (status_code : Z) (text : string)
| HTTPError (class_name : string).

Record Meta : Type := mkMeta {
  m_url : string;
  m_ok : bool;
  m_status : option Z;
  m_why : option string;
  m_elapsed_s : option Q
}.

(** How a call ends: it returns, it raises the [ValueError] of
    [urlparse], or the embedding runs out of loop turns. *)
Inductive outcome (A : Type) : Type :=
| Returns (a : A)
| Raises
| OutOfFuel.
Arguments Returns {A} a.
Arguments Raises {A}.
Arguments OutOfFuel {A}.

Section Gateway.

Variable check_bracketed_netloc : string -> bool.

(** [urllib.robotparser]: the parser once [set_url] and [read] have
    run against the given address, and its [can_fetch]. *)
Variable Robots : Type.
Variable robots_read : string -> Robots.
Variable can_fetch : Robots -> string -> string -> bool.

(** [urllib.parse.urljoin]. *)
Variable urljoin : string -> string -> string.

(** [time.monotonic()]: the value of the n-th reading. *)
Variable monotonic : nat -> Q.

(** The reply to the request issued when [n] events have happened. *)
Variable client_get : nat -> string -> option string -> response.

(** [round(x, 3)]. *)
Variable round3 : Q -> Q.

Record NetGateway : Type := mkNetGateway {
  p : GatewayPolicy;
  bucket : _Bucket;
  _robots_cache : gmap string Robots
}.

(** [NetGateway.__init__]; the clock is read once by the bucket. *)
Definition init (policy : GatewayPolicy) (w : World) : NetGateway * World :=
  (mkNetGateway policy
     (mkBucket (inject_Z (burst policy)) (inject_Z (burst policy)) (rps policy)
               (monotonic (clock_reads w)))
     ∅,
   mkWorld (S (clock_reads w)) (events w)).

(** Reading the clock. *)
Definition now (w : World) : Q * World :=
  (monotonic (clock_reads w), mkWorld (S (clock_reads w)) (events w)).

Definition emit (e : event) (w : World) : World :=
  mkWorld (clock_reads w) (events w ++ [e]).

(** [_Bucket.take] with [n = 1]. *)
Definition take (b : _Bucket) (w : World) : bool * _Bucket * World :=
  let '(t, w) := now w in
  let refilled := (tokens b + (t - last b) * b_rps b)%Q in
  let tokens' := if Qle_bool (capacity b) refilled then capacity b else refilled in
  if Qle_bool 1 tokens'
  then (true, mkBucket (capacity b) (tokens' - 1)%Q (b_rps b) t, w)
  else (false, mkBucket (capacity b) tokens' (b_rps b) t, w).

(** The origin that [_robots_allowed] builds from the parsed URL. *)
Definition origin_of (sp : UrlParse.SplitResult) : string :=
  UrlParse.scheme sp +:+ "://" +:+ UrlParse.netloc sp.

(** [NetGateway._robots_allowed]. *)
Definition _robots_allowed (g : NetGateway) (w : World) (url : string)
  : outcome (bool * NetGateway * World) :=
  if negb (respect_robots (p g)) then Returns (true, g, w)
  else
    match UrlParse.urlsplit check_bracketed_netloc url with
    | None => Raises
    | Some parts =>
        let origin := origin_of parts in
        match _robots_cache g !! origin with
        | Some r => Returns (can_fetch r (user_agent (p g)) url, g, w)
        | None =>
            let robots_url := urljoin origin "/robots.txt" in
            let r := robots_read robots_url in
            let w := emit (RobotsRead robots_url) w in
            let g := mkNetGateway (p g) (bucket g) (<[origin := r]> (_robots_cache g)) in
            Returns (can_fetch r (user_agent (p g)) url, g, w)
        end
    end.

(** The text of [f"http_{r.status_code}"] for the two codes that
    reach it. *)
Definition http_why (code : Z) : string :=
  if code =? 403 then "http_403" else "http_429".

(** The [while] loop of [get_text] and the code after it. *)
Fixpoint fetch_loop (fuel : nat) (g : NetGateway) (w : World) (url : string)
    (referer : option string) (start bud : Q) (meta : Meta)
  : outcome (option string * Meta * NetGateway * World) :=
  let finish (meta : Meta) (g : NetGateway) (w : World) :=
    let '(elapsed, w) :=
      match m_elapsed_s meta with
      | Some e => (Some e, w)
      | None => let '(t, w) := now w in (Some (round3 (t - start)%Q), w)
      end in
    let why := match m_why meta with Some y => Some y | None => Some "budget_exhausted" end in
    Returns (None, mkMeta (m_url meta) (m_ok meta) (m_status meta) why elapsed, g, w) in
  match fuel with
  | O => OutOfFuel
  | S fuel =>
      let '(t, w) := now w in
      if Qle_bool bud (t - start)%Q then finish meta g w
      else
        let '(got, b, w) := take (bucket g) w in
        let g := mkNetGateway (p g) b (_robots_cache g) in
        if got then
          let ref := match referer with
                     | Some r => if Py.truthy r then Some r else None
                     | None => None
                     end in
          let resp := client_get (length (events w)) url ref in
          let w := emit (ClientGet url ref) w in
          match resp with
          | Reply code text =>
              let meta := mkMeta (m_url meta) (m_ok meta) (Some code)
                                 (m_why meta) (m_elapsed_s meta) in
              if code =? 200 then
                let '(t, w) := now w in
                Returns (Some text,
                         mkMeta (m_url meta) true (m_status meta) (m_why meta)
                                (Some (round3 (t - start)%Q)), g, w)
              else if (code =? 403) || (code =? 429) then
                finish (mkMeta (m_url meta) (m_ok meta) (m_status meta)
                               (Some (http_why code)) (m_elapsed_s meta)) g w
              else
                fetch_loop fuel g (emit (Slept (3 # 10)) w) url referer start bud meta
          | HTTPError name =>
              let meta := mkMeta (m_url meta) (m_ok meta) (m_status meta)
                                 (Some ("http_error:" +:+ name)) (m_elapsed_s meta) in
              fetch_loop fuel g (emit (Slept (3 # 10)) w) url referer start bud meta
          end
        else
          fetch_loop fuel g (emit (Slept (3 # 10)) w) url referer start bud meta
  end.

(** [NetGateway.get_text]. *)
Definition get_text (fuel : nat) (g : NetGateway) (w : World) (url : string)
    (budget_s_arg : option Q) (referer : option string)
  : outcome (option string * Meta * NetGateway * World) :=
  let '(start, w) := now w in
  let bud := match budget_s_arg with
             | Some b => if Qeq_bool b 0 then budget_s (p g) else b
             | None => budget_s (p g)
             end in
  let meta := mkMeta url false None None None in
  match _robots_allowed g w url with
  | Raises => Raises
  | OutOfFuel => OutOfFuel
  | Returns (allowed, g, w) =>
      if negb allowed then
        Returns (None, mkMeta (m_url meta) (m_ok meta) (m_status meta)
                              (Some "robots_disallow") (m_elapsed_s meta), g, w)
      else fetch_loop fuel g w url referer start bud meta
  end.

End Gateway.

End NetGateway.

(** ** src/eopt/archives.py: the provider adapters and the one-shot helper *)

Module ArchiveFetchers.
Import Archives.

(** What [fetch_wayback] reads from [r.json()]: an exception while the
    reply is decoded or walked, or the value of
    [archived_snapshots.closest.url], [None] when a level is missing or
    empty.  The embedding covers replies whose [url] is a string. *)
Inductive json_view : Type :=
| JsonError (message : string)
| Closest (snap_url : option string).

(** The answer of [_http_get]: a response with its [status_code], its
    [text], its [url] once redirects are followed and its JSON view, or
    an exception with its text. *)
Inductive http_answer : Type :=
| Response (status_code : Z) (text : string) (final_url : string) (json : json_view)
| Failure (message : string).

(** [Response.ok] of [requests]: [raise_for_status] raises for the codes
    from 400 to 599. *)
Definition response_ok (status_code : Z) : bool :=
  negb ((400 <=? status_code) && (status_code <? 600)).

Section Fetchers.

(** [_http_get(url, timeout_ms)]. *)
Variable http_get : string -> Z -> http_answer.

(** [requests.utils.quote(s, safe=...)]. *)
Variable quote : string -> string -> string.

(** [os.getenv]. *)
Variable getenv : string -> option string.

(** [fetch_wayback]. *)
Definition fetch_wayback (target_url : string) (timeout_ms : Z) : ArchiveResult :=
  let target_url := _clean_target target_url in
  let api := "https://archive.org/wayback/available?url=" +:+ quote target_url "" in
  match http_get api timeout_ms with
  | Failure e => _result "wayback" api 599 None ("api_error:" +:+ e)
  | Response code _ _ js =>
      if negb (code =? 200) then _result "wayback" api code None "api_non_200"
      else
        match js with
        | JsonError e => _result "wayback" api 598 None ("json_error:" +:+ e)
        | Closest snap =>
            if Py.truthy (opt_or_empty snap) then
              let snap_url := opt_or_empty snap in
              match http_get snap_url timeout_ms with
              | Response rr_code rr_text _ _ =>
                  _result "wayback" snap_url rr_code
                          (if response_ok rr_code then Some rr_text else None)
                          (if response_ok rr_code then "ok" else "fetch_fail")
              | Failure e => _result "wayback" snap_url 599 None ("fetch_error:" +:+ e)
              end
            else _result "wayback" api 404 None "no_snapshot"
        end
  end.

(** The [try] block that the adapters of archive.today, Ghost Archive,
    Memento, Arquivo.pt and the UK Web Archive share: one request, the
    text kept when the response is ok. *)
Definition get_page (source probe : string) (timeout_ms : Z) (fail_reason : string)
  : ArchiveResult :=
  match http_get probe timeout_ms with
  | Response code text final_url _ =>
      _result source final_url code
              (if response_ok code then Some text else None)
              (if response_ok code then "ok" else fail_reason)
  | Failure e => _result source probe 599 None ("fetch_error:" +:+ e)
  end.

(** [fetch_archivetoday]. *)
Definition fetch_archivetoday (target_url : string) (timeout_ms : Z) : ArchiveResult :=
  let target_url := _clean_target target_url in
  get_page "archivetoday" ("https://archive.today/" +:+ target_url) timeout_ms
           "no_snapshot_or_blocked".

(** [fetch_ghost]; [None] stands for the [IndexError] of
    [_clean_target(target_url).split("/")[2]], which is outside the
    [try] block. *)
Definition fetch_ghost (target_url : string) (timeout_ms : Z) : option ArchiveResult :=
  host ← Py.split "/" (_clean_target target_url) !! 2%nat;
  Some (get_page "ghost" ("https://ghostarchive.org/search?term=" +:+ quote host "/")
                 timeout_ms "no_results_or_blocked").

(** [fetch_memento]. *)
Definition fetch_memento (target_url : string) (timeout_ms : Z) : ArchiveResult :=
  let target_url := _clean_target target_url in
  get_page "memento"
           ("https://timetravel.mementoweb.org/timegate/" +:+ quote target_url "")
           timeout_ms "no_snapshot".

(** [fetch_arquivo]. *)
Definition fetch_arquivo (target_url : string) (timeout_ms : Z) : ArchiveResult :=
  let target_url := _clean_target target_url in
  get_page "arquivo" ("https://arquivo.pt/wayback/*/" +:+ quote target_url "")
           timeout_ms "no_snapshot".

(** [fetch_ukwa]. *)
Definition fetch_ukwa (target_url : string) (timeout_ms : Z) : ArchiveResult :=
  let target_url := _clean_target target_url in
  get_page "ukwa" ("https://www.webarchive.org.uk/ukwa/target/" +:+ quote target_url "")
           timeout_ms "no_snapshot".

(** [fetch_perma]. *)
Definition fetch_perma (target_url : string) (timeout_ms : Z) : ArchiveResult :=
  let target_url := _clean_target target_url in
  if negb (Py.truthy (opt_or_empty (getenv "PERMA_API_KEY")))
  then _result "perma" target_url 460 None "no_api_key"
  else _result "perma" target_url 501 None "not_implemented".

(** The dict [FETCHERS]. *)
Definition FETCHERS (name : string)
  : option (string -> Z -> option ArchiveResult) :=
  if decide (name = "wayback") then Some (fun u t => Some (fetch_wayback u t))
  else if decide (name = "archivetoday") then Some (fun u t => Some (fetch_archivetoday u t))
  else if decide (name = "ghost") then Some fetch_ghost
  else if decide (name = "memento") then Some (fun u t => Some (fetch_memento u t))
  else if decide (name = "arquivo") then Some (fun u t => Some (fetch_arquivo u t))
  else if decide (name = "ukwa") then Some (fun u t => Some (fetch_ukwa u t))
  else if decide (name = "perma") then Some (fun u t => Some (fetch_perma u t))
  else None.

(** [FETCHERS[name](target_url, timeout)]; [None] stands for the
    [KeyError] of an unknown name and for the [IndexError] of
    [fetch_ghost]. *)
Definition call_fetcher (name target_url : string) (timeout_ms : Z)
  : option ArchiveResult :=
  fn ← FETCHERS name; fn target_url timeout_ms.

(** The adapters as the ladder calls them.  The ladder only calls names
    that are keys of [FETCHERS], for which [call_fetcher] has a result;
    the other branch is there to make the function total. *)
Definition adapter (name target_url : string) (timeout_ms : Z) : ArchiveResult :=
  default (_result name target_url 0 None "") (call_fetcher name target_url timeout_ms).

End Fetchers.

Section OneShot.

(** The answer of [FETCHERS[name](target_url, timeout)] during the
    call. *)
Variable adapter : string -> string -> Z -> ArchiveResult.

(** [archive_fetch_html]: the result returned and the trace of the calls
    made.  An [ArchiveResult] is always true as a condition. *)
Definition archive_fetch_html (fs : Files) (code target_url : string)
    (priority : option (list string)) (timeout_ms : option Z)
  : ArchiveResult * list event :=
  let '(best, attempts, trace) :=
    try_archives_for adapter fs code target_url priority timeout_ms None 6 in
  (match best with
   | Some b => b
   | None =>
       match last attempts with
       | Some l =>
           _result (source l) (url l) (status l) None
                   ("all_failed; last=" +:+ reason l)
       | None => _result "archives" target_url 599 None "no_providers_or_attempts"
       end
   end, trace).

End OneShot.

End ArchiveFetchers.

(** ** tools/phase1/phase1_oilbot.py: filters, throttles and pagination *)

Module OilbotHelpers.
Import Oilbot.

(** [sub in s] for strings. *)
Fixpoint str_in (sub s : string) : bool :=
  Py.startswith s sub
  || match s with
     | EmptyString => false
     | String _ r => str_in sub r
     end.

Definition DEFAULT_NEGATIVE_TERMS : list string :=
  ["pesto"; "cracker"; "crackers"; "chips"; "koek"; "koekjes"; "snack";
   "nootjes"; "oregano"; "toast"].

(** The dict returned by [_load_oil_terms]. *)
Record Terms : Type := mkTerms {
  positive : list string;
  brands : list string
}.

(** What [_load_oil_terms] gets from the file: an exception (no file,
    bad YAML, an entry that is not a list of strings), or the lists
    under [positive] and [brands_hint], empty when the key is absent. *)
Inductive TermsFile : Type :=
| TermsError
| TermsData (positive brands_hint : list string).

(** [_load_oil_terms]. *)
Definition _load_oil_terms (f : TermsFile) : Terms :=
  match f with
  | TermsData positive brands_hint =>
      let pos := Py.lower <$> positive in
      let brands := Py.lower <$> brands_hint in
      mkTerms (if bool_decide ("virgin" ∈ pos) then pos else pos ++ ["virgin"]) brands
  | TermsError =>
      mkTerms ["olijfolie"; "huile d'olive"; "olive oil"; "extravierge";
               "extra virgin"; "virgin"] []
  end.

(** [_is_oil_candidate]. *)
Definition _is_oil_candidate (name html : string) (terms : Terms) : bool :=
  let tname := Py.lower (or_empty name) in
  let thtml := Py.lower (or_empty html) in
  let pos := positive terms in
  if existsb (fun term => str_in term tname) pos
     || existsb (fun term => str_in term thtml) pos then true
  else if existsb (fun b => str_in b tname) (brands terms)
          || existsb (fun b => str_in b thtml) (brands terms) then true
  else false.

(** [_negative_hit]. *)
Definition _negative_hit (text : string) : bool :=
  let t := Py.lower (or_empty text) in
  existsb (fun bad => str_in bad t) DEFAULT_NEGATIVE_TERMS.

(** *** The throttles

    The directory [policy/] holds the stamp files; of a stamp the
    functions read whether it exists and its modification time.  A
    write stamps the file with the time of the write. *)


Definition PREWARM_STAMP (code : string) : string := code +:+ "_last_prewarm.txt".






(** *** Pagination *)

(** A dict yielded by [extract_products_from_jsonld], with the keys the
    pagination helpers read. *)
Record Product : Type := mkProduct {
  p_name : string;
  p_price : option string;
  p_url : option string;
  p_quantity_hint : option string
}.

Section Paginate.

Variable sha1_hexdigest : string -> string.
Variable float_str : Q -> string.

(** [parse_price_to_eur] and [parse_quantity]. *)
Variable parse_price_to_eur : string -> option Q.
Variable parse_quantity : string -> option string.

(** The terms loaded from [configs/oil_terms.yaml]. *)
Variable terms_file : TermsFile.

(** [guard_url(u)[0]]. *)
Variable guard_url : string -> bool.

(** [_set_qs(category_url, offSet=off)] and
    [_set_qs(category_url, page=pn, withOffset="true")]. *)
Variable offset_url : string -> Z -> string.
Variable page_url : string -> Z -> string.

(** The n-th navigation of the call, to the given address: [None] when
    [page.goto] or what follows it in the [try] block raises, else the
    products that [extract_products_from_jsonld] reads from the page.
    The embedding covers the runs in which reading the content of a
    page that has loaded does not raise. *)
Variable load : nat -> string -> option (list Product).

(** The body of the loop over the products of a page: the row appended
    for a product, if any. *)
Definition product_row (terms : Terms) (u : string) (p : Product) : option Row :=
  let name := Py.strip (or_empty (p_name p)) in
  let price := parse_price_to_eur (or_empty (Archives.opt_or_empty (p_price p))) in
  match price with
  | None => None
  | Some price =>
      if negb (Py.truthy name) then None
      else
        let qty :=
          let q := Archives.opt_or_empty (parse_quantity name) in
          if Py.truthy q then q else or_empty (Archives.opt_or_empty (p_quantity_hint p)) in
        let src :=
          let v := Archives.opt_or_empty (p_url p) in
          if Py.truthy v then v else u in
        if negb (_is_oil_candidate name "" terms) || _negative_hit name then None
        else Some (mkRow "" name qty (Some price) src "" "jsonld" "live" false)
  end.

(** What holds of a row made by [product_row]. *)
Definition row_ok (terms : Terms) (r : Row) : Prop :=
  retailer r = "" /\ product_name r <> "" /\ price_eur r <> None /\
  _is_oil_candidate (product_name r) "" terms = true /\
  _negative_hit (product_name r) = false /\
  selector_used r = "jsonld" /\ mode r = "live" /\ stale r = false.

(** The rows of a page. *)
Definition page_batch (terms : Terms) (u : string) (products : list Product)
  : list Row :=
  omap (product_row terms u) products.

(** The keys handed to the tracker. *)
Definition batch_keys (batch : list Row) : list string :=
  (fun r => _product_key sha1_hexdigest float_str
              (product_name r) (quantity r) (source_url r) (price_eur r)) <$> batch.


(** The [for] loop of [_jumbo_paginate_collect]: [turns] is what is left
    of [range(max_pages)], [n] counts the navigations; the result is
    the rows and the addresses handed to [page.goto]. *)
Fixpoint jumbo_loop (terms : Terms) (category_url : string) (page_size : Z)
    (turns : nat) (n : nat) (off : Z) (tracker : Paging.PagerTracker)
    (rows : list Row) (visited : list string) : list Row * list string :=
  match turns with
  | O => (rows, visited)
  | S turns =>
      let u := offset_url category_url off in
      if negb (guard_url u) then (rows, visited)
      else
        match load n u with
        | None => (rows, visited ++ [u])
        | Some products =>
            let batch := page_batch terms u products in
            let '(tracker, grew) := Paging.add_batch tracker (batch_keys batch) in
            let rows := rows ++ batch in
            if negb grew && Paging.should_stop tracker then (rows, visited ++ [u])
            else jumbo_loop terms category_url page_size turns (S n) (off + page_size)
                            tracker rows (visited ++ [u])
        end
  end.

(** [_jumbo_paginate_collect]. *)
Definition _jumbo_paginate_collect (category_url : string) (max_pages page_size : Z)
  : list Row * list string :=
  let terms := _load_oil_terms terms_file in
  jumbo_loop terms category_url page_size (Z.to_nat max_pages) 0 0
             (Paging.init 1 1) [] [].

(** The loop [for pn in range(2, max_pages + 1)] of
    [_ah_paginate_collect]; [pn] is the page number of the turn. *)
Fixpoint ah_loop (terms : Terms) (category_url : string)
    (turns : nat) (n : nat) (pn : Z) (tracker : Paging.PagerTracker)
    (rows : list Row) (visited : list string) : list Row * list string :=
  match turns with
  | O => (rows, visited)
  | S turns =>
      let u := page_url category_url pn in
      if negb (guard_url u) then (rows, visited)
      else
        match load n u with
        | None => (rows, visited ++ [u])
        | Some products =>
            let batch := page_batch terms u products in
            let '(tracker, grew) := Paging.add_batch tracker (batch_keys batch) in
            let rows := rows ++ batch in
            if negb grew && Paging.should_stop tracker then (rows, visited ++ [u])
            else ah_loop terms category_url turns (S n) (pn + 1)
                         tracker rows (visited ++ [u])
        end
  end.

(** [_ah_paginate_collect]; [None] stands for the exception that leaves
    the function when the guard refuses the first page or when the
    navigation to it fails. *)
Definition _ah_paginate_collect (category_url : string) (max_pages : Z)
  : option (list Row * list string) :=
  let terms := _load_oil_terms terms_file in
  if negb (guard_url category_url) then None
  else
    products ← load 0 category_url;
    let rows := page_batch terms category_url products in
    let tracker := (Paging.add_batch (Paging.init 1 1) (batch_keys rows)).1 in
    Some (ah_loop terms category_url (Z.to_nat (max_pages + 1 - 2)) 1 2
                  tracker rows [category_url]).

End Paginate.

End OilbotHelpers.

(** ** What the traces of the gateway show *)

Module NetGatewayTrace.
Import NetGateway.

(** The requests sent to the site, and the readings of [robots.txt]. *)
Definition is_get (e : event) : bool :=
  match e with ClientGet _ _ => true | _ => false end.

Definition is_robots_read (e : event) : bool :=
  match e with RobotsRead _ => true | _ => false end.

(** The number of requests sent to the site. *)
Definition requests_sent (evs : list event) : nat :=
  length (List.filter is_get evs).

(** The number of readings of [robots.txt]. *)
Definition robots_reads (evs : list event) : nat :=
  length (List.filter is_robots_read evs).

Section Turns.

Variable Robots : Type.
Variable monotonic : nat -> Q.
Variable client_get : nat -> string -> option string -> response.
Variable round3 : Q -> Q.

(** The code of [get_text] after the [while] loop. *)
Definition finish (start : Q) (meta : Meta) (g : NetGateway Robots) (w : World)
  : option string * Meta * NetGateway Robots * World :=
  let '(elapsed, w) :=
    match m_elapsed_s meta with
    | Some e => (Some e, w)
    | None => let '(t, w) := now monotonic w in (Some (round3 (t - start)%Q), w)
    end in
  let why := match m_why meta with Some y => Some y | None => Some "budget_exhausted" end in
  (None, mkMeta (m_url meta) (m_ok meta) (m_status meta) why elapsed, g, w).

(** How one turn of the [while] loop ends: the call returns, or the
    loop goes on from a new state. *)
Inductive turn_end : Type :=
| Exit (r : option string * Meta * NetGateway Robots * World)
| Again (g : NetGateway Robots) (w : World) (meta : Meta).

(** One turn of the [while] loop of [get_text], the test of the budget
    included. *)
Definition turn (g : NetGateway Robots) (w : World) (url : string)
    (referer : option string) (start bud : Q) (meta : Meta) : turn_end :=
  let '(t, w) := now monotonic w in
  if Qle_bool bud (t - start)%Q then Exit (finish start meta g w)
  else
    let '(got, b, w) := take monotonic (bucket Robots g) w in
    let g := mkNetGateway Robots (p Robots g) b (_robots_cache Robots g) in
    if got then
      let ref := match referer with
                 | Some r => if Py.truthy r then Some r else None
                 | None => None
                 end in
      let resp := client_get (length (events w)) url ref in
      let w := emit (ClientGet url ref) w in
      match resp with
      | Reply code text =>
          let meta := mkMeta (m_url meta) (m_ok meta) (Some code)
                             (m_why meta) (m_elapsed_s meta) in
          if code =? 200 then
            let '(t, w) := now monotonic w in
            Exit (Some text,
                  mkMeta (m_url meta) true (m_status meta) (m_why meta)
                         (Some (round3 (t - start)%Q)), g, w)
          else if (code =? 403) || (code =? 429) then
            Exit (finish start
                    (mkMeta (m_url meta) (m_ok meta) (m_status meta)
                            (Some (http_why code)) (m_elapsed_s meta)) g w)
          else Again g (emit (Slept (3 # 10)) w) meta
      | HTTPError name =>
          Again g (emit (Slept (3 # 10)) w)
                (mkMeta (m_url meta) (m_ok meta) (m_status meta)
                        (Some ("http_error:" +:+ name)) (m_elapsed_s meta))
      end
    else Again g (emit (Slept (3 # 10)) w) meta.

End Turns.

End NetGatewayTrace.

(* ===================================================================== *)
(** * Part II: properties                                                 *)
(* ===================================================================== *)

(** ** Python string methods *)

Module PyFacts.

Lemma ascii_lower_idem (c : ascii) : Py.ascii_lower (Py.ascii_lower c) = Py.ascii_lower c.
Proof. destruct c as [[] [] [] [] [] [] [] []]; reflexivity. Qed.

Lemma lower_idem (s : string) : Py.lower (Py.lower s) = Py.lower s.
Proof.
  induction s as [|c s IH]; simpl; [reflexivity|].
  by rewrite ascii_lower_idem, IH.
Qed.

Lemma truthy_true (s : string) : Py.truthy s = true <-> s <> "".
Proof. destruct s; simpl; split; congruence. Qed.

Lemma truthy_false (s : string) : Py.truthy s = false <-> s = "".
Proof. destruct s; simpl; split; congruence. Qed.

End PyFacts.

(** ** tools/phase1/paging.py *)

Module PagingFacts.
Import Paging.

(** The loop adds exactly the non-empty keys of the batch. *)
Lemma add_keys_spec (keys : list string) (s : gset string) (k : string) :
  k ∈ add_keys s keys <-> k ∈ s \/ (k ∈ keys /\ k <> "").
Proof.
  revert s. induction keys as [|a keys IH]; intros s; simpl.
  - set_solver.
  - rewrite IH. destruct (Py.truthy a) eqn:Ha.
    + apply PyFacts.truthy_true in Ha. set_solver.
    + apply PyFacts.truthy_false in Ha. subst a. set_solver.
Qed.

Lemma add_keys_mono (keys : list string) (s : gset string) : s ⊆ add_keys s keys.
Proof. intros k Hk. apply add_keys_spec. by left. Qed.


(** Whatever it returns, [add_batch] leaves the keys of the batch in the
    seen set. *)
Lemma add_batch_seen (t : PagerTracker) (keys : list string) :
  seen (add_batch t keys).1 = add_keys (seen t) keys.
Proof. unfold add_batch. by destruct (_ <? _). Qed.

End PagingFacts.

Module PagingProps.
Import Paging PagingFacts.



End PagingProps.

(** ** tools/phase1/phase1_oilbot.py *)

Module OilbotFacts.
Import Oilbot.

Section Dedupe.

Variable sha1_hexdigest : string -> string.
Variable float_str : Q -> string.

Let key := row_key sha1_hexdigest float_str.
Let step := dedupe_step sha1_hexdigest float_str.

Lemma dedupe_step_eq (seen : gset string) (uniq : list Row) (r : Row) :
  step (seen, uniq) r =
  if decide (key r ∈ seen) then (seen, uniq) else ({[key r]} ∪ seen, uniq ++ [r]).
Proof. reflexivity. Qed.

(** The loop only appends to [uniq], and what it appends depends on the
    rows and on [seen] alone. *)
Lemma dedupe_fold_app (rows : list Row) (seen : gset string) (uniq : list Row) :
  fold_left step rows (seen, uniq) =
  ((fold_left step rows (seen, [])).1, uniq ++ (fold_left step rows (seen, [])).2).
Proof.
  revert seen uniq. induction rows as [|r rows IH]; intros seen uniq; simpl.
  - by rewrite app_nil_r.
  - rewrite !dedupe_step_eq.
    destruct (decide (key r ∈ seen)).
    + apply IH.
    + rewrite (IH _ (uniq ++ [r])), (IH _ ([] ++ [r])). simpl.
      by rewrite <- app_assoc.
Qed.

(** The rows kept when the loop starts from the set [seen]. *)
Lemma dedupe_fold_cons (r : Row) (rows : list Row) (seen : gset string) :
  (fold_left step (r :: rows) (seen, [])).2 =
  if decide (key r ∈ seen) then (fold_left step rows (seen, [])).2
  else r :: (fold_left step rows ({[key r]} ∪ seen, [])).2.
Proof.
  simpl. rewrite dedupe_step_eq.
  destruct (decide (key r ∈ seen)); [done|].
  by rewrite dedupe_fold_app.
Qed.

(** What the loop keeps: a subsequence of the rows, none of whose keys
    was seen before, with pairwise distinct keys, holding for every key
    not seen before the first row that bears it. *)
Lemma dedupe_fold_spec (rows : list Row) (seen : gset string) :
  let out := (fold_left step rows (seen, [])).2 in
  sublist out rows /\
  NoDup (key <$> out) /\
  (forall r, r ∈ out -> key r ∉ seen) /\
  (forall k, k ∉ seen ->
     List.find (fun r => bool_decide (key r = k)) out =
     List.find (fun r => bool_decide (key r = k)) rows).
Proof.
  revert seen. induction rows as [|r rows IH]; intros seen.
  - simpl. repeat split; try done. constructor. intros r. by rewrite elem_of_nil.
  - cbv zeta. rewrite dedupe_fold_cons.
    destruct (decide (key r ∈ seen)) as [Hin|Hnin].
    + destruct (IH seen) as (Hsub & Hnd & Hfresh & Hfind).
      repeat split; try done.
      * by apply sublist_cons.
      * intros k Hk. simpl. rewrite bool_decide_eq_false_2; [by apply Hfind|].
        intros Heq. apply Hk. by rewrite <- Heq.
    + destruct (IH ({[key r]} ∪ seen)) as (Hsub & Hnd & Hfresh & Hfind).
      repeat split.
      * by apply sublist_skip.
      * rewrite fmap_cons. apply NoDup_cons. split; [|done].
        intros Hr. apply list_elem_of_fmap in Hr as (r' & Heq & Hr').
        apply Hfresh in Hr'. rewrite <- Heq in Hr'. set_solver.
      * intros r' Hr'. apply elem_of_cons in Hr' as [->|Hr']; [done|].
        apply Hfresh in Hr'. set_solver.
      * intros k Hk. simpl. case_bool_decide; [done|].
        apply Hfind. set_solver.
Qed.

End Dedupe.

End OilbotFacts.

Module OilbotProps.
Import Oilbot OilbotFacts.

(** C5. [should_flip_to_archive] is a priority order in which the first
    match wins: the auth-redirect reason whenever that signal is set,
    whatever the others are; otherwise the challenge reason when the
    challenge signal is set; otherwise the cookie-wall reason, and only
    then, when the cookie-wall signal is set with no visible card and no
    structured product; otherwise the store-context reason when that
    signal is set; otherwise the empty-render reason when fewer than five
    cards are visible and there is no structured product; otherwise
    [None]. *)
Theorem should_flip_to_archive_priority
    (health : gmap string Py.value) (card_count jsonld_count : Z) :
  let auth := Py.get_truth health "auth_redirect" in
  let challenge := Py.get_truth health "cf_detected" in
  let cookie := Py.get_eq_str health "why_flip" "cookie_wall" in
  let store := Py.get_eq_str health "why_flip" "store_context_failed" in
  let cookie_wall := cookie = true /\ card_count = 0 /\ jsonld_count = 0 in
  let empty_render := card_count < 5 /\ jsonld_count = 0 in
  let verdict := should_flip_to_archive health card_count jsonld_count in
  (auth = true -> verdict = Some "auth_redirect") /\
  (auth = false -> challenge = true -> verdict = Some "cf_challenge") /\
  (auth = false -> challenge = false -> cookie_wall ->
     verdict = Some "cookie_wall") /\
  (verdict = Some "cookie_wall" -> cookie_wall) /\
  (auth = false -> challenge = false -> ~ cookie_wall -> store = true ->
     verdict = Some "store_context_failed") /\
  (auth = false -> challenge = false -> ~ cookie_wall -> store = false ->
     empty_render -> verdict = Some "too_few_cards") /\
  (auth = false -> challenge = false -> ~ cookie_wall -> store = false ->
     ~ empty_render -> verdict = None).
Proof.
  cbv zeta. unfold should_flip_to_archive.
  destruct (Py.get_truth health "auth_redirect");
  destruct (Py.get_truth health "cf_detected");
  destruct (Py.get_eq_str health "why_flip" "cookie_wall");
  destruct (Py.get_eq_str health "why_flip" "store_context_failed");
  destruct (Z.eqb_spec card_count 0); destruct (Z.eqb_spec jsonld_count 0);
  destruct (Z.ltb_spec card_count 5); simpl;
  repeat split; intros; try congruence; try lia; try tauto.
Qed.

(** The statement at a page that shows both the auth-redirect and the
    cookie-wall signals. *)
Lemma should_flip_to_archive_priority_witness :
  should_flip_to_archive
    (<["auth_redirect" := Py.VBool true]> (<["why_flip" := Py.VStr "cookie_wall"]> ∅))
    0 0 = Some "auth_redirect".
Proof.
  by apply (should_flip_to_archive_priority
              (<["auth_redirect" := Py.VBool true]>
                 (<["why_flip" := Py.VStr "cookie_wall"]> ∅)) 0 0).
Defined.

(** C7. The deduplication of [run_one] is stable and keyed by
    [_product_key]: whatever the rows, the result is a subsequence of
    them in which no key occurs twice and in which every key is borne by
    the first row that bears it in the input; [A, B, A'] with equal keys
    for [A] and [A'] gives [A, B]. *)
Theorem run_one_dedupe_stable
    (sha1_hexdigest : string -> string) (float_str : Q -> string)
    (rows : list Row) :
  let key := row_key sha1_hexdigest float_str in
  let out := run_one_dedupe sha1_hexdigest float_str rows in
  sublist out rows /\
  NoDup (key <$> out) /\
  (forall k, List.find (fun r => bool_decide (key r = k)) out =
             List.find (fun r => bool_decide (key r = k)) rows) /\
  (forall A B A', key A = key A' -> key B <> key A ->
     run_one_dedupe sha1_hexdigest float_str [A; B; A'] = [A; B]).
Proof.
  cbv zeta. unfold run_one_dedupe.
  destruct (dedupe_fold_spec sha1_hexdigest float_str rows ∅)
    as (Hsub & Hnd & _ & Hfind).
  repeat split; try done.
  - intros k. apply Hfind. set_solver.
  - intros A B A' HAA HBA. simpl.
    rewrite dedupe_step_eq, decide_False by apply not_elem_of_empty.
    rewrite dedupe_step_eq, decide_False.
    2: { rewrite elem_of_union, elem_of_singleton, elem_of_empty. tauto. }
    rewrite dedupe_step_eq, decide_True; [done|].
    rewrite !elem_of_union, !elem_of_singleton. right. left. done.
Qed.

(** The statement at three rows, the third a copy of the first under
    another retailer name. *)
Lemma run_one_dedupe_stable_witness :
  let A := mkRow "r1" "Olive Oil" "1 l" (Some (5 # 1)) "https://s/a" "" "" "live" false in
  let B := mkRow "r1" "Sunflower Oil" "1 l" (Some (3 # 1)) "https://s/b" "" "" "live" false in
  let A' := mkRow "r2" " olive oil" "1 L" (Some (5 # 1)) "https://s/a" "" "" "archive" true in
  run_one_dedupe (fun s => s) (fun _ => "5.0") [A; B; A'] = [A; B].
Proof.
  cbv zeta.
  by apply (run_one_dedupe_stable (fun s => s) (fun _ => "5.0") []).
Defined.

End OilbotProps.

(** ** tools/phase1/selector_wizard.py *)

Module SelectorWizardFacts.
Import SelectorWizard.

(** Every entry of the registry built by a call has a win counter of
    zero, and every challenger has an entry. *)
Lemma registry_fold (challengers : list Candidate) (reg : gmap string Entry) :
  (forall k e, reg !! k = Some e -> e_wins e = 0) ->
  let r := fold_left (fun reg c => <[id c := mkEntry (css c) 0]> reg) challengers reg in
  (forall k e, r !! k = Some e -> e_wins e = 0) /\
  (forall c, c ∈ challengers -> is_Some (r !! id c)) /\
  (forall k, is_Some (reg !! k) -> is_Some (r !! k)).
Proof.
  revert reg. induction challengers as [|c cs IH]; intros reg Hreg; simpl.
  - repeat split; [done| |done]. intros c Hc. by apply elem_of_nil in Hc.
  - destruct (IH (<[id c := mkEntry (css c) 0]> reg)) as (Hz & Hall & Hkeep).
    { intros k e. rewrite lookup_insert. case_decide; [|by apply Hreg].
      by intros [= <-]. }
    repeat split; [done| |].
    + intros c' Hc'. apply elem_of_cons in Hc' as [->|Hc']; [|by apply Hall].
      apply Hkeep. rewrite lookup_insert_eq. by eexists.
    + intros k Hk. apply Hkeep. rewrite lookup_insert. by case_decide.
Qed.

Lemma registry_wins (baseline : Candidate) (challengers : list Candidate)
    (k : string) (e : Entry) :
  registry baseline challengers !! k = Some e -> e_wins e = 0.
Proof.
  unfold registry.
  apply (registry_fold challengers {[id baseline := mkEntry (css baseline) 0]}).
  intros k' e'. rewrite lookup_singleton. case_decide; [|done]. by intros [= <-].
Qed.

Lemma registry_has (baseline : Candidate) (challengers : list Candidate)
    (c : Candidate) :
  c ∈ challengers -> is_Some (registry baseline challengers !! id c).
Proof.
  unfold registry.
  apply (registry_fold challengers {[id baseline := mkEntry (css baseline) 0]}).
  intros k' e'. rewrite lookup_singleton. case_decide; [|done]. by intros [= <-].
Qed.

(** The best challenger, when there is one, is one of the challengers. *)
Lemma best_fold_in (base_score : Q) (cm : gmap string EvalMetrics)
    (challengers : list Candidate) (st : option Candidate * Q) (b : Candidate) :
  (fold_left (best_step base_score cm) challengers st).1 = Some b ->
  st.1 = Some b \/ b ∈ challengers.
Proof.
  revert st. induction challengers as [|c cs IH]; intros st Hb; simpl in *.
  - by left.
  - apply IH in Hb as [Hb|Hb]; [|right; by apply elem_of_cons; right].
    unfold best_step in Hb. destruct (cm !! id c) as [m|]; [|by left].
    destruct (_ && _) in Hb; [|by left].
    right. simpl in Hb. injection Hb as ->. apply elem_of_cons. by left.
Qed.

(** A state that holds a challenger keeps holding one. *)
Lemma best_fold_some (base_score : Q) (cm : gmap string EvalMetrics)
    (challengers : list Candidate) (st : option Candidate * Q) :
  is_Some st.1 -> is_Some (fold_left (best_step base_score cm) challengers st).1.
Proof.
  revert st. induction challengers as [|c cs IH]; intros st Hst; simpl; [done|].
  apply IH. unfold best_step. destruct (cm !! id c) as [m|]; [|done].
  destruct (_ && _); [by eexists|done].
Qed.

(** A challenger that clears the margin and the gates makes the search
    end with some challenger. *)
Lemma best_fold_qualifying (base_score : Q) (cm : gmap string EvalMetrics)
    (challengers : list Candidate) (c : Candidate) (m : EvalMetrics) :
  c ∈ challengers -> cm !! id c = Some m ->
  (PROMOTE_MARGIN <= shadow_score m - base_score)%Q -> _gates_pass m = true ->
  is_Some (fold_left (best_step base_score cm) challengers (None, base_score)).1.
Proof.
  intros Hc Hm Hmargin Hgates.
  assert (Hgen : forall st : option Candidate * Q,
            (st.1 = None -> st.2 = base_score) ->
            is_Some (fold_left (best_step base_score cm) challengers st).1).
  { induction challengers as [|c' cs IH]; intros st Hst.
    - by apply elem_of_nil in Hc.
    - simpl. apply elem_of_cons in Hc as [<-|Hc].
      + apply best_fold_some. unfold best_step. rewrite Hm.
        destruct st as [[b|] s]; simpl in *.
        * destruct (_ && _); by eexists.
        * rewrite (Hst eq_refl), Hgates.
          assert (Qgt_bool (shadow_score m) base_score = true) as ->.
          { unfold Qgt_bool. apply negb_true_iff, not_true_iff_false.
            rewrite Qle_bool_iff. unfold PROMOTE_MARGIN in Hmargin. lra. }
          assert (Qle_bool PROMOTE_MARGIN (shadow_score m - base_score) = true) as ->
            by by apply Qle_bool_iff.
          by eexists.
      + apply IH; [done|]. unfold best_step.
        destruct (cm !! id c') as [m'|]; [|done].
        destruct (_ && _); [done|done]. }
  by apply Hgen.
Qed.

(** What a call does, whatever it is given: it returns the baseline and
    reports no promotion; with a best challenger the active selector of
    the stored policy stays as it was and the challenger's counter is
    one; without one, the baseline becomes active. *)
Lemma maybe_promote_shape (st : gmap string Policy) (code : string)
    (baseline : Candidate) (challengers : list Candidate)
    (bm : EvalMetrics) (cm : gmap string EvalMetrics) :
  let best := (fold_left (best_step (shadow_score bm) cm) challengers
                         (None, shadow_score bm)).1 in
  exists policy' ex,
    maybe_promote st code baseline challengers bm cm
      = Some (<[code := policy']> st, ex, baseline) /\
    promoted ex = false /\
    active_after ex = active policy' /\
    (forall k e, candidates policy' !! k = Some e -> e_wins e <= 1) /\
    (forall b, best = Some b ->
       active policy' = active (_load_policy st code) /\
       exists e, candidates policy' !! id b = Some e /\ e_wins e = 1) /\
    (best = None -> active policy' = Some (id baseline)).
Proof.
  cbv zeta. unfold maybe_promote.
  destruct (fold_left _ challengers _).1 as [b|] eqn:Hbest.
  - assert (b ∈ challengers) as Hb.
    { apply best_fold_in in Hbest as [Hbest|Hbest]; [done|done]. }
    destruct (registry_has baseline challengers b Hb) as [e He].
    rewrite He. simpl.
    rewrite (registry_wins _ _ _ _ He).
    change (REQUIRED_WINS <=? 0 + 1) with false. cbv iota.
    eexists _, _. split; [reflexivity|]. simpl.
    split; [done|]. split; [done|]. split; [|split].
    + intros k e'. rewrite lookup_insert. case_decide.
      * intros [= <-]. simpl. lia.
      * intros He'. rewrite (registry_wins _ _ _ _ He'). lia.
    + intros b' [= <-]. split; [done|]. eexists. by rewrite lookup_insert_eq.
    + done.
  - simpl. eexists _, _. split; [reflexivity|]. simpl.
    split; [done|]. split; [done|]. split; [|split].
    + intros k e'. unfold reset_wins. rewrite map_lookup_imap.
      destruct (registry baseline challengers !! k) as [e0|] eqn:He0; simpl; [|done].
      intros [= <-]. pose proof (registry_wins _ _ _ _ He0) as Hz.
      destruct (bool_decide _); simpl; lia.
    + done.
    + done.
Qed.

(** The best challenger has metrics, clears the margin and passes the
    gates. *)
Lemma best_fold_passes (base_score : Q) (cm : gmap string EvalMetrics)
    (challengers : list Candidate) (st : option Candidate * Q) (b : Candidate) :
  (fold_left (best_step base_score cm) challengers st).1 = Some b ->
  st.1 = Some b \/
  exists m, cm !! id b = Some m /\ _gates_pass m = true /\
            (PROMOTE_MARGIN <= shadow_score m - base_score)%Q.
Proof.
  revert st. induction challengers as [|c cs IH]; intros st Hb; simpl in *.
  - by left.
  - apply IH in Hb as [Hb|Hb]; [|by right].
    unfold best_step in Hb. destruct (cm !! id c) as [m|] eqn:Hm; [|by left].
    destruct (_ && _) eqn:Htest in Hb; [|by left].
    right. simpl in Hb. injection Hb as ->. exists m.
    apply andb_true_iff in Htest as [Htest Hg].
    apply andb_true_iff in Htest as [_ Hmargin].
    by apply Qle_bool_iff in Hmargin.
Qed.

(** A challenger that fails the gates in a round ends the round with a
    win counter of zero, and the round returns another candidate. *)
Lemma failing_round_resets_counter (st : gmap string Policy) (code : string)
    (baseline : Candidate) (challengers : list Candidate)
    (bm : EvalMetrics) (cm : gmap string EvalMetrics)
    (c : Candidate) (m : EvalMetrics) :
  c ∈ challengers -> cm !! id c = Some m -> _gates_pass m = false ->
  exists st' ex,
    maybe_promote st code baseline challengers bm cm = Some (st', ex, baseline) /\
    promoted ex = false /\
    exists e, candidates (_load_policy st' code) !! id c = Some e /\ e_wins e = 0.
Proof.
  intros Hc Hm Hfail. unfold maybe_promote.
  destruct (registry_has baseline challengers c Hc) as [ec Hec].
  pose proof (registry_wins _ _ _ _ Hec) as Hzero.
  destruct (fold_left _ challengers _).1 as [b|] eqn:Hbest.
  - assert (b ∈ challengers) as Hb.
    { apply best_fold_in in Hbest as [Hbest|Hbest]; [done|done]. }
    assert (id b <> id c) as Hne.
    { intros Heq. apply best_fold_passes in Hbest as [Hbest|(m' & Hm' & Hg & _)]; [done|].
      rewrite Heq, Hm in Hm'. injection Hm' as <-. congruence. }
    destruct (registry_has baseline challengers b Hb) as [e He].
    rewrite He. simpl. rewrite (registry_wins _ _ _ _ He).
    change (REQUIRED_WINS <=? 0 + 1) with false. cbv iota.
    eexists _, _. split; [reflexivity|]. split; [done|].
    unfold _load_policy, _save_policy. rewrite lookup_insert_eq. simpl.
    exists ec. by rewrite lookup_insert_ne.
  - simpl. eexists _, _. split; [reflexivity|]. split; [done|].
    unfold _load_policy, _save_policy. rewrite lookup_insert_eq. simpl.
    unfold reset_wins. rewrite map_lookup_imap, Hec. simpl.
    eexists. split; [reflexivity|]. by destruct (bool_decide _).
Qed.

End SelectorWizardFacts.

Module SelectorWizardProps.
Import SelectorWizard SelectorWizardFacts.

(** C1 (the code departs from the claim).  A challenger that clears the
    margin of 0.05 and all the gates in two consecutive calls of
    [maybe_promote] is not promoted by the second call: both calls return
    the baseline, report no promotion, leave the active selector of the
    stored policy as it was before the first call, and no stored win
    counter exceeds one, because every call rebuilds the registry with
    all counters at zero before it counts the win. *)
Theorem two_qualifying_rounds_do_not_promote
    (st : gmap string Policy) (code : string)
    (baseline : Candidate) (challengers : list Candidate)
    (bm : EvalMetrics) (cm : gmap string EvalMetrics)
    (c : Candidate) (m : EvalMetrics) :
  c ∈ challengers -> cm !! id c = Some m ->
  (PROMOTE_MARGIN <= shadow_score m - shadow_score bm)%Q ->
  _gates_pass m = true ->
  exists st1 ex1 st2 ex2,
    maybe_promote st code baseline challengers bm cm = Some (st1, ex1, baseline) /\
    maybe_promote st1 code baseline challengers bm cm = Some (st2, ex2, baseline) /\
    promoted ex1 = false /\ promoted ex2 = false /\
    active (_load_policy st2 code) = active (_load_policy st code) /\
    active_after ex2 = active (_load_policy st code) /\
    (forall k e, candidates (_load_policy st2 code) !! k = Some e ->
       e_wins e < REQUIRED_WINS).
Proof.
  intros Hc Hm Hmargin Hgates.
  destruct (best_fold_qualifying (shadow_score bm) cm challengers c m Hc Hm Hmargin Hgates)
    as [b Hb].
  destruct (maybe_promote_shape st code baseline challengers bm cm)
    as (p1 & ex1 & Hrun1 & Hpro1 & _ & _ & Hact1 & _).
  destruct (maybe_promote_shape (<[code := p1]> st) code baseline challengers bm cm)
    as (p2 & ex2 & Hrun2 & Hpro2 & Hafter2 & Hwins2 & Hact2 & _).
  destruct (Hact1 b Hb) as [Hact1' _]. destruct (Hact2 b Hb) as [Hact2' _].
  exists (<[code := p1]> st), ex1, (<[code := p2]> (<[code := p1]> st)), ex2.
  assert (Hl2 : _load_policy (<[code := p2]> (<[code := p1]> st)) code = p2)
    by (unfold _load_policy; by rewrite lookup_insert_eq).
  assert (Hl1 : _load_policy (<[code := p1]> st) code = p1)
    by (unfold _load_policy; by rewrite lookup_insert_eq).
  rewrite Hl2. rewrite Hl1 in Hact2'.
  repeat split; try done.
  - by rewrite Hact2', Hact1'.
  - by rewrite Hafter2, Hact2', Hact1'.
  - intros k e He. apply Hwins2 in He. unfold REQUIRED_WINS. lia.
Qed.

(** The statement at a site without a stored policy, a baseline scoring
    0.70 and one challenger scoring 0.76 that passes all the gates. *)
Lemma two_qualifying_rounds_witness :
  let baseline := mkCandidate "base" ".card" 0 0 in
  let challenger := mkCandidate "ch1" ".product" 0 0 in
  let bm := mkEvalMetrics 10 (80 # 100) (60 # 100) 0 in
  let cm : gmap string EvalMetrics :=
    {[ "ch1" := mkEvalMetrics 10 (90 # 100) (62 # 100) 0 ]} in
  exists st1 ex1 st2 ex2,
    maybe_promote ∅ "ah_nl" baseline [challenger] bm cm = Some (st1, ex1, baseline) /\
    maybe_promote st1 "ah_nl" baseline [challenger] bm cm = Some (st2, ex2, baseline) /\
    promoted ex1 = false /\ promoted ex2 = false /\
    active (_load_policy st2 "ah_nl") = active (_load_policy ∅ "ah_nl") /\
    active_after ex2 = active (_load_policy ∅ "ah_nl") /\
    (forall k e, candidates (_load_policy st2 "ah_nl") !! k = Some e ->
       e_wins e < REQUIRED_WINS).
Proof.
  cbv zeta.
  apply (two_qualifying_rounds_do_not_promote ∅ "ah_nl"
           (mkCandidate "base" ".card" 0 0) [mkCandidate "ch1" ".product" 0 0]
           (mkEvalMetrics 10 (80 # 100) (60 # 100) 0)
           {[ "ch1" := mkEvalMetrics 10 (90 # 100) (62 # 100) 0 ]}
           (mkCandidate "ch1" ".product" 0 0)
           (mkEvalMetrics 10 (90 # 100) (62 # 100) 0)).
  - apply list_elem_of_singleton. reflexivity.
  - reflexivity.
  - vm_compute. discriminate.
  - reflexivity.
Defined.

End SelectorWizardProps.

(** ** src/eopt/archives.py *)

Module ArchivesFacts.
Import Archives.

(** The capped order holds the known providers of the input that were
    not seen, each once. *)
Lemma cap_dedup_elem (order : list string) (seen : gset string) (p : string) :
  p ∈ cap_dedup seen order <-> p ∈ order /\ in_FETCHERS p = true /\ p ∉ seen.
Proof.
  revert seen. induction order as [|q order IH]; intros seen; simpl.
  - rewrite elem_of_nil. tauto.
  - destruct (in_FETCHERS q) eqn:Hq; simpl.
    + case_bool_decide as Hs.
      * rewrite !elem_of_cons, IH. split.
        -- intros [->|(Hin & Hk & Hn)]; [tauto|].
           repeat split; [tauto|done|set_solver].
        -- intros ([->|Hin] & Hk & Hn); [tauto|].
           destruct (decide (p = q)) as [->|Hne]; [tauto|].
           right. repeat split; [done|done|set_solver].
      * rewrite elem_of_cons, IH. split; [tauto|].
        intros ([->|Hin] & Hk & Hn); [|tauto]. contradiction.
    + rewrite elem_of_cons, IH. split; [tauto|].
      intros ([->|Hin] & Hk & Hn); [congruence|tauto].
Qed.

Lemma cap_dedup_NoDup (order : list string) (seen : gset string) :
  NoDup (cap_dedup seen order).
Proof.
  revert seen. induction order as [|q order IH]; intros seen; simpl.
  - constructor.
  - destruct (in_FETCHERS q && bool_decide (q ∉ seen)); [|apply IH].
    apply NoDup_cons. split; [|apply IH].
    rewrite cap_dedup_elem. set_solver.
Qed.



Section LadderFacts.

Variable adapter : string -> string -> Z -> ArchiveResult.
Variables (target : string) (timeout : Z).

Let run := ladder adapter target timeout.
Let answer := fun name : string => adapter name target timeout.

(** The loop only appends to the attempts and to the trace. *)
Lemma ladder_acc (names : list string) (attempts : list ArchiveResult)
    (trace : list event) :
  run names attempts trace =
  ((run names [] []).1.1, attempts ++ (run names [] []).1.2,
   trace ++ (run names [] []).2).
Proof.
  unfold run. revert attempts trace. induction names as [|name names IH];
    intros attempts trace; simpl.
  - by rewrite !app_nil_r.
  - destruct (usable (adapter name target timeout)); simpl; [done|].
    rewrite (IH (attempts ++ _) ((trace ++ _) ++ _)).
    rewrite (IH [_] [_; _]). simpl.
    by rewrite <- !app_assoc.
Qed.

Lemma ladder_cons (name : string) (names : list string) :
  run (name :: names) [] [] =
  if usable (answer name)
  then (Some (answer name), [answer name], [Call name target timeout])
  else ((run names [] []).1.1, answer name :: (run names [] []).1.2,
        Call name target timeout :: Sleep (15 # 100) :: (run names [] []).2).
Proof.
  unfold run, answer. simpl. destruct (usable (adapter name target timeout)); [done|].
  fold run. by rewrite ladder_acc.
Qed.

(** The providers called are the first [n] names for some [n], one
    attempt each; without a best result all the names were called. *)
Lemma ladder_spec (names : list string) :
  exists n : nat,
    (n <= length names)%nat /\
    called (run names [] []).2 = take n names /\
    (run names [] []).1.2 = answer <$> take n names /\
    ((run names [] []).1.1 = None -> n = length names).
Proof.
  induction names as [|name names (n & Hn & Hc & Ha & Hnone)].
  - exists 0%nat. by simpl.
  - rewrite ladder_cons. destruct (usable (answer name)).
    + exists 1%nat. simpl. repeat split; [lia|done].
    + exists (S n). simpl. rewrite Hc, Ha. repeat split; [lia|].
      intros Hb. by rewrite Hnone.
Qed.

End LadderFacts.

(** No call of [try_archives_for] attempts more than [max(1, limit)]
    providers, and the providers called are the leading ones of the
    effective order. *)
Lemma try_archives_for_called (adapter : string -> string -> Z -> ArchiveResult)
    (fs : Files) (code target : string) (priority : option (list string))
    (timeout_ms : option Z) (prefer_archive : option bool) (limit : Z) :
  let out := try_archives_for adapter fs code target priority timeout_ms
                              prefer_archive limit in
  exists n : nat,
    (n <= Z.to_nat (Z.max 1 limit))%nat /\
    called out.2 = take n (effective_order fs code priority) /\
    length out.1.2 = length (called out.2) /\
    (out.1.1 = None ->
     called out.2 = take (Z.to_nat (Z.max 1 limit)) (effective_order fs code priority)).
Proof.
  cbv zeta. unfold try_archives_for.
  set (names := take _ (effective_order fs code priority)).
  destruct (ladder_spec adapter target (effective_timeout fs timeout_ms) names)
    as (n & Hn & Hc & Ha & Hnone).
  exists n. rewrite Hc, Ha, length_fmap.
  assert (Hlen : (n <= Z.to_nat (Z.max 1 limit))%nat).
  { subst names. rewrite length_take in Hn. lia. }
  repeat split; [done| |].
  - subst names. rewrite take_take. f_equal. lia.
  - intros Hb. rewrite (Hnone Hb). by rewrite firstn_all.
Qed.

End ArchivesFacts.

Module ArchivesProps.
Import Archives ArchivesFacts.



(** C3 (as amended).  For an effective order [P1, P2, P3] and a limit of
    at least two, when the adapter of [P1] returns a result that is not
    ok and the adapter of [P2] returns an ok result whose HTML is not
    blank (not empty once stripped of white space), [try_archives_for]
    returns the result of [P2] with exactly the attempts of [P1] and
    [P2], and the adapter of [P3] is not called. *)
Theorem ladder_stops_at_first_usable
    (adapter : string -> string -> Z -> ArchiveResult)
    (fs : Files) (code target : string) (priority : option (list string))
    (timeout_ms : option Z) (prefer_archive : option bool) (limit : Z)
    (P1 P2 P3 : string) :
  effective_order fs code priority = [P1; P2; P3] -> 2 <= limit ->
  let t := effective_timeout fs timeout_ms in
  let r1 := adapter P1 target t in
  let r2 := adapter P2 target t in
  let out := try_archives_for adapter fs code target priority timeout_ms
                              prefer_archive limit in
  ok r1 = false -> ok r2 = true ->
  (exists h, html r2 = Some h /\ Py.strip h <> "") ->
  out = (Some r2, [r1; r2], [Call P1 target t; Sleep (15 # 100); Call P2 target t]) /\
  P3 ∉ called out.2.
Proof.
  intros Horder Hlimit t r1 r2 out Hr1 Hr2 (h & Hh & Hstrip).
  assert (Hnd : NoDup [P1; P2; P3]).
  { rewrite <- Horder. apply cap_dedup_NoDup. }
  assert (Hout : out = (Some r2, [r1; r2],
                        [Call P1 target t; Sleep (15 # 100); Call P2 target t])).
  { subst out. unfold try_archives_for. rewrite Horder. fold t.
    destruct (Z.to_nat (Z.max 1 limit)) as [|[|n]] eqn:Hn; [lia|lia|].
    simpl. fold r1 r2. unfold usable. rewrite Hr1, Hr2, Hh. simpl.
    apply PyFacts.truthy_true in Hstrip. by rewrite Hstrip. }
  split; [done|]. rewrite Hout. simpl.
  apply NoDup_cons in Hnd as [H1 Hnd]. apply NoDup_cons in Hnd as [H2 _].
  rewrite !elem_of_cons, elem_of_nil in *. intros [->|[->|[]]]; tauto.
Qed.

(** The statement at the ladder wayback, ghost, memento, with wayback
    finding no snapshot and ghost returning a page. *)
Lemma ladder_stops_at_first_usable_witness :
  let adapter := fun (name _ : string) (_ : Z) =>
    if decide (name = "wayback") then _result name "api" 404 None "no_snapshot"
    else _result name "snap" 200 (Some "<html></html>") "ok" in
  let out := try_archives_for adapter (mkFiles None NoFile) "ah_nl" "https://www.ah.nl"
               (Some ["wayback"; "ghost"; "memento"]) None None 6 in
  out = (Some (adapter "ghost" "https://www.ah.nl" 5000),
         [adapter "wayback" "https://www.ah.nl" 5000;
          adapter "ghost" "https://www.ah.nl" 5000],
         [Call "wayback" "https://www.ah.nl" 5000; Sleep (15 # 100);
          Call "ghost" "https://www.ah.nl" 5000]) /\
  "memento" ∉ called out.2.
Proof.
  cbv zeta.
  refine (ladder_stops_at_first_usable
           (fun (name _ : string) (_ : Z) =>
              if decide (name = "wayback") then _result name "api" 404 None "no_snapshot"
              else _result name "snap" 200 (Some "<html></html>") "ok")
           (mkFiles None NoFile) "ah_nl" "https://www.ah.nl"
           (Some ["wayback"; "ghost"; "memento"]) None None 6
           "wayback" "ghost" "memento" _ _ _ _ _).
  - vm_compute. reflexivity.
  - lia.
  - reflexivity.
  - reflexivity.
  - exists "<html></html>". split; [reflexivity|]. vm_compute. discriminate.
Defined.

(** C3 as stated fails: with an ok result whose HTML is one space the
    ladder goes on to the third provider; and with a limit of one the
    second provider is never attempted. *)
Lemma ladder_blank_html_counterexample :
  let adapter := fun (name _ : string) (_ : Z) =>
    if decide (name = "wayback") then _result name "api" 404 None "no_snapshot"
    else if decide (name = "ghost") then _result name "snap" 200 (Some " ") "ok"
    else _result name "snap" 200 (Some "html") "ok" in
  let fs := mkFiles None NoFile in
  let priority := Some ["wayback"; "ghost"; "memento"] in
  let r1 := adapter "wayback" "https://www.ah.nl" 5000 in
  let r2 := adapter "ghost" "https://www.ah.nl" 5000 in
  let r3 := adapter "memento" "https://www.ah.nl" 5000 in
  let out := try_archives_for adapter fs "ah_nl" "https://www.ah.nl" priority
                              None None 6 in
  let out1 := try_archives_for (fun name _ _ => if decide (name = "wayback") then r1 else r3)
                               fs "ah_nl" "https://www.ah.nl" priority None None 1 in
  (effective_order fs "ah_nl" priority = ["wayback"; "ghost"; "memento"] /\
   ok r1 = false /\ ok r2 = true /\ html r2 = Some " " /\ " " <> "") /\
  out.1.1 = Some r3 /\ out.1.2 = [r1; r2; r3] /\ "memento" ∈ called out.2 /\
  ~ (out.1.1 = Some r2 /\ out.1.2 = [r1; r2] /\ "memento" ∉ called out.2) /\
  out1.1.1 = None /\ out1.1.2 = [r1].
Proof.
  cbv zeta. repeat split; try (vm_compute; reflexivity); try (vm_compute; discriminate).
  - vm_compute. apply list_elem_of_In. simpl. tauto.
  - intros (H & _). vm_compute in H. discriminate.
Qed.

(** C10. [try_archives_for] attempts at most [max(1, limit)] providers;
    with the default limit of six and the default priority list of seven
    providers, [perma], the last of the list, is never attempted, and when
    no provider gives a usable page the six providers before it are the
    ones attempted. *)
Theorem default_limit_never_reaches_perma
    (adapter : string -> string -> Z -> ArchiveResult)
    (fs : Files) (code target : string) (priority : option (list string))
    (timeout_ms : option Z) (prefer_archive : option bool) :
  requested_order fs code priority = DEFAULT_PRIORITY ->
  let out := fun limit : Z =>
    try_archives_for adapter fs code target priority timeout_ms prefer_archive limit in
  (forall limit : Z,
     (length (out limit).1.2 <= Z.to_nat (Z.max 1 limit))%nat /\
     (length (called (out limit).2) <= Z.to_nat (Z.max 1 limit))%nat) /\
  ("perma" ∉ called (out 6).2) /\
  ((out 6).1.1 = None ->
   called (out 6).2 = ["wayback"; "ghost"; "memento"; "arquivo"; "ukwa"; "archivetoday"]).
Proof.
  intros Hreq out.
  assert (Horder : effective_order fs code priority = DEFAULT_PRIORITY).
  { unfold effective_order. rewrite Hreq. vm_compute. reflexivity. }
  split; [|split].
  - intros limit.
    destruct (try_archives_for_called adapter fs code target priority timeout_ms
                prefer_archive limit) as (n & Hn & Hc & Hl & _).
    fold (out limit) in Hc, Hl. rewrite Hl, Hc, length_take. lia.
  - destruct (try_archives_for_called adapter fs code target priority timeout_ms
                prefer_archive 6) as (n & Hn & Hc & _).
    fold (out 6) in Hc. rewrite Hc, Horder.
    change (Z.to_nat (Z.max 1 6)) with 6%nat in Hn.
    intros Hin. apply elem_of_take in Hin as (i & Hi & Hlt).
    do 6 (destruct i as [|i]; [simpl in Hi; by injection Hi|]). lia.
  - intros Hnone.
    destruct (try_archives_for_called adapter fs code target priority timeout_ms
                prefer_archive 6) as (n & _ & _ & _ & Hall).
    fold (out 6) in Hall. rewrite (Hall Hnone), Horder. reflexivity.
Qed.

(** The statement when no file overrides the order and every provider
    fails. *)
Lemma default_limit_never_reaches_perma_witness :
  let out := try_archives_for (fun name _ _ => _result name "" 599 None "fetch_error")
               (mkFiles None NoFile) "ah_nl" "https://www.ah.nl" None None None 6 in
  ("perma" ∉ called out.2) /\ length out.1.2 = 6%nat.
Proof.
  cbv zeta. split; [|vm_compute; reflexivity].
  apply (default_limit_never_reaches_perma
           (fun name _ _ => _result name "" 599 None "fetch_error")
           (mkFiles None NoFile) "ah_nl" "https://www.ah.nl" None None None).
  vm_compute. reflexivity.
Defined.

End ArchivesProps.

(** ** src/eopt/net_gateway.py *)

Module NetGatewayProps.
Import NetGateway.



End NetGatewayProps.

(** ** urllib.parse *)

Module UrlParseFacts.
Import UrlParse.

#[local] Set Warnings "-inconsistent-scopes".

Local Abbreviation no_unsafe s := (all_chars (fun c => negb (is_unsafe c)) s = true).
Local Abbreviation no_delim s := (all_chars (fun c => negb (is_delim c)) s = true).
Local Abbreviation head_kept s := (Py.lstrip_with is_c0_or_space s = s).

Lemma append_nil (t : string) : "" +:+ t = t.
Proof. reflexivity. Qed.

Lemma append_cons (a : ascii) (s t : string) : String a s +:+ t = String a (s +:+ t).
Proof. reflexivity. Qed.

Lemma append_nil_r (s : string) : s +:+ "" = s.
Proof. induction s as [|a s IH]; [done|]. by rewrite append_cons, IH. Qed.

Lemma append_assoc (a b c : string) : (a +:+ b) +:+ c = a +:+ (b +:+ c).
Proof. induction a as [|x a IH]; [done|]. by rewrite !append_cons, IH. Qed.

Lemma all_chars_app (q : ascii -> bool) (a b : string) :
  all_chars q (a +:+ b) = all_chars q a && all_chars q b.
Proof.
  induction a as [|x a IH]; [done|].
  rewrite append_cons. simpl. by rewrite IH, andb_assoc.
Qed.

Lemma all_chars_impl (q r : ascii -> bool) (s : string) :
  (forall c, q c = true -> r c = true) -> all_chars q s = true -> all_chars r s = true.
Proof.
  intros Hqr. induction s as [|x s IH]; [done|]. simpl.
  rewrite !andb_true_iff. intros [Hx Hs]. split; [by apply Hqr|by apply IH].
Qed.

Lemma all_chars_lower (q : ascii -> bool) (s : string) :
  (forall c, q (Py.ascii_lower c) = q c) ->
  all_chars q (Py.lower s) = all_chars q s.
Proof.
  intros Hq. induction s as [|x s IH]; [done|]. simpl. by rewrite Hq, IH.
Qed.

Lemma contains_lower (c : ascii) (s : string) :
  (forall a, Py.ascii_lower a = c <-> a = c) ->
  Py.contains c (Py.lower s) = Py.contains c s.
Proof.
  intros Hc. induction s as [|x s IH]; [done|]. simpl.
  destruct (decide (Py.ascii_lower x = c)) as [He|He];
    destruct (decide (x = c)) as [Hx|Hx]; try done.
  - exfalso. apply Hx. by apply Hc.
  - exfalso. apply He. by apply Hc.
Qed.

Lemma contains_all_chars (q : ascii -> bool) (c : ascii) (s : string) :
  q c = false -> all_chars q s = true -> Py.contains c s = false.
Proof.
  intros Hc. induction s as [|x s IH]; [done|]. simpl.
  rewrite andb_true_iff. intros [Hx Hs].
  destruct (decide (x = c)) as [->|_]; [congruence|by apply IH].
Qed.

(** Cleaning. *)

Lemma remove_unsafe_clean (s : string) : no_unsafe (remove_unsafe s).
Proof.
  induction s as [|x s IH]; [done|]. simpl.
  destruct (is_unsafe x) eqn:Hx; [done|]. simpl. by rewrite Hx.
Qed.

Lemma remove_unsafe_id (s : string) : no_unsafe s -> remove_unsafe s = s.
Proof.
  induction s as [|x s IH]; [done|]. simpl. rewrite andb_true_iff.
  intros [Hx Hs]. apply negb_true_iff in Hx. by rewrite Hx, IH.
Qed.

Lemma unsafe_is_c0 (c : ascii) : is_unsafe c = true -> is_c0_or_space c = true.
Proof. destruct c as [[] [] [] [] [] [] [] []]; by vm_compute. Qed.

Lemma lstrip_head_kept (s : string) : head_kept (Py.lstrip_with is_c0_or_space s).
Proof.
  induction s as [|x s IH]; [done|]. simpl.
  destruct (is_c0_or_space x) eqn:Hx; [done|]. simpl. by rewrite Hx.
Qed.

Lemma head_kept_cons (a : ascii) (s : string) :
  is_c0_or_space a = false -> head_kept (String a s).
Proof. intros Ha. simpl. by rewrite Ha. Qed.

Lemma remove_unsafe_head_kept (s : string) :
  head_kept s -> head_kept (remove_unsafe s).
Proof.
  destruct s as [|x s]; [done|]. simpl.
  destruct (is_c0_or_space x) eqn:Hx.
  - intros Heq. exfalso.
    assert (String.length (Py.lstrip_with is_c0_or_space s) <= String.length s)%nat as Hle.
    { clear. induction s as [|y s IH]; simpl; [lia|]. destruct (is_c0_or_space y); simpl; lia. }
    rewrite Heq in Hle. simpl in Hle. lia.
  - intros _. destruct (is_unsafe x) eqn:Hu.
    + apply unsafe_is_c0 in Hu. congruence.
    + simpl. by rewrite Hx.
Qed.

(** Cutting at a character. *)

Lemma cut_spec (c : ascii) (s a b : string) :
  cut c s = Some (a, b) -> s = a +:+ String c b /\ Py.contains c a = false.
Proof.
  revert a b. induction s as [|x s IH]; intros a b; simpl; [done|].
  destruct (decide (x = c)) as [->|Hx].
  - by intros [= <- <-].
  - destruct (cut c s) as [[a' b']|]; [|done]. intros [= <- <-].
    destruct (IH a' b' eq_refl) as [-> Hc]. split; [done|].
    simpl. by rewrite decide_False.
Qed.

Lemma cut_none (c : ascii) (s : string) :
  cut c s = None <-> Py.contains c s = false.
Proof.
  induction s as [|x s IH]; simpl; [done|].
  destruct (decide (x = c)); [done|].
  destruct (cut c s) as [[a b]|]; [|tauto].
  split; [done|]. intros Hc. by apply IH in Hc.
Qed.

Lemma cut_app (c : ascii) (a b : string) :
  Py.contains c a = false -> cut c (a +:+ String c b) = Some (a, b).
Proof.
  induction a as [|x a IH]; intros Ha.
  - change (cut c (String c b) = Some (EmptyString, b)). simpl. by rewrite decide_True.
  - simpl in Ha. destruct (decide (x = c)); [done|].
    rewrite append_cons. simpl. rewrite decide_False by done. by rewrite IH.
Qed.

Lemma contains_app (c : ascii) (a b : string) :
  Py.contains c (a +:+ b) = Py.contains c a || Py.contains c b.
Proof.
  induction a as [|x a IH]; [done|]. rewrite append_cons. simpl.
  by destruct (decide (x = c)).
Qed.

(** Cutting a prefix obtained by cutting at another character. *)
Lemma cut_of_prefix (c d : ascii) (s a b pre r : string) :
  c <> d -> cut c s = Some (a, b) -> cut d a = Some (pre, r) ->
  cut d s = Some (pre, r +:+ String c b).
Proof.
  intros Hcd Hs Ha. apply cut_spec in Hs as [-> _].
  apply cut_spec in Ha as [-> Hpre].
  rewrite append_assoc, append_cons. by apply cut_app.
Qed.

(** Spans. *)

Lemma span_until_spec (q : ascii -> bool) (s a b : string) :
  span_until q s = (a, b) ->
  s = a +:+ b /\ all_chars (fun c => negb (q c)) a = true /\
  match b with EmptyString => True | String c _ => q c = true end.
Proof.
  revert a b. induction s as [|x s IH]; intros a b; simpl.
  - by intros [= <- <-].
  - destruct (q x) eqn:Hx.
    + intros [= <- <-]. by rewrite Hx.
    + destruct (span_until q s) as [a' b']. intros [= <- <-].
      destruct (IH a' b' eq_refl) as (-> & Ha & Hb).
      simpl. by rewrite Hx, Ha.
Qed.

Lemma span_until_app (q : ascii -> bool) (a b : string) :
  all_chars (fun c => negb (q c)) a = true ->
  match b with EmptyString => True | String c _ => q c = true end ->
  span_until q (a +:+ b) = (a, b).
Proof.
  intros Ha Hb. induction a as [|x a IH].
  - rewrite append_nil. destruct b as [|c b]; [done|]. simpl. by rewrite Hb.
  - simpl in Ha. apply andb_true_iff in Ha as [Hx Ha].
    apply negb_true_iff in Hx. rewrite append_cons. simpl.
    by rewrite Hx, (IH Ha).
Qed.

(** Schemes. *)

Lemma scheme_char_lower (c : ascii) :
  is_scheme_char (Py.ascii_lower c) = is_scheme_char c.
Proof. destruct c as [[] [] [] [] [] [] [] []]; by vm_compute. Qed.

Lemma isalpha_lower (c : ascii) : isalpha (Py.ascii_lower c) = isalpha c.
Proof. destruct c as [[] [] [] [] [] [] [] []]; by vm_compute. Qed.

Lemma scheme_char_safe (c : ascii) :
  is_scheme_char c = true -> negb (is_unsafe c) = true.
Proof. destruct c as [[] [] [] [] [] [] [] []]; by vm_compute. Qed.

Lemma alpha_not_c0 (c : ascii) : isalpha c = true -> is_c0_or_space c = false.
Proof. destruct c as [[] [] [] [] [] [] [] []]; by vm_compute. Qed.

Lemma unsafe_lower (c : ascii) : negb (is_unsafe (Py.ascii_lower c)) = negb (is_unsafe c).
Proof. destruct c as [[] [] [] [] [] [] [] []]; by vm_compute. Qed.

Lemma delim_lower (c : ascii) : negb (is_delim (Py.ascii_lower c)) = negb (is_delim c).
Proof. destruct c as [[] [] [] [] [] [] [] []]; by vm_compute. Qed.

Lemma lower_is_char (c a : ascii) :
  c = "["%char \/ c = "]"%char -> Py.ascii_lower a = c <-> a = c.
Proof.
  intros [->| ->]; destruct a as [[] [] [] [] [] [] [] []]; by vm_compute.
Qed.

(** What a detected scheme looks like: it is not empty, it starts with
    a letter, it has no unsafe character, and it is found again in front
    of any text that follows it and a colon. *)
Lemma split_scheme_inv (url s r : string) :
  split_scheme url = Some (s, r) ->
  Py.truthy s = true /\
  no_unsafe s /\
  (exists a t, s = String a t /\ is_c0_or_space a = false) /\
  (forall x, split_scheme (s +:+ String ":" x) = Some (s, x)) /\
  exists pre, url = pre +:+ String ":" r.
Proof.
  unfold split_scheme. destruct (cut ":" url) as [[[|a pre] rest]|] eqn:Hcut; try done.
  destruct (isalpha a) eqn:Ha; [|done].
  destruct (all_chars is_scheme_char (String a pre)) eqn:Hall; [|done].
  simpl. intros [= <- <-].
  assert (Hall' : all_chars is_scheme_char (Py.lower (String a pre)) = true).
  { rewrite all_chars_lower; [done|apply scheme_char_lower]. }
  repeat split.
  - eapply all_chars_impl; [|exact Hall']. apply scheme_char_safe.
  - exists (Py.ascii_lower a), (Py.lower pre). split; [done|].
    apply alpha_not_c0. by rewrite isalpha_lower.
  - intros x. rewrite cut_app.
    2: { eapply contains_all_chars; [|exact Hall']. by vm_compute. }
    rewrite isalpha_lower, Ha. simpl in Hall'. rewrite Hall'. simpl.
    by rewrite PyFacts.ascii_lower_idem, PyFacts.lower_idem.
  - exists (String a pre). by apply cut_spec in Hcut as [-> _].
Qed.

Lemma split_scheme_slash (x : string) : split_scheme (String "/" x) = None.
Proof.
  unfold split_scheme. simpl. by destruct (cut ":" x) as [[? ?]|].
Qed.

Lemma split_scheme_nil : split_scheme "" = None.
Proof. reflexivity. Qed.

(** A text without scheme has no scheme either when cut at its first
    [#] or [?]. *)
Lemma split_scheme_prefix (c : ascii) (url a b : string) :
  c <> ":"%char -> split_scheme url = None -> cut c url = Some (a, b) ->
  split_scheme a = None.
Proof.
  intros Hc Hnone Hcut. unfold split_scheme in *.
  destruct (cut ":" a) as [[pre r]|] eqn:Ha; [|done].
  rewrite (cut_of_prefix c ":" url a b pre r Hc Hcut Ha) in Hnone.
  destruct pre as [|x pre]; [done|].
  by destruct (isalpha x && all_chars is_scheme_char (String x pre)).
Qed.

Lemma head_kept_prefix (c : ascii) (url a b : string) :
  head_kept url -> cut c url = Some (a, b) -> head_kept a.
Proof.
  intros Hurl Hcut. apply cut_spec in Hcut as [-> _].
  destruct a as [|x a]; [done|]. rewrite append_cons in Hurl. simpl in *.
  destruct (is_c0_or_space x) eqn:Hx; [|done]. exfalso.
  assert (forall t, String.length (Py.lstrip_with is_c0_or_space t) <= String.length t)%nat as Hle.
  { clear. induction t as [|y t IH]; simpl; [lia|]. destruct (is_c0_or_space y); simpl; lia. }
  specialize (Hle (a +:+ String c b)). rewrite Hurl in Hle. simpl in Hle. lia.
Qed.

(** The text before the first occurrence of a character. *)

Lemma before_spec (c : ascii) (s : string) :
  Py.contains c (before c s) = false /\ exists t, s = before c s +:+ t.
Proof.
  unfold before. destruct (cut c s) as [[a b]|] eqn:Hcut.
  - apply cut_spec in Hcut as [-> Ha]. split; [done|]. by eexists.
  - apply cut_none in Hcut. split; [done|]. exists "". by rewrite append_nil_r.
Qed.

Lemma before_id (c : ascii) (s : string) : Py.contains c s = false -> before c s = s.
Proof. intros Hc. apply cut_none in Hc. unfold before. by rewrite Hc. Qed.

Lemma before_all (q : ascii -> bool) (c : ascii) (s : string) :
  all_chars q s = true -> all_chars q (before c s) = true.
Proof.
  destruct (before_spec c s) as [_ [t Ht]]. rewrite Ht at 1.
  rewrite all_chars_app, andb_true_iff. tauto.
Qed.

Lemma before_contains (c d : ascii) (s : string) :
  Py.contains d s = false -> Py.contains d (before c s) = false.
Proof.
  destruct (before_spec c s) as [_ [t Ht]]. rewrite Ht at 1.
  rewrite contains_app, orb_false_iff. tauto.
Qed.

Lemma before_head_kept (c : ascii) (s : string) :
  head_kept s -> head_kept (before c s).
Proof.
  intros Hs. unfold before. destruct (cut c s) as [[a b]|] eqn:Hcut; [|done].
  by eapply head_kept_prefix.
Qed.

Lemma before_no_scheme (c : ascii) (s : string) :
  c <> ":"%char -> split_scheme s = None -> split_scheme (before c s) = None.
Proof.
  intros Hc Hs. unfold before. destruct (cut c s) as [[a b]|] eqn:Hcut; [|done].
  by eapply split_scheme_prefix.
Qed.

(** After a network location the path is empty or starts with a slash. *)
Lemma path_after_netloc (x : string) :
  match x with EmptyString => True | String c _ => is_delim c = true end ->
  let p := before "?" (before "#" x) in
  p = "" \/ Py.startswith p "/" = true.
Proof.
  destruct x as [|h t]; [by left|]. intros Hh. cbv zeta.
  unfold is_delim in Hh. rewrite !orb_true_iff, !bool_decide_eq_true in Hh.
  destruct Hh as [[->| ->]| ->].
  - right. unfold before. simpl.
    destruct (cut "#" t) as [[a b]|]; simpl.
    + by destruct (cut "?" a) as [[? ?]|].
    + by destruct (cut "?" t) as [[? ?]|].
  - left. unfold before. simpl. by destruct (cut "#" t) as [[a b]|].
  - by left.
Qed.

Lemma startswith_spec (s pre : string) :
  Py.startswith s pre = true <-> exists t, s = pre +:+ t.
Proof.
  revert s. induction pre as [|a pre IH]; intros s.
  - destruct s; simpl; split; try done; intros _; by eexists.
  - destruct s as [|b s]; simpl.
    + split; [done|]. intros [t Ht]. by rewrite append_cons in Ht.
    + destruct (decide (a = b)) as [->|Hne].
      * rewrite IH. split; intros [t Ht]; exists t.
        -- by rewrite append_cons, Ht.
        -- rewrite append_cons in Ht. by injection Ht.
      * split; [done|]. intros [t Ht]. rewrite append_cons in Ht. by injection Ht.
Qed.

Section Reparse.

Variable check : string -> bool.

(** The text put before the rest of a URL for a scheme. *)
Local Abbreviation lead s :=
  (if Py.truthy s then String.append s ":" else EmptyString).

Local Abbreviation scheme_ok s :=
  (s = EmptyString \/
   (Py.truthy s = true /\ no_unsafe s /\
    (exists a t, s = String a t /\ is_c0_or_space a = false) /\
    (forall x, split_scheme (String.append s (String ":" x)) = Some (s, x)))).

Local Abbreviation brackets_ok n :=
  (xorb (Py.contains "[" n) (Py.contains "]" n) = false /\
   (Py.contains "[" n = true -> check n = true)).

(** Cleaning leaves a text alone when it has no unsafe character and
    does not start with a control character or a space. *)
Lemma clean_id (v : string) :
  head_kept v -> no_unsafe v ->
  remove_unsafe (Py.lstrip_with is_c0_or_space v) = v.
Proof. intros Hh Hu. rewrite Hh. by apply remove_unsafe_id. Qed.

(** Parsing an assembled URL that has the two slashes of a network
    location gives back the parts it was assembled from. *)
Lemma urlsplit_with_netloc (s n p : string) :
  scheme_ok s -> no_unsafe n -> no_delim n -> brackets_ok n ->
  no_unsafe p -> Py.contains "#" p = false -> Py.contains "?" p = false ->
  (p = "" \/ Py.startswith p "/" = true) ->
  urlsplit check (lead s +:+ "//" +:+ n +:+ p) = Some (mkSplit s n p "" "").
Proof.
  intros Hs Hnu Hnd [Hxor Hchk] Hpu Hpf Hpq Hp.
  assert (Hspan : span_until is_delim (n +:+ p) = (n, p)).
  { apply span_until_app; [done|]. destruct Hp as [->|Hp]; [done|].
    apply startswith_spec in Hp as [t ->]. by vm_compute. }
  assert (Hrest : no_unsafe ("//" +:+ n +:+ p)).
  { rewrite !all_chars_app, Hnu, Hpu. by vm_compute. }
  unfold urlsplit.
  destruct Hs as [->|(Hst & Hsu & (a & t & -> & Ha) & Hsplit)].
  - simpl Py.truthy. cbv iota. rewrite append_nil.
    rewrite clean_id; [|done|done].
    change ("//" +:+ n +:+ p) with (String "/" (String "/" (n +:+ p))).
    rewrite split_scheme_slash. simpl Py.startswith. cbv iota.
    unfold _splitnetloc. rewrite Hspan. rewrite Hxor.
    destruct (Py.contains "[" n) eqn:Hb; simpl.
    + rewrite (Hchk eq_refl). simpl. unfold before, after.
      apply cut_none in Hpf, Hpq. by rewrite Hpf, Hpq.
    + unfold before, after. apply cut_none in Hpf, Hpq. by rewrite Hpf, Hpq.
  - rewrite Hst. rewrite append_assoc.
    rewrite clean_id.
    2: { rewrite append_cons. by apply head_kept_cons. }
    2: { rewrite all_chars_app, Hsu.
         change (negb (is_unsafe ":")
                 && all_chars (fun c => negb (is_unsafe c)) ("//" +:+ n +:+ p) = true).
         by rewrite Hrest. }
    change (":" +:+ "//" +:+ n +:+ p) with (String ":" ("//" +:+ n +:+ p)).
    rewrite Hsplit.
    change ("//" +:+ n +:+ p) with (String "/" (String "/" (n +:+ p))).
    simpl Py.startswith. cbv iota.
    unfold _splitnetloc. rewrite Hspan. rewrite Hxor.
    destruct (Py.contains "[" n) eqn:Hb; simpl.
    + rewrite (Hchk eq_refl). simpl. unfold before, after.
      apply cut_none in Hpf, Hpq. by rewrite Hpf, Hpq.
    + unfold before, after. apply cut_none in Hpf, Hpq. by rewrite Hpf, Hpq.
Qed.

(** Parsing an assembled URL without network location. *)
Lemma urlsplit_without_netloc (s p : string) :
  scheme_ok s -> no_unsafe p ->
  Py.contains "#" p = false -> Py.contains "?" p = false ->
  Py.startswith p "//" = false ->
  (s = "" -> head_kept p /\ split_scheme p = None) ->
  urlsplit check (lead s +:+ p) = Some (mkSplit s "" p "" "").
Proof.
  intros Hs Hpu Hpf Hpq Hp2 Hbare. unfold urlsplit.
  apply cut_none in Hpf, Hpq.
  destruct Hs as [->|(Hst & Hsu & (a & t & -> & Ha) & Hsplit)].
  - destruct (Hbare eq_refl) as [Hh Hns].
    simpl Py.truthy. cbv iota. rewrite append_nil.
    rewrite clean_id; [|done|done]. rewrite Hns, Hp2. simpl.
    unfold before, after. by rewrite Hpf, Hpq.
  - rewrite Hst. rewrite append_assoc.
    change (":" +:+ p) with (String ":" p).
    rewrite clean_id.
    2: { rewrite append_cons. by apply head_kept_cons. }
    2: { rewrite all_chars_app, Hsu.
         change (negb (is_unsafe ":") && all_chars (fun c => negb (is_unsafe c)) p = true).
         by rewrite Hpu. }
    rewrite Hsplit, Hp2. simpl.
    unfold before, after. by rewrite Hpf, Hpq.
Qed.

Local Ltac split_inv :=
  split; [|split; [|split; [|split; [split|split; [|split; [|split; [|split]]]]]]].

(** What [urlsplit] returns. *)
Lemma urlsplit_inv (u : string) (sp : SplitResult) :
  urlsplit check u = Some sp ->
  scheme_ok (scheme sp) /\
  no_unsafe (netloc sp) /\ no_delim (netloc sp) /\ brackets_ok (netloc sp) /\
  no_unsafe (path sp) /\
  Py.contains "#" (path sp) = false /\ Py.contains "?" (path sp) = false /\
  (netloc sp <> "" -> path sp = "" \/ Py.startswith (path sp) "/" = true) /\
  (scheme sp = "" -> netloc sp = "" ->
   head_kept (path sp) /\ split_scheme (path sp) = None).
Proof.
  unfold urlsplit.
  set (url0 := remove_unsafe (Py.lstrip_with is_c0_or_space u)).
  assert (Hu0 : no_unsafe url0) by apply remove_unsafe_clean.
  assert (Hh0 : head_kept url0).
  { apply remove_unsafe_head_kept, lstrip_head_kept. }
  assert (Hpath : forall x, no_unsafe x ->
            no_unsafe (before "?" (before "#" x)) /\
            Py.contains "#" (before "?" (before "#" x)) = false /\
            Py.contains "?" (before "?" (before "#" x)) = false).
  { intros x Hx. repeat split.
    - by do 2 apply before_all.
    - apply before_contains. apply before_spec.
    - apply before_spec. }
  assert (Hbare : forall x, head_kept x -> split_scheme x = None ->
            head_kept (before "?" (before "#" x)) /\
            split_scheme (before "?" (before "#" x)) = None).
  { intros x Hh Hn. split.
    - by do 2 apply before_head_kept.
    - by do 2 (apply before_no_scheme; [done|]). }
  assert (Hchk_ok : forall n, Py.contains "[" n && negb (check n) = false ->
            Py.contains "[" n = true -> check n = true).
  { intros n Hchk Hb. rewrite Hb in Hchk. by apply negb_false_iff in Hchk. }
  destruct (split_scheme url0) as [[s url1]|] eqn:Hscheme.
  - (* a scheme was found *)
    destruct (split_scheme_inv _ _ _ Hscheme) as (Hst & Hsu & Hhead & Hagain & pre & Hpre).
    assert (Hu1 : no_unsafe url1).
    { rewrite Hpre, all_chars_app, andb_true_iff in Hu0. destruct Hu0 as [_ Hu0].
      by simpl in Hu0. }
    assert (Hs : scheme_ok s) by (right; done).
    assert (Hne : s <> "") by (intros ->; done).
    destruct (Py.startswith url1 "//") eqn:Hss.
    + apply startswith_spec in Hss as [rest ->].
      change (_splitnetloc ("//" +:+ rest)) with (span_until is_delim rest).
      destruct (span_until is_delim rest) as [n url2] eqn:Hspan.
      apply span_until_spec in Hspan as (-> & Hnd & Hhd).
      destruct (xorb (Py.contains "[" n) (Py.contains "]" n)) eqn:Hxor; [done|].
      destruct (Py.contains "[" n && negb (check n)) eqn:Hchk; [done|].
      simpl. intros [= <-]. simpl.
      assert (Hu2 : no_unsafe n /\ no_unsafe url2).
      { change ("//" +:+ n +:+ url2) with (String "/" (String "/" (n +:+ url2))) in Hu1.
        simpl in Hu1. rewrite all_chars_app, andb_true_iff in Hu1. tauto. }
      destruct (Hpath url2 (proj2 Hu2)) as (Hp1 & Hp2 & Hp3).
      pose proof (path_after_netloc url2 Hhd) as Hslash. cbv zeta in Hslash.
      split_inv; try tauto; try done.
      by apply Hchk_ok.
    + simpl. intros [= <-]. simpl.
      destruct (Hpath url1 Hu1) as (Hp1 & Hp2 & Hp3).
      split_inv; try tauto; try done.
  - (* no scheme *)
    destruct (Py.startswith url0 "//") eqn:Hss.
    + apply startswith_spec in Hss as [rest Hrest]. rewrite Hrest in *.
      change (_splitnetloc ("//" +:+ rest)) with (span_until is_delim rest).
      destruct (span_until is_delim rest) as [n url2] eqn:Hspan.
      apply span_until_spec in Hspan as (-> & Hnd & Hhd).
      destruct (xorb (Py.contains "[" n) (Py.contains "]" n)) eqn:Hxor; [done|].
      destruct (Py.contains "[" n && negb (check n)) eqn:Hchk; [done|].
      simpl. intros [= <-]. simpl.
      assert (Hu2 : no_unsafe n /\ no_unsafe url2).
      { change ("//" +:+ n +:+ url2) with (String "/" (String "/" (n +:+ url2))) in Hu0.
        simpl in Hu0. rewrite all_chars_app, andb_true_iff in Hu0. tauto. }
      destruct (Hpath url2 (proj2 Hu2)) as (Hp1 & Hp2 & Hp3).
      pose proof (path_after_netloc url2 Hhd) as Hslash. cbv zeta in Hslash.
      split_inv; try tauto; try done.
      * by apply Hchk_ok.
      * intros _ _. destruct Hslash as [->|Hslash]; [done|].
        apply startswith_spec in Hslash as [t ->]. split; [done|apply split_scheme_slash].
    + simpl. intros [= <-]. simpl.
      destruct (Hpath url0 Hu0) as (Hp1 & Hp2 & Hp3).
      destruct (Hbare url0 Hh0 Hscheme) as [Hb1 Hb2].
      split_inv; try tauto; try done.
Qed.

Lemma lead_app (s x : string) :
  (if Py.truthy s then s +:+ ":" +:+ x else x) = lead s +:+ x.
Proof. destruct (Py.truthy s); [by rewrite append_assoc|done]. Qed.

(** [urlunsplit] without query and fragment. *)
Lemma urlunsplit_plain (s n p : string) :
  urlunsplit s n p "" "" =
  lead s +:+
  (if Py.truthy n
      || (Py.truthy s && bool_decide (s ∈ uses_netloc) && negb (Py.startswith p "//"))
   then "//" +:+ n +:+
        (if Py.truthy p && negb (Py.startswith p "/") then "/" +:+ p else p)
   else p).
Proof. unfold urlunsplit. simpl Py.truthy. cbv iota. apply lead_app. Qed.

(** The library's check of a bracketed network location does not
    depend on the case of the letters. *)
Hypothesis check_lower : forall n, check n = true -> check (Py.lower n) = true.

(** Rebuilding a URL from its scheme, its lowered network location and
    its path gives a text that parses into parts which rebuild the same
    text, provided the URL has a network location or its path does not
    start with two slashes. *)
Lemma rebuild_stable (u : string) (sp : SplitResult) :
  urlsplit check u = Some sp ->
  netloc sp <> "" \/ Py.startswith (path sp) "//" = false ->
  let v := urlunsplit (scheme sp) (Py.lower (netloc sp)) (path sp) "" "" in
  exists sp',
    urlsplit check v = Some sp' /\
    urlunsplit (scheme sp') (Py.lower (netloc sp')) (path sp') "" "" = v.
Proof.
  intros Hsplit Hshape.
  destruct (urlsplit_inv u sp Hsplit)
    as (Hs & Hnu & Hnd & [Hxor Hchk] & Hpu & Hpf & Hpq & Hslash & Hbare).
  destruct sp as [s n p q f]. cbn [scheme netloc path query fragment] in *. cbv zeta.
  rewrite urlunsplit_plain.
  destruct n as [|c n].
  - (* no network location *)
    destruct Hshape as [Hshape|Hshape]; [done|].
    change (Py.lower "") with "". change (Py.truthy "") with false.
    rewrite Hshape, orb_false_l. change (negb false) with true. rewrite andb_true_r.
    destruct (Py.truthy s && bool_decide (s ∈ uses_netloc)) eqn:Huses.
    + apply andb_true_iff in Huses as [Hst Hin].
      remember (if Py.truthy p && negb (Py.startswith p "/") then "/" +:+ p else p)
        as p' eqn:Hdef.
      assert (Hp' : p' = "" \/ Py.startswith p' "/" = true).
      { subst p'. destruct p as [|x p]; [by left|]. right. simpl Py.truthy.
        destruct (Py.startswith (String x p) "/") eqn:Hx; [done|]. done. }
      assert (Hp2 : Py.startswith p' "//" = false).
      { subst p'. destruct p as [|x p]; [done|]. simpl Py.truthy.
        destruct (Py.startswith (String x p) "/") eqn:Hx; [done|]. simpl.
        simpl in Hx. by destruct (decide ("/"%char = x)). }
      assert (Hp'u : no_unsafe p' /\ Py.contains "#" p' = false /\ Py.contains "?" p' = false).
      { subst p'. destruct (Py.truthy p && negb (Py.startswith p "/")); [|done].
        change ("/" +:+ p) with (String "/" p). simpl. by rewrite Hpu, Hpf, Hpq. }
      clear Hdef.
      exists (mkSplit s "" p' "" "").
      split.
      * apply (urlsplit_with_netloc s "" p'); try done; tauto.
      * cbn [scheme netloc path]. rewrite urlunsplit_plain.
        change (Py.lower "") with "". change (Py.truthy "") with false.
        rewrite Hst, Hin, Hp2.
        change (false || true && true && negb false) with true. cbv iota.
        destruct Hp' as [->|Hp']; [done|].
        by rewrite Hp', andb_false_r.
    + exists (mkSplit s "" p "" "").
      split.
      * apply urlsplit_without_netloc; try done.
        intros ->. by apply Hbare.
      * cbn [scheme netloc path]. rewrite urlunsplit_plain.
        change (Py.lower "") with "". change (Py.truthy "") with false.
        rewrite Hshape, orb_false_l. change (negb false) with true.
        by rewrite andb_true_r, Huses.
  - (* a network location *)
    assert (Hp' : (if Py.truthy p && negb (Py.startswith p "/") then "/" +:+ p else p) = p).
    { destruct (Hslash ltac:(done)) as [->|Hp]; [done|]. by rewrite Hp, andb_false_r. }
    set (ln := Py.lower (String c n)).
    assert (Htr : Py.truthy ln = true) by done.
    rewrite Htr, orb_true_l, Hp'.
    exists (mkSplit s ln p "" "").
    split.
    + apply urlsplit_with_netloc; try done.
      * subst ln. rewrite all_chars_lower; [done|apply unsafe_lower].
      * subst ln. rewrite all_chars_lower; [done|apply delim_lower].
      * subst ln. rewrite !contains_lower by (intros a; apply lower_is_char; tauto).
        split; [done|]. intros Hb. by apply check_lower, Hchk.
      * by apply Hslash.
    + cbn [scheme netloc path]. rewrite urlunsplit_plain.
      assert (Hll : Py.lower ln = ln) by apply PyFacts.lower_idem.
      by rewrite Hll, Htr, orb_true_l, Hp'.
Qed.

End Reparse.

End UrlParseFacts.

(** ** finder/core/cdx.py *)

Module CdxFacts.
Import Cdx.

(** There are no more months than stamps. *)
Lemma months_seen_size (stamps : list string) (seen : gset string) :
  (size (months_seen seen stamps) <= size seen + length stamps)%nat.
Proof.
  revert seen. induction stamps as [|ts stamps IH]; intros seen;
    cbn [months_seen length]; [lia|].
  etrans; [apply IH|].
  destruct (8 <=? String.length ts)%nat; [|lia].
  pose proof (size_union_alt {[String.substring 0 4 ts +:+ "-" +:+ String.substring 4 2 ts]}
                seen) as Hsz.
  rewrite Hsz, size_singleton.
  pose proof (subseteq_size (seen ∖ {[String.substring 0 4 ts +:+ "-" +:+ String.substring 4 2 ts]})
                seen ltac:(set_solver)).
  lia.
Qed.

Lemma cdx_counts_months_le (reply : option (list (list string))) :
  ((cdx_counts reply).2 <= (cdx_counts reply).1)%nat.
Proof.
  unfold cdx_counts. destruct reply as [data|]; simpl; [|lia].
  destruct (length data <=? 1)%nat; simpl; [lia|].
  unfold _group_by_month.
  pose proof (months_seen_size (omap (fun row => row !! 1%nat) (drop 1 data)) ∅) as H.
  rewrite size_empty in H. lia.
Qed.

Section SamplerFacts.

Variable wayback_reply : string -> Z -> option (list (list string)).
Variable arquivo_reply : string -> Z -> option (list (list string)).
Variable start_year : Z.





End SamplerFacts.

End CdxFacts.

Module CdxProps.
Import Cdx CdxFacts.






End CdxProps.

(** ** URL cleaning *)

Module UrlCleaningProps.
Import UrlParse UrlParseFacts.

Lemma clean_target_idempotent (u : string) :
  Archives._clean_target (Archives._clean_target u) = Archives._clean_target u.
Proof.
  unfold Archives._clean_target.
  destruct (Py.startswith u "http://" || Py.startswith u "https://") eqn:Hu.
  - by rewrite Hu.
  - set (rest := Py.lstrip_with _ u).
    assert (Py.startswith ("https://" +:+ rest) "https://" = true) as Hs
      by (apply startswith_spec; by eexists).
    by rewrite Hs, orb_true_r.
Qed.

(** C9 (as amended).  [_clean_target] is idempotent on every string.
    [_strip_query_and_fragment] is idempotent on every URL that
    [urlsplit] accepts and that has a network location or a path not
    starting with two slashes. *)
Theorem url_cleaning_idempotent
    (check_bracketed_netloc : string -> bool) (u : string) (sp : SplitResult) :
  (forall n, check_bracketed_netloc n = true ->
             check_bracketed_netloc (Py.lower n) = true) ->
  urlsplit check_bracketed_netloc u = Some sp ->
  netloc sp <> "" \/ Py.startswith (path sp) "//" = false ->
  (forall w, Archives._clean_target (Archives._clean_target w)
             = Archives._clean_target w) /\
  exists v,
    Cdx._strip_query_and_fragment check_bracketed_netloc u = Some v /\
    Cdx._strip_query_and_fragment check_bracketed_netloc v = Some v.
Proof.
  intros Hcheck Hsplit Hshape. split; [apply clean_target_idempotent|].
  destruct (rebuild_stable check_bracketed_netloc Hcheck u sp Hsplit Hshape)
    as (sp' & Hsplit' & Hsame).
  unfold Cdx._strip_query_and_fragment. rewrite Hsplit. simpl.
  eexists. split; [reflexivity|]. rewrite Hsplit'. simpl. by rewrite Hsame.
Qed.

(** The statement at a URL with an upper-case host, a query and a
    fragment. *)
Lemma url_cleaning_idempotent_witness :
  Cdx._strip_query_and_fragment (fun _ => true) "HTTPS://Shop.Example/Oils?page=2#top"
    = Some "https://shop.example/Oils" /\
  Cdx._strip_query_and_fragment (fun _ => true) "https://shop.example/Oils"
    = Some "https://shop.example/Oils".
Proof.
  destruct (url_cleaning_idempotent (fun _ => true)
              "HTTPS://Shop.Example/Oils?page=2#top"
              (mkSplit "https" "Shop.Example" "/Oils" "page=2" "top")
              (fun _ _ => eq_refl) eq_refl (or_intror eq_refl))
    as [_ (v & Hv & Hvv)].
  assert (v = "https://shop.example/Oils") as -> by (vm_compute in Hv; congruence).
  by split.
Defined.

(** C9 as stated fails for [_strip_query_and_fragment]: with an empty
    network location and a path that starts with two slashes, the
    rebuilt text reads the start of the path as a network location, which
    the second application lowers. *)
Lemma strip_query_and_fragment_counterexample :
  Cdx._strip_query_and_fragment (fun _ => true) "////A" = Some "//A" /\
  Cdx._strip_query_and_fragment (fun _ => true) "//A" = Some "//a" /\
  Cdx._strip_query_and_fragment (fun _ => true) "http:////Host/x" = Some "http://Host/x" /\
  Cdx._strip_query_and_fragment (fun _ => true) "http://Host/x" = Some "http://host/x".
Proof. repeat split; vm_compute; reflexivity. Qed.

End UrlCleaningProps.

(** ** The embedding on concrete inputs *)

Module Examples.

Example lower_strip_example : Py.lower (Py.strip "  Olive OIL 1L ") = "olive oil 1l".
Proof. reflexivity. Qed.

Example split_example : Py.split "/" "/a//b/" = [""; "a"; ""; "b"; ""].
Proof. reflexivity. Qed.

Example urlsplit_example :
  UrlParse.urlsplit (fun _ => true) " HTTPS://Shop.Example/a/b?page=2#top"
  = Some (UrlParse.mkSplit "https" "Shop.Example" "/a/b" "page=2" "top").
Proof. reflexivity. Qed.

Example urlsplit_no_scheme_example :
  UrlParse.urlsplit (fun _ => true) "shop.example/a?x"
  = Some (UrlParse.mkSplit "" "" "shop.example/a" "x" "").
Proof. reflexivity. Qed.

Example urlsplit_bracket_example :
  UrlParse.urlsplit (fun _ => true) "http://[::1/a" = None.
Proof. reflexivity. Qed.

Example urlunsplit_example :
  UrlParse.urlunsplit "http" "" "example" "" "" = "http:///example".
Proof. reflexivity. Qed.

Example parent_urls_example :
  Cdx._parent_urls (fun _ => true) "https://Shop.Example/a/b/c/?page=2"
  = Some ["https://shop.example/a/b/c"; "https://shop.example/a/b";
          "https://shop.example/a"; "https://shop.example/"].
Proof. reflexivity. Qed.

Example group_by_month_example :
  Cdx._group_by_month ["20230115120000"; "20230120080000"; "20230302"; "2023"] = 2%nat.
Proof. vm_compute. reflexivity. Qed.

Example clean_target_example :
  Archives._clean_target "//shop.example/oils" = "https://shop.example/oils".
Proof. reflexivity. Qed.

Example parse_priority_example :
  Archives.parse_priority "Wayback, ghost ,,foo,ghost" = ["wayback"; "ghost"; "foo"; "ghost"].
Proof. reflexivity. Qed.

Example effective_order_example :
  Archives.effective_order (Archives.mkFiles None Archives.NoFile) "ah_nl"
    (Some ["Perma"; "nope"; "wayback"; "perma"])
  = ["perma"; "wayback"].
Proof. vm_compute. reflexivity. Qed.

(** Every provider fails: six attempts, six pauses, no best result. *)
Example ladder_all_fail_example :
  let out := Archives.try_archives_for
               (fun name _ _ => Archives._result name "" 599 None "fetch_error")
               (Archives.mkFiles None Archives.NoFile) "ah_nl" "https://www.ah.nl"
               None None None 6 in
  out.1.1 = None /\ length out.1.2 = 6%nat /\
  Archives.called out.2
  = ["wayback"; "ghost"; "memento"; "arquivo"; "ukwa"; "archivetoday"].
Proof. vm_compute. repeat split. Qed.

(** Ten new keys, then the same keys again, then five new ones. *)
Example pager_ten_zero_five_example :
  let first := ["k01"; "k02"; "k03"; "k04"; "k05"; "k06"; "k07"; "k08"; "k09"; "k10"] in
  let t1 := Paging.add_batch (Paging.init 1 1) first in
  let t2 := Paging.add_batch t1.1 first in
  let t3 := Paging.add_batch t2.1 ["n1"; "n2"; "n3"; "n4"; "n5"] in
  (t1.2, Paging.should_stop t1.1) = (true, false) /\
  (t2.2, Paging.should_stop t2.1) = (false, true) /\
  (t3.2, Paging.should_stop t3.1) = (true, false).
Proof. vm_compute. repeat split. Qed.

(** A page that shows a cookie wall and three cards is an empty render,
    not a cookie wall. *)
Example should_flip_example :
  Oilbot.should_flip_to_archive (<["why_flip" := Py.VStr "cookie_wall"]> ∅) 3 0
  = Some "too_few_cards".
Proof. reflexivity. Qed.

(** The robots file allows the fetch and the site answers 200: one
    reading of the robots file, one request, the page returned. *)
Example get_text_allowed_example :
  let policy := NetGateway.mkGatewayPolicy "EOPT/1.0" (7 # 10) 4 20 120 true in
  let monotonic := fun n : nat => inject_Z (Z.of_nat n) in
  let g := (NetGateway.init bool monotonic policy (NetGateway.mkWorld 0 [])).1 in
  let w := (NetGateway.init bool monotonic policy (NetGateway.mkWorld 0 [])).2 in
  match NetGateway.get_text (fun _ => true) bool (fun _ => true) (fun r _ _ => r)
          (fun a b => a +:+ b) monotonic (fun _ _ _ => NetGateway.Reply 200 "page")
          (fun q => q) 5 g w "https://shop.example/oils" None None with
  | NetGateway.Returns (content, meta, _, w') =>
      content = Some "page" /\ NetGateway.m_ok meta = true /\
      NetGateway.events w'
      = [NetGateway.RobotsRead "https://shop.example/robots.txt";
         NetGateway.ClientGet "https://shop.example/oils" None]
  | _ => False
  end.
Proof. vm_compute. repeat split. Qed.

(** The first qualifying round: the baseline is returned, nothing is
    active, the challenger has one win. *)
Example maybe_promote_first_round_example :
  let baseline := SelectorWizard.mkCandidate "base" ".card" 0 0 in
  let challenger := SelectorWizard.mkCandidate "ch1" ".product" 0 0 in
  match SelectorWizard.maybe_promote ∅ "ah_nl" baseline [challenger]
          (SelectorWizard.mkEvalMetrics 10 (80 # 100) (60 # 100) 0)
          {[ "ch1" := SelectorWizard.mkEvalMetrics 10 (90 # 100) (62 # 100) 0 ]} with
  | Some (st, ex, winner) =>
      winner = baseline /\ SelectorWizard.promoted ex = false /\
      SelectorWizard.active (SelectorWizard._load_policy st "ah_nl") = None /\
      (SelectorWizard.e_wins
         <$> SelectorWizard.candidates (SelectorWizard._load_policy st "ah_nl") !! "ch1")
      = Some 1
  | None => False
  end.
Proof. vm_compute. repeat split. Qed.

End Examples.

(* ===================================================================== *)
(** * Part III: further properties                                        *)
(* ===================================================================== *)

(** ** tools/phase1/paging.py: the tracker in general *)

Module PagingMore.
Import Paging PagingFacts.

(** The seen set after a batch is the old one with the non-empty keys
    of the batch added. *)
Lemma add_keys_union (keys : list string) (s : gset string) :
  add_keys s keys = s ∪ (list_to_set (List.filter Py.truthy keys) ∖ s).
Proof.
  apply set_eq. intros k.
  assert (Hf : k ∈ List.filter Py.truthy keys <-> k ∈ keys /\ k <> "").
  { rewrite !list_elem_of_In, filter_In, PyFacts.truthy_true. tauto. }
  rewrite add_keys_spec, elem_of_union, elem_of_difference, elem_of_list_to_set, Hf.
  destruct (decide (k ∈ s)); tauto.
Qed.


Lemma add_keys_growth (keys : list string) (s : gset string) :
  size (add_keys s keys) =
  (size s + size (list_to_set (List.filter Py.truthy keys) ∖ s : gset string))%nat.
Proof.
  rewrite add_keys_union at 1. apply size_union. set_solver.
Qed.

(** X1. For any thresholds, [add_batch] adds to the seen set exactly the
    non-empty keys of the batch, returns [True] exactly when the number
    of distinct non-empty keys that were not seen before reaches
    [min_growth], and then clears the stall counter; otherwise it adds
    one to the stall counter. *)
Theorem add_batch_counts_fresh_keys (t : PagerTracker) (keys : list string) :
  let fresh : gset string := list_to_set (List.filter Py.truthy keys) ∖ seen t in
  seen (add_batch t keys).1 = seen t ∪ fresh /\
  ((add_batch t keys).2 = true <-> min_growth t <= Z.of_nat (size fresh)) /\
  stalls (add_batch t keys).1 = (if (add_batch t keys).2 then 0 else stalls t + 1).
Proof.
  cbv zeta. rewrite add_batch_seen, <- add_keys_union. split; [done|].
  unfold add_batch. rewrite add_keys_growth.
  destruct (Z.ltb_spec
              (Z.of_nat (size (seen t) +
                         size (list_to_set (List.filter Py.truthy keys) ∖ seen t
                               : gset string)) - Z.of_nat (size (seen t)))
              (min_growth t)) as [Hlt|Hge]; simpl.
  - split; [|done]. split; [done|lia].
  - split; [|done]. split; [lia|done].
Qed.

(** X2. [add_batch] keeps what the tracker relies on: the empty key is
    never recorded, no key is ever forgotten, the stall counter stays
    non-negative and the two thresholds are left as they were. *)
Theorem add_batch_keeps_invariants (t : PagerTracker) (keys : list string) :
  "" ∉ seen t -> 0 <= stalls t ->
  let t' := (add_batch t keys).1 in
  ("" ∉ seen t') /\ seen t ⊆ seen t' /\ 0 <= stalls t' /\
  min_growth t' = min_growth t /\ max_stalls t' = max_stalls t.
Proof.
  intros Hempty Hstalls. cbv zeta. rewrite add_batch_seen.
  split; [|split; [apply add_keys_mono|]].
  - rewrite add_keys_spec. intros [H|[_ H]]; [done|]. by apply H.
  - unfold add_batch. destruct (_ <? _); simpl; repeat split; lia.
Qed.

(** A tracker that starts empty with some batches fed to it. *)
Lemma add_batch_keeps_invariants_witness :
  ("" ∉ seen (add_batch (add_batch (init 1 1) ["k1"; ""; "k2"]).1 [""; "k1"]).1) /\
  0 <= stalls (add_batch (add_batch (init 1 1) ["k1"; ""; "k2"]).1 [""; "k1"]).1.
Proof.
  destruct (add_batch_keeps_invariants
              (add_batch (init 1 1) ["k1"; ""; "k2"]).1 [""; "k1"])
    as (Hempty & _ & Hstalls & _).
  - vm_compute. set_solver.
  - vm_compute. discriminate.
  - exact (conj Hempty Hstalls).
Defined.


End PagingMore.

(** ** tools/phase1/phase1_oilbot.py: the pagination helpers *)

Module PaginateFacts.
Import Oilbot OilbotHelpers.

Section Loops.

Variable sha1_hexdigest : string -> string.
Variable float_str : Q -> string.
Variable parse_price_to_eur : string -> option Q.
Variable parse_quantity : string -> option string.
Variable guard_url : string -> bool.
Variable next_url : string -> Z -> string.
Variable load : nat -> string -> option (list Product).
Variable terms : Terms.
Variable category_url : string.

Local Abbreviation keys_of := (batch_keys sha1_hexdigest float_str).
Local Abbreviation batch_of := (page_batch parse_price_to_eur parse_quantity terms).
Local Abbreviation jumbo :=
  (jumbo_loop sha1_hexdigest float_str parse_price_to_eur parse_quantity
              guard_url next_url load terms category_url).
Local Abbreviation ah :=
  (ah_loop sha1_hexdigest float_str parse_price_to_eur parse_quantity
           guard_url next_url load terms category_url).

Lemma product_row_ok (u : string) (p : Product) (r : Row) :
  product_row parse_price_to_eur parse_quantity terms u p = Some r -> row_ok terms r.
Proof.
  unfold product_row, row_ok.
  destruct (parse_price_to_eur _) as [price|]; [|done].
  destruct (Py.truthy (Py.strip (or_empty (p_name p)))) eqn:Hname; simpl; [|done].
  destruct (_is_oil_candidate _ "" terms) eqn:Hoil; simpl; [|done].
  destruct (_negative_hit _) eqn:Hneg; [done|].
  intros [= <-]. simpl. apply PyFacts.truthy_true in Hname. by repeat split.
Qed.

Lemma page_batch_ok (u : string) (products : list Product) :
  Forall (row_ok terms) (batch_of u products).
Proof.
  apply Forall_forall. intros r Hr. unfold page_batch in Hr.
  apply list_elem_of_omap in Hr as (p & _ & Hp). by eapply product_row_ok.
Qed.




Section OneLoop.

(** The two loops differ in the address of the next page only. *)
Variable loop : nat -> nat -> Z -> Paging.PagerTracker -> list Row -> list string
                -> list Row * list string.
Variable step : Z.
Hypothesis loop_O : forall n x tracker rows visited,
  loop O n x tracker rows visited = (rows, visited).
Hypothesis loop_S : forall turns n x tracker rows visited,
  loop (S turns) n x tracker rows visited =
  let u := next_url category_url x in
  if negb (guard_url u) then (rows, visited)
  else
    match load n u with
    | None => (rows, visited ++ [u])
    | Some products =>
        let batch := batch_of u products in
        let '(tracker, grew) := Paging.add_batch tracker (keys_of batch) in
        let rows := rows ++ batch in
        if negb grew && Paging.should_stop tracker then (rows, visited ++ [u])
        else loop turns (S n) (x + step) tracker rows (visited ++ [u])
    end.

(** The addresses navigated to: one per turn, in the order of the
    turns, each accepted by the guard. *)
Lemma loop_visited (turns n : nat) (x : Z) (tracker : Paging.PagerTracker)
    (rows : list Row) (visited : list string) :
  exists k : nat,
    (k <= turns)%nat /\
    (loop turns n x tracker rows visited).2 =
      visited ++ ((fun i : nat => next_url category_url (x + Z.of_nat i * step))
                    <$> seq 0 k) /\
    forall i : nat, (i < k)%nat ->
      guard_url (next_url category_url (x + Z.of_nat i * step)) = true.
Proof.
  revert n x tracker rows visited.
  induction turns as [|turns IH]; intros n x tracker rows visited.
  - exists 0%nat. rewrite loop_O. simpl. rewrite app_nil_r. repeat split; [lia|].
    intros i Hi. lia.
  - rewrite loop_S. cbv zeta.
    assert (Hone : forall r : list Row,
      guard_url (next_url category_url x) = true ->
      exists k : nat, (k <= S turns)%nat /\
        (r, visited ++ [next_url category_url x]).2 =
          visited ++ ((fun i : nat => next_url category_url (x + Z.of_nat i * step))
                        <$> seq 0 k) /\
        forall i : nat, (i < k)%nat ->
          guard_url (next_url category_url (x + Z.of_nat i * step)) = true).
    { intros r Hg. exists 1%nat. simpl. rewrite Z.add_0_r.
      repeat split; [lia|]. intros i Hi. assert (i = 0)%nat as -> by lia.
      simpl. by rewrite Z.add_0_r. }
    destruct (guard_url (next_url category_url x)) eqn:Hg; simpl.
    + destruct (load n (next_url category_url x)) as [products|]; [|by apply Hone].
      destruct (Paging.add_batch tracker _) as [tracker' grew].
      destruct (negb grew && Paging.should_stop tracker'); [by apply Hone|].
      destruct (IH (S n) (x + step) tracker'
                   (rows ++ batch_of (next_url category_url x) products)
                   (visited ++ [next_url category_url x]))
        as (k & Hk & Hv & Hguard).
      exists (S k). split; [lia|]. split.
      * rewrite Hv, <- app_assoc. f_equal. simpl. rewrite Z.add_0_r. f_equal.
        rewrite <- fmap_S_seq, <- list_fmap_compose. apply list_fmap_ext.
        intros _ i _. simpl. f_equal. lia.
      * intros [|i] Hi.
        -- change (Z.of_nat 0) with 0. by rewrite Z.mul_0_l, Z.add_0_r.
        -- assert (Hik : (i < k)%nat) by lia. specialize (Hguard i Hik).
           rewrite <- Hguard. f_equal. f_equal. lia.
    + exists 0%nat. simpl. rewrite app_nil_r. repeat split; [lia|].
      intros i Hi. lia.
Qed.


(** The rows collected all come from [product_row]. *)
Lemma loop_rows (turns n : nat) (x : Z) (tracker : Paging.PagerTracker)
    (rows : list Row) (visited : list string) :
  Forall (row_ok terms) rows -> Forall (row_ok terms) (loop turns n x tracker rows visited).1.
Proof.
  revert n x tracker rows visited.
  induction turns as [|turns IH]; intros n x tracker rows visited Hrows.
  - by rewrite loop_O.
  - rewrite loop_S. cbv zeta.
    destruct (guard_url (next_url category_url x)); simpl; [|done].
    destruct (load n (next_url category_url x)) as [products|]; simpl; [|done].
    assert (Hall : Forall (row_ok terms) (rows ++ batch_of (next_url category_url x) products)).
    { apply Forall_app. split; [done|apply page_batch_ok]. }
    destruct (Paging.add_batch tracker _) as [tracker' grew].
    destruct (negb grew && Paging.should_stop tracker'); [done|].
    by apply IH.
Qed.

End OneLoop.

Lemma jumbo_loop_O (page_size : Z) n x tracker rows visited :
  jumbo page_size O n x tracker rows visited = (rows, visited).
Proof. reflexivity. Qed.

Lemma jumbo_loop_S (page_size : Z) turns n x tracker rows visited :
  jumbo page_size (S turns) n x tracker rows visited =
  let u := next_url category_url x in
  if negb (guard_url u) then (rows, visited)
  else
    match load n u with
    | None => (rows, visited ++ [u])
    | Some products =>
        let batch := batch_of u products in
        let '(tracker, grew) := Paging.add_batch tracker (keys_of batch) in
        let rows := rows ++ batch in
        if negb grew && Paging.should_stop tracker then (rows, visited ++ [u])
        else jumbo page_size turns (S n) (x + page_size) tracker rows (visited ++ [u])
    end.
Proof. reflexivity. Qed.

Lemma ah_loop_O n x tracker rows visited :
  ah O n x tracker rows visited = (rows, visited).
Proof. reflexivity. Qed.

Lemma ah_loop_S turns n x tracker rows visited :
  ah (S turns) n x tracker rows visited =
  let u := next_url category_url x in
  if negb (guard_url u) then (rows, visited)
  else
    match load n u with
    | None => (rows, visited ++ [u])
    | Some products =>
        let batch := batch_of u products in
        let '(tracker, grew) := Paging.add_batch tracker (keys_of batch) in
        let rows := rows ++ batch in
        if negb grew && Paging.should_stop tracker then (rows, visited ++ [u])
        else ah turns (S n) (x + 1) tracker rows (visited ++ [u])
    end.
Proof. reflexivity. Qed.

End Loops.

End PaginateFacts.

Module PaginateProps.
Import Oilbot OilbotHelpers PaginateFacts.

(** X3. [_jumbo_paginate_collect] navigates to at most [max_pages]
    addresses; the i-th one (from zero) is the category address with
    [offSet] set to [i * page_size], and every address navigated to was
    accepted by [guard_url]. *)
Theorem jumbo_pages_bounded_and_guarded
    (sha1_hexdigest : string -> string) (float_str : Q -> string)
    (parse_price_to_eur : string -> option Q)
    (parse_quantity : string -> option string)
    (terms_file : TermsFile) (guard_url : string -> bool)
    (offset_url : string -> Z -> string)
    (load : nat -> string -> option (list Product))
    (category_url : string) (max_pages page_size : Z) :
  let out := _jumbo_paginate_collect sha1_hexdigest float_str parse_price_to_eur
               parse_quantity terms_file guard_url offset_url load
               category_url max_pages page_size in
  (length out.2 <= Z.to_nat max_pages)%nat /\
  forall (i : nat) (u : string), out.2 !! i = Some u ->
    u = offset_url category_url (Z.of_nat i * page_size) /\ guard_url u = true.
Proof.
  cbv zeta. unfold _jumbo_paginate_collect.
  destruct (loop_visited sha1_hexdigest float_str parse_price_to_eur parse_quantity guard_url offset_url load
              (_load_oil_terms terms_file) category_url _ page_size
              (jumbo_loop_O sha1_hexdigest float_str parse_price_to_eur parse_quantity
                 guard_url offset_url load (_load_oil_terms terms_file) category_url
                 page_size)
              (jumbo_loop_S sha1_hexdigest float_str parse_price_to_eur parse_quantity
                 guard_url offset_url load (_load_oil_terms terms_file) category_url
                 page_size)
              (Z.to_nat max_pages) 0%nat 0 (Paging.init 1 1) [] [])
    as (k & Hk & Hv & Hguard).
  rewrite Hv. simpl. rewrite length_fmap, length_seq. split; [done|].
  intros i u Hi. rewrite list_lookup_fmap in Hi.
  destruct (seq 0 k !! i) as [j|] eqn:Hj; [|done].
  apply lookup_seq in Hj as [-> Hlt]. simpl in Hi. injection Hi as <-.
  split; [done|]. by apply Hguard.
Qed.


(** X5. Every row that the two pagination helpers return has a
    non-empty name that is an oil candidate for the loaded terms and
    holds no negative term, has a price, and is marked as read live
    from JSON-LD, not stale, with the retailer left empty. *)
Theorem paginated_rows_pass_the_filters
    (sha1_hexdigest : string -> string) (float_str : Q -> string)
    (parse_price_to_eur : string -> option Q)
    (parse_quantity : string -> option string)
    (terms_file : TermsFile) (guard_url : string -> bool)
    (offset_url page_url : string -> Z -> string)
    (load : nat -> string -> option (list Product))
    (category_url : string) (max_pages page_size : Z) :
  Forall (row_ok (_load_oil_terms terms_file))
    (_jumbo_paginate_collect sha1_hexdigest float_str parse_price_to_eur
       parse_quantity terms_file guard_url offset_url load
       category_url max_pages page_size).1 /\
  forall out,
    _ah_paginate_collect sha1_hexdigest float_str parse_price_to_eur
      parse_quantity terms_file guard_url page_url load category_url max_pages
    = Some out ->
    Forall (row_ok (_load_oil_terms terms_file)) out.1.
Proof.
  split.
  - unfold _jumbo_paginate_collect.
    apply (loop_rows sha1_hexdigest float_str parse_price_to_eur parse_quantity
             guard_url offset_url load (_load_oil_terms terms_file) category_url _
             page_size
             (jumbo_loop_O sha1_hexdigest float_str parse_price_to_eur parse_quantity
                guard_url offset_url load (_load_oil_terms terms_file) category_url
                page_size)
             (jumbo_loop_S sha1_hexdigest float_str parse_price_to_eur parse_quantity
                guard_url offset_url load (_load_oil_terms terms_file) category_url
                page_size)).
    constructor.
  - intros out. unfold _ah_paginate_collect.
    destruct (guard_url category_url); simpl; [|done].
    destruct (load 0%nat category_url) as [products|]; simpl; [|done].
    intros [= <-].
    apply (loop_rows sha1_hexdigest float_str parse_price_to_eur parse_quantity
             guard_url page_url load (_load_oil_terms terms_file) category_url _ 1
             (ah_loop_O sha1_hexdigest float_str parse_price_to_eur parse_quantity
                guard_url page_url load (_load_oil_terms terms_file) category_url)
             (ah_loop_S sha1_hexdigest float_str parse_price_to_eur parse_quantity
                guard_url page_url load (_load_oil_terms terms_file) category_url)).
    apply page_batch_ok.
Qed.


End PaginateProps.

(** ** tools/phase1/phase1_oilbot.py: deduplication, filters, throttles *)

Module OilbotMore.
Import Oilbot OilbotHelpers OilbotFacts.

Section DedupeMore.

Variable sha1_hexdigest : string -> string.
Variable float_str : Q -> string.

Local Abbreviation key := (row_key sha1_hexdigest float_str).
Local Abbreviation step := (dedupe_step sha1_hexdigest float_str).

(** Rows whose keys are pairwise distinct and not seen yet are all
    kept. *)
Lemma dedupe_fold_distinct (rows : list Row) (seen : gset string) :
  NoDup (key <$> rows) -> (forall r, r ∈ rows -> key r ∉ seen) ->
  (fold_left step rows (seen, [])).2 = rows.
Proof.
  revert seen. induction rows as [|r rows IH]; intros seen Hnd Hfresh; [done|].
  rewrite dedupe_fold_cons. rewrite fmap_cons in Hnd.
  apply NoDup_cons in Hnd as [Hr Hnd].
  rewrite decide_False by (apply Hfresh; left).
  f_equal. apply IH; [done|].
  intros r' Hr'. rewrite elem_of_union, elem_of_singleton. intros [Heq|Hin].
  - apply Hr. rewrite <- Heq. apply list_elem_of_fmap. by exists r'.
  - by apply (Hfresh r'); [right|].
Qed.

(** The keys seen after the loop are those seen before and those of the
    rows. *)
Lemma dedupe_fold_seen (rows : list Row) (seen : gset string) (uniq : list Row) :
  (fold_left step rows (seen, uniq)).1 = seen ∪ list_to_set (key <$> rows).
Proof.
  revert seen uniq. induction rows as [|r rows IH]; intros seen uniq; simpl.
  - set_solver.
  - rewrite dedupe_step_eq. destruct (decide (key r ∈ seen)) as [Hin|Hnin].
    + rewrite IH. set_solver.
    + rewrite IH. set_solver.
Qed.

(** Deduplicating rows put after others: the others are dealt with as if
    alone, and of the rows that follow those are kept whose key is
    new. *)
Lemma dedupe_fold_append (a b : list Row) :
  (fold_left step (a ++ b) (∅, [])).2 =
  (fold_left step a (∅, [])).2
  ++ (fold_left step b (list_to_set (key <$> a), [])).2.
Proof.
  rewrite fold_left_app.
  destruct (fold_left step a (∅, [])) as [seen uniq] eqn:Ha.
  rewrite dedupe_fold_app. simpl.
  pose proof (dedupe_fold_seen a ∅ []) as Hseen. rewrite Ha in Hseen. simpl in Hseen.
  rewrite Hseen. by rewrite (left_id_L ∅ (∪)).
Qed.

End DedupeMore.

(** Two names that end in suffixes of the same length are equal only
    when the suffixes are. *)
Lemma length_append (a b : string) :
  String.length (a +:+ b) = (String.length a + String.length b)%nat.
Proof.
  induction a as [|c a IH]; [done|].
  rewrite UrlParseFacts.append_cons. simpl. by rewrite IH.
Qed.

Lemma append_suffix_inj (x y u v : string) :
  x +:+ u = y +:+ v -> String.length u = String.length v -> x = y /\ u = v.
Proof.
  revert y. induction x as [|c x IH]; intros y Heq Hlen.
  - rewrite UrlParseFacts.append_nil in Heq. subst u.
    rewrite length_append in Hlen. destruct y; [by rewrite UrlParseFacts.append_nil|].
    simpl in Hlen. lia.
  - destruct y as [|d y].
    + rewrite UrlParseFacts.append_nil in Heq. subst v.
      rewrite length_append in Hlen. simpl in Hlen. lia.
    + rewrite !UrlParseFacts.append_cons in Heq. injection Heq as -> Heq.
      destruct (IH y Heq Hlen) as [-> ->]. done.
Qed.


Lemma prewarm_stamp_inj (a b : string) : PREWARM_STAMP a = PREWARM_STAMP b -> a = b.
Proof. intros H. by apply append_suffix_inj in H as [-> _]. Qed.


Lemma virgin_loaded (f : TermsFile) : "virgin" ∈ positive (_load_oil_terms f).
Proof.
  destruct f as [|pos hints]; simpl.
  - set_solver.
  - case_bool_decide; [done|]. set_solver.
Qed.

End OilbotMore.

Module OilbotMoreProps.
Import Oilbot OilbotHelpers OilbotFacts OilbotMore.

(** X7. The deduplication of [run_one] changes nothing when no two rows
    share a key, and running it twice gives what running it once
    gives. *)
Theorem run_one_dedupe_idempotent
    (sha1_hexdigest : string -> string) (float_str : Q -> string)
    (rows : list Row) :
  let dedupe := run_one_dedupe sha1_hexdigest float_str in
  (NoDup (row_key sha1_hexdigest float_str <$> rows) -> dedupe rows = rows) /\
  dedupe (dedupe rows) = dedupe rows /\
  (length (dedupe rows) <= length rows)%nat.
Proof.
  cbv zeta.
  assert (Hfix : forall l, NoDup (row_key sha1_hexdigest float_str <$> l) ->
                           run_one_dedupe sha1_hexdigest float_str l = l).
  { intros l Hl. apply dedupe_fold_distinct; [done|]. intros r _. set_solver. }
  destruct (dedupe_fold_spec sha1_hexdigest float_str rows ∅) as (Hsub & Hnd & _).
  split; [apply Hfix|]. split.
  - by apply Hfix.
  - by apply sublist_length.
Qed.

(** X27. Rows put after others never displace them: deduplicating
    [a ++ b], as [run_one] does once it has appended the rows re-parsed
    from the snapshot to the rows it had, gives the deduplicated [a]
    followed by rows of [b], in their order, whose keys are borne by no
    row of [a]. *)
Theorem run_one_dedupe_prefers_earlier_rows
    (sha1_hexdigest : string -> string) (float_str : Q -> string)
    (a b : list Row) :
  let key := row_key sha1_hexdigest float_str in
  let dedupe := run_one_dedupe sha1_hexdigest float_str in
  exists added,
    dedupe (a ++ b) = dedupe a ++ added /\
    sublist added b /\
    NoDup (key <$> added) /\
    (forall r, r ∈ added -> key r ∉ key <$> a) /\
    (forall r, r ∈ b -> key r ∈ key <$> (dedupe a ++ added)).
Proof.
  cbv zeta. unfold run_one_dedupe.
  exists (fold_left (dedupe_step sha1_hexdigest float_str) b
            (list_to_set (row_key sha1_hexdigest float_str <$> a), [])).2.
  destruct (dedupe_fold_spec sha1_hexdigest float_str b
              (list_to_set (row_key sha1_hexdigest float_str <$> a)))
    as (Hsub & Hnd & Hfresh & Hfind).
  split; [apply dedupe_fold_append|]. split; [done|]. split; [done|]. split.
  - intros r Hr. apply Hfresh in Hr. by rewrite elem_of_list_to_set in Hr.
  - intros r Hr. rewrite <- dedupe_fold_append.
    destruct (dedupe_fold_spec sha1_hexdigest float_str (a ++ b) ∅)
      as (_ & _ & _ & Hall).
    specialize (Hall (row_key sha1_hexdigest float_str r) ltac:(set_solver)).
    destruct (List.find _ (a ++ b)) as [r'|] eqn:Hr'.
    + apply find_some in Hall as [Hin Hk]. apply bool_decide_eq_true in Hk.
      rewrite <- Hk. apply list_elem_of_fmap. exists r'. split; [done|].
      by apply list_elem_of_In.
    + assert (Hin : In r (a ++ b)).
      { apply list_elem_of_In, elem_of_app. by right. }
      pose proof (find_none _ _ Hr' r Hin) as Hn. simpl in Hn.
      by apply bool_decide_eq_false in Hn.
Qed.


(** X9. Whatever [configs/oil_terms.yaml] holds, the loaded terms hold
    [virgin]: a product whose name contains it, in any letter case, is
    an oil candidate. *)
Theorem virgin_names_are_oil_candidates
    (f : TermsFile) (name html : string) :
  str_in "virgin" (Py.lower name) = true ->
  _is_oil_candidate name html (_load_oil_terms f) = true.
Proof.
  intros Hin. unfold _is_oil_candidate.
  assert (Hex : existsb (fun term => str_in term (Py.lower (or_empty name)))
                        (positive (_load_oil_terms f)) = true).
  { apply existsb_exists. exists "virgin". split.
    - apply list_elem_of_In, virgin_loaded.
    - unfold or_empty. by destruct name. }
  by rewrite Hex.
Qed.

(** The statement at a terms file that lists one other term. *)
Lemma virgin_names_are_oil_candidates_witness :
  _is_oil_candidate "Bio Extra VIRGIN 1L" "" (_load_oil_terms (TermsData ["olijfolie"] []))
  = true.
Proof.
  apply (virgin_names_are_oil_candidates (TermsData ["olijfolie"] []) "Bio Extra VIRGIN 1L" "").
  vm_compute. reflexivity.
Defined.

End OilbotMoreProps.

(** ** src/eopt/archives.py: the ladder in general, the adapters, the
    one-shot helper *)

Module ArchivesMore.
Import Archives ArchivesFacts ArchiveFetchers.

Section LadderMore.

Variable adapter : string -> string -> Z -> ArchiveResult.
Variables (target : string) (timeout : Z).

Local Abbreviation run := (ladder adapter target timeout).
Local Abbreviation answer := (fun name : string => adapter name target timeout).
Local Abbreviation failed_calls :=
  (fun names : list string =>
     names ≫= (fun n : string => [Call n target timeout; Sleep (15 # 100)])).

(** The ladder returns the answer of the first name whose answer is
    usable; the attempts are the answers up to it, and a pause follows
    every call but the one that succeeds. *)
Lemma ladder_first_usable (names : list string) :
  match (run names [] []).1.1 with
  | Some r =>
      exists pre name post,
        names = pre ++ name :: post /\
        Forall (fun n => usable (answer n) = false) pre /\
        usable (answer name) = true /\ r = answer name /\
        (run names [] []).1.2 = answer <$> (pre ++ [name]) /\
        (run names [] []).2 = failed_calls pre ++ [Call name target timeout]
  | None =>
      Forall (fun n => usable (answer n) = false) names /\
      (run names [] []).1.2 = answer <$> names /\
      (run names [] []).2 = failed_calls names
  end.
Proof.
  induction names as [|name names IH]; [by repeat split|].
  rewrite (ladder_cons adapter target timeout name names). cbv beta.
  destruct (usable (adapter name target timeout)) eqn:Hu; simpl.
  - exists [], name, names. by repeat split.
  - destruct (ladder adapter target timeout names [] []) as [[best attempts] trace].
    simpl in *. destruct best as [r|].
    + destruct IH as (pre & n & post & -> & Hpre & Hn & -> & -> & ->).
      exists (name :: pre), n, post. repeat split; try done.
      by constructor.
    + destruct IH as (Hall & -> & ->). repeat split; try done. by constructor.
Qed.

End LadderMore.

(** [_clean_target] puts a scheme in front: the result splits at the
    slashes into the scheme, an empty piece and at least one more. *)
Lemma split_go_cons (sep : ascii) (cur s : string) :
  exists piece rest, Py.split_go sep cur s = piece :: rest.
Proof.
  revert cur. induction s as [|c s IH]; intros cur; simpl; [by eexists _, _|].
  destruct (decide (c = sep)); [by eexists _, _|apply IH].
Qed.

Lemma clean_target_pieces (u : string) :
  exists scheme host rest, Py.split "/" (_clean_target u) = scheme :: "" :: host :: rest.
Proof.
  unfold _clean_target.
  destruct (Py.startswith u "http://") eqn:H1.
  - apply UrlParseFacts.startswith_spec in H1 as [w ->]. simpl.
    destruct (split_go_cons "/" "" w) as (piece & rest & Hw).
    exists "http:", piece, rest. unfold Py.split.
    rewrite !UrlParseFacts.append_cons, UrlParseFacts.append_nil. simpl. by rewrite Hw.
  - destruct (Py.startswith u "https://") eqn:H2; simpl.
    + apply UrlParseFacts.startswith_spec in H2 as [w ->].
      destruct (split_go_cons "/" "" w) as (piece & rest & Hw).
      exists "https:", piece, rest. unfold Py.split.
      rewrite !UrlParseFacts.append_cons, UrlParseFacts.append_nil. simpl. by rewrite Hw.
    + destruct (split_go_cons "/" ""
                  (Py.lstrip_with (fun c => bool_decide (c = "/"%char)) u))
        as (piece & rest & Hw).
      exists "https:", piece, rest. unfold Py.split.
      rewrite !UrlParseFacts.append_cons, UrlParseFacts.append_nil. simpl. by rewrite Hw.
Qed.

Section AdapterFacts.

Variable http_get : string -> Z -> http_answer.
Variable quote : string -> string -> string.
Variable getenv : string -> option string.

(** What every adapter returns: its own name as the source; a text
    exactly when it gives the reason [ok], and only for a response that
    is ok; the flag [ok] only with a status from 200 to 399 and a
    non-empty text. *)
Local Abbreviation sound name r :=
  (source r = name /\
   (html r <> None <-> reason r = "ok") /\
   (html r <> None -> response_ok (status r) = true) /\
   (ok r = true ->
    200 <= status r < 400 /\ exists h, html r = Some h /\ h <> "")).

Lemma result_ok (s u : string) (st : Z) (h : option string) (why : string) :
  ok (_result s u st h why) = true ->
  200 <= st < 400 /\ exists t, h = Some t /\ t <> "".
Proof.
  unfold _result. simpl. rewrite !andb_true_iff. intros [[H1 H2] H3].
  split; [lia|]. destruct h as [t|]; [|done].
  exists t. split; [done|]. by apply PyFacts.truthy_true.
Qed.

Lemma result_failed (s u : string) (st : Z) (a why : string) (c : ascii) :
  c <> "o"%char -> sound s (_result s u st None (String c a +:+ why)).
Proof.
  intros Hc. split; [done|]. split; [|split].
  - simpl. rewrite UrlParseFacts.append_cons. split; [done|]. intros [=]. done.
  - done.
  - intros Hok. apply result_ok in Hok as [_ (t & [=] & _)].
Qed.

Lemma result_plain_failed (s u : string) (st : Z) (c : ascii) (a : string) :
  c <> "o"%char -> sound s (_result s u st None (String c a)).
Proof.
  intros Hc. rewrite <- (UrlParseFacts.append_nil_r (String c a)).
  by apply result_failed.
Qed.

Lemma get_page_sound (s probe : string) (timeout : Z) (c : ascii) (why : string) :
  c <> "o"%char -> sound s (get_page http_get s probe timeout (String c why)).
Proof.
  intros Hc. unfold get_page.
  destruct (http_get probe timeout) as [code text final js|e].
  - destruct (response_ok code) eqn:Hok.
    + split; [done|]. split; [by split|]. split; [done|]. apply result_ok.
    + by apply result_plain_failed.
  - by apply (result_failed s probe 599 "etch_error:" e "f").
Qed.

Lemma fetch_wayback_sound (target : string) (timeout : Z) :
  sound "wayback" (fetch_wayback http_get quote target timeout).
Proof.
  unfold fetch_wayback. cbv zeta.
  destruct (http_get _ timeout) as [code text final js|e].
  - destruct (negb (code =? 200)); [by apply result_plain_failed|].
    destruct js as [e|snap]; [by apply (result_failed _ _ 598 "son_error:" e "j")|].
    destruct (Py.truthy (opt_or_empty snap)); [|by apply result_plain_failed].
    destruct (http_get (opt_or_empty snap) timeout) as [code2 text2 final2 js2|e].
    + destruct (response_ok code2) eqn:Hok.
      * split; [done|]. split; [by split|]. split; [done|]. apply result_ok.
      * by apply result_plain_failed.
    + by apply (result_failed _ _ 599 "etch_error:" e "f").
  - by apply (result_failed _ _ 599 "pi_error:" e "a").
Qed.

Lemma fetch_perma_sound (target : string) (timeout : Z) :
  sound "perma" (fetch_perma getenv target timeout) /\
  ok (fetch_perma getenv target timeout) = false.
Proof.
  unfold fetch_perma. cbv zeta.
  destruct (negb (Py.truthy (opt_or_empty (getenv "PERMA_API_KEY")))).
  - split; [by apply result_plain_failed|done].
  - split; [by apply result_plain_failed|done].
Qed.

Lemma fetch_ghost_host (target : string) (timeout : Z) :
  exists host,
    Py.split "/" (_clean_target target) !! 2%nat = Some host /\
    fetch_ghost http_get quote target timeout =
    Some (get_page http_get "ghost"
            ("https://ghostarchive.org/search?term=" +:+ quote host "/")
            timeout "no_results_or_blocked").
Proof.
  destruct (clean_target_pieces target) as (scheme & host & rest & Hsplit).
  exists host. unfold fetch_ghost. by rewrite Hsplit.
Qed.

(** Every key of [FETCHERS] gives a result, and the result is sound. *)
Lemma call_fetcher_sound (name target : string) (timeout : Z) :
  in_FETCHERS name = true ->
  exists r, call_fetcher http_get quote getenv name target timeout = Some r /\
            sound name r /\ (name = "perma" -> ok r = false).
Proof.
  intros Hin. apply bool_decide_eq_true in Hin. unfold FETCHER_NAMES in Hin.
  rewrite !elem_of_cons, elem_of_nil in Hin.
  destruct Hin as [->|[->|[->|[->|[->|[->|[->|[]]]]]]]];
    unfold call_fetcher, FETCHERS; simpl.
  - eexists. split; [done|]. split; [apply fetch_wayback_sound|done].
  - eexists. split; [done|]. split; [by apply get_page_sound|done].
  - destruct (fetch_ghost_host target timeout) as (host & _ & ->).
    eexists. split; [done|]. split; [by apply get_page_sound|done].
  - eexists. split; [done|]. split; [by apply get_page_sound|done].
  - eexists. split; [done|]. split; [by apply get_page_sound|done].
  - eexists. split; [done|]. split; [by apply get_page_sound|done].
  - eexists. split; [done|]. split; [apply fetch_perma_sound|].
    intros _. apply fetch_perma_sound.
Qed.

Lemma adapter_sound (name target : string) (timeout : Z) :
  in_FETCHERS name = true ->
  sound name (adapter http_get quote getenv name target timeout) /\
  (name = "perma" -> ok (adapter http_get quote getenv name target timeout) = false).
Proof.
  intros Hin. unfold adapter.
  destruct (call_fetcher_sound name target timeout Hin) as (r & -> & Hs & Hp).
  by split.
Qed.

End AdapterFacts.

(** The capped order of names that are all unknown is empty. *)
Lemma cap_dedup_unknown (order : list string) (seen : gset string) :
  Forall (fun p => in_FETCHERS p = false) order -> cap_dedup seen order = [].
Proof.
  intros Hall. destruct (cap_dedup seen order) as [|p rest] eqn:Hcap; [done|].
  assert (Hp : p ∈ cap_dedup seen order) by (rewrite Hcap; left).
  apply cap_dedup_elem in Hp as (Hin & Hk & _).
  rewrite Forall_forall in Hall. apply Hall in Hin. congruence.
Qed.

(** An explicit priority that is not empty is the requested order. *)
Lemma requested_order_override (fs : Files) (code : string) (names : list string) :
  names <> [] -> requested_order fs code (Some names) = names.
Proof.
  intros Hne. unfold requested_order.
  destruct (read_retailer_archive_overrides fs code) as [pri_csv prefer].
  simpl. by destruct names.
Qed.

End ArchivesMore.

Module ArchivesMoreFacts.
Import Archives ArchivesFacts ArchiveFetchers ArchivesMore.

(** A usable result is ok and carries a page that is not blank. *)
Lemma usable_page (r : ArchiveResult) :
  usable r = true <-> ok r = true /\ exists h, html r = Some h /\ Py.strip h <> "".
Proof.
  unfold usable. rewrite andb_true_iff, PyFacts.truthy_true. split.
  - intros [Hok Hh]. split; [done|]. destruct (html r) as [h|]; [by exists h|done].
  - intros [Hok (h & -> & Hh)]. by split.
Qed.

(** What [try_archives_for] returns, in terms of the answers of the
    providers it may call. *)
Lemma try_archives_for_best
    (adapter : string -> string -> Z -> ArchiveResult)
    (fs : Files) (code target : string) (priority : option (list string))
    (timeout_ms : option Z) (prefer_archive : option bool) (limit : Z) :
  let t := effective_timeout fs timeout_ms in
  let names := take (Z.to_nat (Z.max 1 limit)) (effective_order fs code priority) in
  let answer := fun name : string => adapter name target t in
  let pauses := fun ns : list string =>
    ns ≫= (fun n : string => [Call n target t; Sleep (15 # 100)]) in
  let out := try_archives_for adapter fs code target priority timeout_ms
                              prefer_archive limit in
  match out.1.1 with
  | Some r =>
      exists pre name post,
        names = pre ++ name :: post /\
        Forall (fun n => usable (answer n) = false) pre /\
        usable r = true /\ r = answer name /\
        out.1.2 = answer <$> (pre ++ [name]) /\
        out.2 = pauses pre ++ [Call name target t]
  | None =>
      Forall (fun n => usable (answer n) = false) names /\
      out.1.2 = answer <$> names /\
      out.2 = pauses names
  end.
Proof.
  cbv zeta. unfold try_archives_for.
  pose proof (ladder_first_usable adapter target (effective_timeout fs timeout_ms)
                (take (Z.to_nat (Z.max 1 limit)) (effective_order fs code priority)))
    as H.
  destruct (ladder adapter target _ _ [] []) as [[best attempts] trace].
  simpl in *. destruct best as [r|]; [|done].
  destruct H as (pre & name & post & Hn & Hpre & Hu & -> & Ha & Ht).
  by exists pre, name, post.
Qed.

(** The names in the effective order are distinct keys of [FETCHERS]. *)
Lemma effective_order_known (fs : Files) (code : string)
    (priority : option (list string)) (n : nat) :
  NoDup (take n (effective_order fs code priority)) /\
  Forall (fun p => in_FETCHERS p = true) (take n (effective_order fs code priority)) /\
  (length (take n (effective_order fs code priority)) <= 7)%nat.
Proof.
  assert (Hnd : NoDup (take n (effective_order fs code priority))).
  { eapply sublist_NoDup; [apply cap_dedup_NoDup|apply sublist_take]. }
  assert (Hall : Forall (fun p => in_FETCHERS p = true)
                        (take n (effective_order fs code priority))).
  { apply Forall_forall. intros p Hp.
    apply (elem_of_sublist _ (effective_order fs code priority)) in Hp;
      [|apply sublist_take].
    by apply cap_dedup_elem in Hp as (_ & Hk & _). }
  split; [done|]. split; [done|].
  change 7%nat with (length FETCHER_NAMES).
  apply submseteq_length, NoDup_submseteq; [done|].
  intros p Hp. rewrite Forall_forall in Hall. apply Hall in Hp.
  by apply bool_decide_eq_true in Hp.
Qed.

Lemma called_pauses (target : string) (t : Z) (ns : list string) (tail : list event) :
  called ((ns ≫= (fun n : string => [Call n target t; Sleep (15 # 100)])) ++ tail)
  = ns ++ called tail.
Proof.
  unfold called. induction ns as [|n ns IH]; simpl; [done|]. by f_equal.
Qed.

End ArchivesMoreFacts.

Module ArchivesMoreProps.
Import Archives ArchivesFacts ArchiveFetchers ArchivesMore ArchivesMoreFacts.

(** X10. [try_archives_for] returns the answer of the first provider,
    among the leading [max(1, limit)] of the effective order, whose
    answer is ok with a page that is not blank.  The attempts are the
    answers of the providers up to that one, in order; each provider
    before it was called once and followed by a pause of 0.15 s, and
    nothing follows the call that succeeds.  Without such a provider the
    result is [None], every one of these providers was called, and a
    pause follows every call. *)
Theorem try_archives_for_first_usable
    (adapter : string -> string -> Z -> ArchiveResult)
    (fs : Files) (code target : string) (priority : option (list string))
    (timeout_ms : option Z) (prefer_archive : option bool) (limit : Z) :
  let t := effective_timeout fs timeout_ms in
  let names := take (Z.to_nat (Z.max 1 limit)) (effective_order fs code priority) in
  let answer := fun name : string => adapter name target t in
  let pauses := fun ns : list string =>
    ns ≫= (fun n : string => [Call n target t; Sleep (15 # 100)]) in
  let out := try_archives_for adapter fs code target priority timeout_ms
                              prefer_archive limit in
  match out.1.1 with
  | Some r =>
      exists pre name post,
        names = pre ++ name :: post /\
        Forall (fun n => usable (answer n) = false) pre /\
        usable r = true /\ r = answer name /\
        out.1.2 = answer <$> (pre ++ [name]) /\
        out.2 = pauses pre ++ [Call name target t]
  | None =>
      Forall (fun n => usable (answer n) = false) names /\
      out.1.2 = answer <$> names /\
      out.2 = pauses names
  end.
Proof. apply try_archives_for_best. Qed.

(** X11. No call of [try_archives_for] calls a provider twice or calls a
    name that is not a key of [FETCHERS]: the names called are distinct
    keys, at most seven, and there is one attempt per call. *)
Theorem no_provider_is_called_twice
    (adapter : string -> string -> Z -> ArchiveResult)
    (fs : Files) (code target : string) (priority : option (list string))
    (timeout_ms : option Z) (prefer_archive : option bool) (limit : Z) :
  let out := try_archives_for adapter fs code target priority timeout_ms
                              prefer_archive limit in
  NoDup (called out.2) /\
  Forall (fun p => in_FETCHERS p = true) (called out.2) /\
  (length (called out.2) <= 7)%nat /\
  length out.1.2 = length (called out.2).
Proof.
  cbv zeta.
  destruct (try_archives_for_called adapter fs code target priority timeout_ms
              prefer_archive limit) as (n & _ & -> & Hlen & _).
  destruct (effective_order_known fs code priority n) as (Hnd & Hall & Hle).
  by repeat split.
Qed.

(** X12. The result of [archive_fetch_html] has the flag [ok] exactly
    when it carries a page that is not blank; a result without the flag
    carries no page at all. *)
Theorem archive_fetch_html_ok_iff_page
    (adapter : string -> string -> Z -> ArchiveResult)
    (fs : Files) (code target : string) (priority : option (list string))
    (timeout_ms : option Z) :
  let r := (archive_fetch_html adapter fs code target priority timeout_ms).1 in
  (ok r = true <-> exists h, html r = Some h /\ Py.strip h <> "") /\
  (ok r = false -> html r = None).
Proof.
  cbv zeta. unfold archive_fetch_html.
  pose proof (try_archives_for_best adapter fs code target priority timeout_ms None 6)
    as H. cbv zeta in H.
  destruct (try_archives_for adapter fs code target priority timeout_ms None 6)
    as [[best attempts] trace]. simpl in *.
  destruct best as [r|].
  - destruct H as (pre & name & post & _ & _ & Hu & _).
    apply usable_page in Hu as [Hok Hpage]. split; [by split|]. congruence.
  - assert (Hfail : forall s u st why,
              (ok (_result s u st None why) = true <->
               exists h, html (_result s u st None why) = Some h /\ Py.strip h <> "") /\
              (ok (_result s u st None why) = false ->
               html (_result s u st None why) = None)).
    { intros s u st why. unfold _result. simpl. rewrite andb_false_r.
      split; [|done]. split; [done|]. by intros (h & [=] & _). }
    destruct (last attempts); apply Hfail.
Qed.

(** X13. When none of the first six providers of the effective order
    gives a usable answer, [archive_fetch_html] calls them all and
    returns the source, the address and the status of the last of them,
    without a page, with the flag [ok] unset and with the reason of that
    last answer after the text [all_failed; last=]. *)
Theorem archive_fetch_html_reports_last_failure
    (adapter : string -> string -> Z -> ArchiveResult)
    (fs : Files) (code target : string) (priority : option (list string))
    (timeout_ms : option Z) (names : list string) (last_name : string) :
  let t := effective_timeout fs timeout_ms in
  take 6 (effective_order fs code priority) = names ++ [last_name] ->
  Forall (fun n => usable (adapter n target t) = false) (names ++ [last_name]) ->
  let l := adapter last_name target t in
  let out := archive_fetch_html adapter fs code target priority timeout_ms in
  out.1 = _result (source l) (url l) (status l) None ("all_failed; last=" +:+ reason l) /\
  ok out.1 = false /\
  called out.2 = names ++ [last_name].
Proof.
  intros t Horder Hall l out. subst out. unfold archive_fetch_html.
  pose proof (try_archives_for_best adapter fs code target priority timeout_ms None 6)
    as H. cbv zeta in H. change (Z.to_nat (Z.max 1 6)) with 6%nat in H.
  fold t in H. rewrite Horder in H.
  destruct (try_archives_for adapter fs code target priority timeout_ms None 6)
    as [[best attempts] trace]. cbn [fst snd] in *.
  destruct best as [r|].
  - destruct H as (pre & name & post & Hn & _ & Hu & -> & _).
    rewrite Forall_forall in Hall.
    rewrite (Hall name) in Hu; [done|]. rewrite Hn. set_solver.
  - destruct H as (_ & -> & ->).
    rewrite fmap_app. cbn [fmap list_fmap]. rewrite last_snoc. fold l.
    split; [done|].
    split; [unfold _result; cbn [ok html_truthy]; apply andb_false_r|].
    rewrite <- (app_nil_r (_ ≫= _)), called_pauses. simpl. apply app_nil_r.
Qed.

(** The statement at the default order with no file to read, against
    providers that all answer 404. *)
Lemma archive_fetch_html_reports_last_failure_witness :
  (archive_fetch_html (fun n u _ => _result n u 404 None "no_snapshot")
     (mkFiles None NoFile) "ah_nl" "ah.nl/olie" None None).1
  = _result "archivetoday" "ah.nl/olie" 404 None "all_failed; last=no_snapshot".
Proof.
  destruct (archive_fetch_html_reports_last_failure
              (fun n u _ => _result n u 404 None "no_snapshot")
              (mkFiles None NoFile) "ah_nl" "ah.nl/olie" None None
              ["wayback"; "ghost"; "memento"; "arquivo"; "ukwa"] "archivetoday")
    as (H & _ & _).
  - vm_compute. reflexivity.
  - repeat constructor.
  - exact H.
Defined.

(** X14. A priority override that names no key of [FETCHERS] is not
    replaced by the default order: [archive_fetch_html] calls no
    provider and returns the source [archives], the address as given,
    the status 599, no page and the reason
    [no_providers_or_attempts]. *)
Theorem archive_fetch_html_unknown_providers
    (adapter : string -> string -> Z -> ArchiveResult)
    (fs : Files) (code target : string) (names : list string)
    (timeout_ms : option Z) :
  names <> [] -> Forall (fun p => in_FETCHERS (Py.lower p) = false) names ->
  archive_fetch_html adapter fs code target (Some names) timeout_ms
  = (_result "archives" target 599 None "no_providers_or_attempts", []).
Proof.
  intros Hne Hall. unfold archive_fetch_html, try_archives_for, effective_order.
  rewrite requested_order_override by done.
  rewrite cap_dedup_unknown; [by rewrite take_nil|].
  by apply Forall_fmap.
Qed.

(** The statement at an override with one misspelt name. *)
Lemma archive_fetch_html_unknown_providers_witness :
  archive_fetch_html (fun n u _ => _result n u 200 (Some "<html>page</html>") "ok")
    (mkFiles None NoFile) "ah_nl" "ah.nl/olie" (Some ["WayBackMachine"]) None
  = (_result "archives" "ah.nl/olie" 599 None "no_providers_or_attempts", []).
Proof.
  apply (archive_fetch_html_unknown_providers
           (fun n u _ => _result n u 200 (Some "<html>page</html>") "ok")
           (mkFiles None NoFile) "ah_nl" "ah.nl/olie" ["WayBackMachine"] None).
  - discriminate.
  - repeat constructor.
Defined.

(** X15. [fetch_ghost] never fails on the index [2] of the pieces of
    the cleaned address: whatever the target, the cleaned address has a
    third piece between its slashes, and that piece is the host that is
    looked up. *)
Theorem fetch_ghost_never_fails
    (http_get : string -> Z -> http_answer) (quote : string -> string -> string)
    (target : string) (timeout : Z) :
  exists host,
    Py.split "/" (_clean_target target) !! 2%nat = Some host /\
    fetch_ghost http_get quote target timeout =
    Some (get_page http_get "ghost"
            ("https://ghostarchive.org/search?term=" +:+ quote host "/")
            timeout "no_results_or_blocked").
Proof. apply fetch_ghost_host. Qed.

(** X16. Every key of [FETCHERS] answers, whatever the network does,
    with a result that bears the key as its source, that carries a text
    exactly when its reason is [ok] and only for a response that is ok,
    and whose flag [ok] is set only with a status from 200 to 399 and a
    non-empty text. *)
Theorem known_providers_answer_soundly
    (http_get : string -> Z -> http_answer) (quote : string -> string -> string)
    (getenv : string -> option string) (name target : string) (timeout : Z) :
  in_FETCHERS name = true ->
  exists r,
    call_fetcher http_get quote getenv name target timeout = Some r /\
    source r = name /\
    (html r <> None <-> reason r = "ok") /\
    (html r <> None -> response_ok (status r) = true) /\
    (ok r = true -> 200 <= status r < 400 /\ exists h, html r = Some h /\ h <> "").
Proof.
  intros Hin.
  destruct (call_fetcher_sound http_get quote getenv name target timeout Hin)
    as (r & Hr & Hs & _).
  by exists r.
Qed.

(** The statement at the Memento adapter when the network is down. *)
Lemma known_providers_answer_soundly_witness :
  exists r,
    call_fetcher (fun _ _ => Failure "timeout") (fun s _ => s) (fun _ => None)
                 "memento" "ah.nl/olie" 5000 = Some r /\
    source r = "memento".
Proof.
  destruct (known_providers_answer_soundly
              (fun _ _ => Failure "timeout") (fun s _ => s) (fun _ => None)
              "memento" "ah.nl/olie" 5000) as (r & Hr & Hs & _).
  - vm_compute. reflexivity.
  - by exists r.
Defined.

(** X17. With the adapters of the file, the stub for Perma.cc never
    supplies the page: whatever the order, the limit, the network and
    the environment, a result returned by [try_archives_for] comes from
    one of the six other providers. *)
Theorem perma_never_supplies_the_page
    (http_get : string -> Z -> http_answer) (quote : string -> string -> string)
    (getenv : string -> option string)
    (fs : Files) (code target : string) (priority : option (list string))
    (timeout_ms : option Z) (prefer_archive : option bool) (limit : Z) :
  match (try_archives_for (adapter http_get quote getenv) fs code target priority
                          timeout_ms prefer_archive limit).1.1 with
  | Some r =>
      source r ∈ ["wayback"; "archivetoday"; "ghost"; "memento"; "arquivo"; "ukwa"]
  | None => True
  end.
Proof.
  pose proof (try_archives_for_best (adapter http_get quote getenv) fs code target
                priority timeout_ms prefer_archive limit) as H. cbv zeta in H.
  destruct (try_archives_for _ fs code target priority timeout_ms prefer_archive limit)
    as [[best attempts] trace]. simpl in *.
  destruct best as [r|]; [|done].
  destruct H as (pre & name & post & Hn & _ & Hu & -> & _).
  destruct (effective_order_known fs code priority (Z.to_nat (Z.max 1 limit)))
    as (_ & Hall & _).
  rewrite Hn, Forall_forall in Hall.
  assert (Hin : in_FETCHERS name = true) by (apply Hall; set_solver).
  destruct (adapter_sound http_get quote getenv name target
              (effective_timeout fs timeout_ms) Hin) as ((-> & _) & Hperma).
  apply usable_page in Hu as [Hok _].
  apply bool_decide_eq_true in Hin. unfold FETCHER_NAMES in Hin.
  rewrite !elem_of_cons in *. rewrite elem_of_nil in Hin.
  destruct Hin as [Hin|[Hin|[Hin|[Hin|[Hin|[Hin|[Hin|[]]]]]]]]; try tauto.
  rewrite (Hperma Hin) in Hok. discriminate.
Qed.

End ArchivesMoreProps.

(** ** src/eopt/net_gateway.py: the loop of [get_text] *)

Module NetGatewayFacts.
Import NetGateway NetGatewayTrace.

#[local] Set Warnings "-inconsistent-scopes".

Section LoopFacts.

Variable Robots : Type.
Variable monotonic : nat -> Q.
Variable client_get : nat -> string -> option string -> response.
Variable round3 : Q -> Q.

Local Abbreviation loop := (fetch_loop Robots monotonic client_get round3).
Local Abbreviation one_turn := (turn Robots monotonic client_get round3).

(** The loop is a sequence of turns. *)
Lemma fetch_loop_turn (fuel : nat) (g : NetGateway Robots) (w : World) (url : string)
    (referer : option string) (start bud : Q) (meta : Meta) :
  loop (S fuel) g w url referer start bud meta =
  match one_turn g w url referer start bud meta with
  | Exit _ r => Returns r
  | Again _ g w meta => loop fuel g w url referer start bud meta
  end.
Proof.
  unfold turn, finish. simpl.
  destruct (Qle_bool bud _).
  - destruct (m_elapsed_s meta); reflexivity.
  - destruct (take monotonic (bucket Robots g) _) as [[got b] w2].
    destruct got; [|done].
    destruct (client_get _ url _) as [code text|name]; [|done].
    destruct (code =? 200); [done|].
    destruct ((code =? 403) || (code =? 429)); [|done].
    destruct (m_elapsed_s meta); reflexivity.
Qed.

(** A property kept by every turn that goes on holds of what the loop
    returns when every turn that returns establishes it. *)
Lemma loop_rule (url : string) (referer : option string) (start bud : Q)
    (I : NetGateway Robots -> World -> Meta -> Prop)
    (R : option string * Meta * NetGateway Robots * World -> Prop) :
  (forall g w meta, I g w meta ->
     match one_turn g w url referer start bud meta with
     | Exit _ r => R r
     | Again _ g w meta => I g w meta
     end) ->
  forall fuel g w meta r,
    I g w meta -> loop fuel g w url referer start bud meta = Returns r -> R r.
Proof.
  intros Hturn. induction fuel as [|fuel IH]; intros g w meta r HI Hr; [done|].
  rewrite fetch_loop_turn in Hr. specialize (Hturn g w meta HI).
  destruct (one_turn g w url referer start bud meta) as [r'|g' w' meta'].
  - by injection Hr as <-.
  - exact (IH g' w' meta' r Hturn Hr).
Qed.

(** [take] reads the clock once and does nothing else to the world. *)
Lemma take_world (b : _Bucket) (w : World) :
  (take monotonic b w).2 = mkWorld (S (clock_reads w)) (events w).
Proof. unfold take. simpl. by destruct (Qle_bool 1 _). Qed.



(** The state at the head of the loop: the call has not succeeded, and
    the last status, if any, is none of those that end the call. *)
Local Abbreviation head_meta url meta :=
  (m_url meta = url /\ m_ok meta = false /\ m_elapsed_s meta = None /\
   forall s, m_status meta = Some s -> s <> 200 /\ s <> 403 /\ s <> 429).

(** What the call returns. *)
Local Abbreviation final_meta url referer r :=
  (let '(content, meta, _, w) := r in
   m_url meta = url /\ is_Some (m_elapsed_s meta) /\
   match content with
   | Some _ => m_ok meta = true /\ m_status meta = Some 200
   | None => m_ok meta = false /\ m_status meta <> Some 200 /\ is_Some (m_why meta)
   end /\
   forall s, m_status meta = Some s -> s = 403 \/ s = 429 ->
     m_why meta = Some (http_why s) /\
     list.last (events w) =
       Some (ClientGet url
               match referer with
               | Some r => if Py.truthy r then Some r else None
               | None => None
               end)).

Lemma turn_meta (g : NetGateway Robots) (w : World) (url : string)
    (referer : option string) (start bud : Q) (meta : Meta) :
  head_meta url meta ->
  match one_turn g w url referer start bud meta with
  | Exit _ r => final_meta url referer r
  | Again _ g' w' meta' => head_meta url meta'
  end.
Proof.
  intros (Hurl & Hok & Hel & Hst). unfold turn, finish. simpl.
  destruct (Qle_bool bud _).
  - rewrite Hel. simpl. split; [done|]. split; [by eexists|]. split.
    + split; [done|]. split.
      * intros H200. by destruct (Hst 200 H200) as [? _].
      * destruct (m_why meta); by eexists.
    + intros s Hs [->| ->]; destruct (Hst _ Hs) as (? & ? & ?); done.
  - pose proof (take_world (bucket Robots g)
                  (mkWorld (S (clock_reads w)) (events w))) as Hw.
    destruct (take monotonic (bucket Robots g) _) as [[got b] w2].
    simpl in Hw. subst w2. destruct got; [|done].
    destruct (client_get _ url _) as [code text|name]; [|done].
    destruct (Z.eqb_spec code 200) as [->|H200].
    { simpl. split; [done|]. split; [by eexists|]. split; [done|].
      intros s [= <-] [|]; done. }
    destruct ((code =? 403) || (code =? 429)) eqn:Hstop.
    + rewrite Hel. simpl. split; [done|]. split; [by eexists|]. split.
      * split; [done|]. split; [congruence|by eexists].
      * intros s [= <-] _. split; [done|]. apply last_snoc.
    + apply orb_false_iff in Hstop as [H403 H429].
      apply Z.eqb_neq in H403, H429. simpl.
      split; [done|]. split; [done|]. split; [done|]. by intros s [= <-].
Qed.

Lemma loop_meta (fuel : nat) (g : NetGateway Robots) (w : World) (url : string)
    (referer : option string) (start bud : Q) (meta : Meta)
    (r : option string * Meta * NetGateway Robots * World) :
  head_meta url meta ->
  loop fuel g w url referer start bud meta = Returns r ->
  final_meta url referer r.
Proof.
  intros Hhead Hr.
  apply (loop_rule url referer start bud
           (fun _ _ meta => head_meta url meta)
           (fun r => final_meta url referer r)
           (fun g w meta => turn_meta g w url referer start bud meta)
           fuel g w meta r Hhead Hr).
Qed.

(** Events that are not readings of [robots.txt], or not requests. *)
Lemma robots_reads_snoc (evs : list event) (e : event) :
  is_robots_read e = false -> robots_reads (evs ++ [e]) = robots_reads evs.
Proof.
  intros He. unfold robots_reads. rewrite List.filter_app, length_app. simpl.
  rewrite He. simpl. lia.
Qed.

Lemma robots_reads_snoc_read (evs : list event) (u : string) :
  robots_reads (evs ++ [RobotsRead u]) = S (robots_reads evs).
Proof.
  unfold robots_reads. rewrite List.filter_app, length_app. simpl. lia.
Qed.

Lemma requests_sent_snoc (evs : list event) (e : event) :
  requests_sent (evs ++ [e]) =
  (requests_sent evs + if is_get e then 1 else 0)%nat.
Proof.
  unfold requests_sent. rewrite List.filter_app, length_app. simpl.
  by destruct (is_get e).
Qed.

(** The loop leaves the policy and the cache of the gateway alone and
    reads no [robots.txt]. *)
Local Abbreviation framed g0 n0 g w :=
  (_robots_cache Robots g = _robots_cache Robots g0 /\
   p Robots g = p Robots g0 /\ robots_reads (events w) = n0).

Lemma turn_frame (g0 : NetGateway Robots) (n0 : nat)
    (g : NetGateway Robots) (w : World) (url : string)
    (referer : option string) (start bud : Q) (meta : Meta) :
  framed g0 n0 g w ->
  match one_turn g w url referer start bud meta with
  | Exit _ r => framed g0 n0 r.1.2 r.2
  | Again _ g' w' meta' => framed g0 n0 g' w'
  end.
Proof.
  intros (Hc & Hp & Hn). unfold turn, finish. simpl.
  destruct (Qle_bool bud _).
  - by destruct (m_elapsed_s meta).
  - pose proof (take_world (bucket Robots g)
                  (mkWorld (S (clock_reads w)) (events w))) as Hw.
    destruct (take monotonic (bucket Robots g) _) as [[got b] w2].
    simpl in Hw. subst w2. destruct got; simpl.
    + destruct (client_get _ url _) as [code text|name]; simpl.
      * destruct (code =? 200); simpl.
        { by rewrite robots_reads_snoc. }
        destruct ((code =? 403) || (code =? 429)); simpl.
        { destruct (m_elapsed_s meta); simpl; by rewrite robots_reads_snoc. }
        by rewrite !robots_reads_snoc.
      * by rewrite !robots_reads_snoc.
    + by rewrite robots_reads_snoc.
Qed.

Lemma loop_frame (fuel : nat) (g : NetGateway Robots) (w : World) (url : string)
    (referer : option string) (start bud : Q) (meta : Meta)
    (r : option string * Meta * NetGateway Robots * World) :
  loop fuel g w url referer start bud meta = Returns r ->
  framed g (robots_reads (events w)) r.1.2 r.2.
Proof.
  intros Hr.
  apply (loop_rule url referer start bud
           (fun g' w' _ => framed g (robots_reads (events w)) g' w')
           (fun r => framed g (robots_reads (events w)) r.1.2 r.2)
           (fun g' w' meta =>
              turn_frame g (robots_reads (events w)) g' w' url referer start bud meta)
           fuel g w meta r); done.
Qed.



Section Rate.

Hypothesis clock_monotone :
  forall i j : nat, (i <= j)%nat -> (monotonic i <= monotonic j)%Q.

Variables (cap0 rps0 last0 credit0 : Q).
Hypothesis rps0_nonneg : (0 <= rps0)%Q.

(** The state of the bucket that the loop keeps: between zero and the
    capacity, refilled in the past, and with every request sent paid
    for. *)
Local Abbreviation paid g w :=
  (capacity (bucket Robots g) = cap0 /\ b_rps (bucket Robots g) = rps0 /\
   (0 <= tokens (bucket Robots g))%Q /\ (tokens (bucket Robots g) <= cap0)%Q /\
   (forall j, (clock_reads w <= j)%nat ->
      (NetGateway.last (bucket Robots g) <= monotonic j)%Q) /\
   (tokens (bucket Robots g) + inject_Z (Z.of_nat (requests_sent (events w)))
    <= credit0 + (NetGateway.last (bucket Robots g) - last0) * rps0)%Q).




End Rate.

End LoopFacts.

Section CallFacts.

Variable check : string -> bool.
Variable Robots : Type.
Variable robots_read : string -> Robots.
Variable can_fetch : Robots -> string -> string -> bool.
Variable urljoin : string -> string -> string.
Variable monotonic : nat -> Q.
Variable client_get : nat -> string -> option string -> response.
Variable round3 : Q -> Q.

Local Abbreviation allowed :=
  (_robots_allowed check Robots robots_read can_fetch urljoin).
Local Abbreviation call :=
  (get_text check Robots robots_read can_fetch urljoin monotonic client_get round3).
Local Abbreviation loop := (fetch_loop Robots monotonic client_get round3).

(** [_robots_allowed] touches neither the policy, nor the bucket, nor
    the clock; it sends no request and reads [robots.txt] at most once,
    and not at all for an origin that is in the cache.  When it has
    looked at the policy of an origin, the origin is in the cache. *)
Lemma robots_allowed_inv (g : NetGateway Robots) (w : World) (url : string)
    (a : bool) (g' : NetGateway Robots) (w' : World) :
  allowed g w url = Returns (a, g', w') ->
  p Robots g' = p Robots g /\ bucket Robots g' = bucket Robots g /\
  clock_reads w' = clock_reads w /\
  requests_sent (events w') = requests_sent (events w) /\
  (robots_reads (events w') <= S (robots_reads (events w)))%nat /\
  (respect_robots (p Robots g) = false -> g' = g /\ w' = w) /\
  (forall sp, respect_robots (p Robots g) = true ->
     UrlParse.urlsplit check url = Some sp ->
     is_Some (_robots_cache Robots g' !! origin_of sp) /\
     (is_Some (_robots_cache Robots g !! origin_of sp) -> g' = g /\ w' = w)).
Proof.
  unfold _robots_allowed.
  destruct (respect_robots (p Robots g)) eqn:Hrespect; simpl.
  - destruct (UrlParse.urlsplit check url) as [parts|]; [|done].
    destruct (_robots_cache Robots g !! origin_of parts) as [r|] eqn:Hcache.
    + intros [= <- <- <-].
      split; [done|]. split; [done|]. split; [done|]. split; [done|].
      split; [lia|]. split; [done|].
      intros sp _ [= <-]. rewrite Hcache. split; [by eexists|done].
    + intros [= <- <- <-]. simpl.
      split; [done|]. split; [done|]. split; [done|].
      split; [by rewrite requests_sent_snoc, Nat.add_0_r|].
      split; [by rewrite robots_reads_snoc_read|]. split; [done|].
      intros sp _ [= <-]. split; [rewrite lookup_insert_eq; by eexists|].
      rewrite Hcache. by intros [? [=]].
  - intros [= <- <- <-].
    split; [done|]. split; [done|]. split; [done|]. split; [done|].
    split; [lia|]. split; [done|]. by intros sp [=].
Qed.

(** A call: the clock is read, the policy of the origin is consulted,
    and then the call is refused or the loop runs. *)
Lemma get_text_inv (fuel : nat) (g : NetGateway Robots) (w : World) (url : string)
    (budget_s_arg : option Q) (referer : option string)
    (r : option string * Meta * NetGateway Robots * World) :
  call fuel g w url budget_s_arg referer = Returns r ->
  exists a g1 w1,
    allowed g (mkWorld (S (clock_reads w)) (events w)) url = Returns (a, g1, w1) /\
    if a then
      loop fuel g1 w1 url referer (monotonic (clock_reads w))
           match budget_s_arg with
           | Some b => if Qeq_bool b 0 then budget_s (p Robots g) else b
           | None => budget_s (p Robots g)
           end
           (mkMeta url false None None None) = Returns r
    else r = (None, mkMeta url false None (Some "robots_disallow") None, g1, w1).
Proof.
  unfold get_text. simpl.
  destruct (allowed g _ url) as [[[a g1] w1]| |]; [|done|done].
  intros Hr. exists a, g1, w1. split; [done|].
  destruct a; simpl in Hr; [done|]. by injection Hr as <-.
Qed.

End CallFacts.

End NetGatewayFacts.

Module NetGatewayMoreProps.
Import NetGateway NetGatewayTrace NetGatewayFacts.

(** X18. What [get_text] returns is consistent.  The [url] of the meta
    is the one asked for.  With content, [ok] is set, the status is 200
    and the elapsed time is recorded.  Without content, [ok] is unset,
    the status is not 200 and a reason is given; the elapsed time is
    missing only when the reason is [robots_disallow].  A last status of
    403 or 429 comes with the reason [http_403] or [http_429], and the
    request that got it is the last thing the call did: there is no
    retry and no pause after it. *)
Theorem get_text_result_consistent
    (check_bracketed_netloc : string -> bool)
    (Robots : Type) (robots_read : string -> Robots)
    (can_fetch : Robots -> string -> string -> bool)
    (urljoin : string -> string -> string)
    (monotonic : nat -> Q)
    (client_get : nat -> string -> option string -> response)
    (round3 : Q -> Q)
    (fuel : nat) (g : NetGateway Robots) (w : World) (url : string)
    (budget_s_arg : option Q) (referer : option string) :
  match get_text check_bracketed_netloc Robots robots_read can_fetch urljoin
                 monotonic client_get round3 fuel g w url budget_s_arg referer with
  | Returns (content, meta, g', w') =>
      m_url meta = url /\
      match content with
      | Some _ =>
          m_ok meta = true /\ m_status meta = Some 200 /\ is_Some (m_elapsed_s meta)
      | None =>
          m_ok meta = false /\ m_status meta <> Some 200 /\ is_Some (m_why meta)
      end /\
      (m_elapsed_s meta = None -> m_why meta = Some "robots_disallow") /\
      (forall s, m_status meta = Some s -> s = 403 \/ s = 429 ->
         m_why meta = Some (http_why s) /\
         list.last (events w') =
           Some (ClientGet url
                   match referer with
                   | Some r => if Py.truthy r then Some r else None
                   | None => None
                   end))
  | _ => True
  end.
Proof.
  destruct (get_text _ Robots _ _ _ _ _ _ fuel g w url budget_s_arg referer)
    as [[[[content meta] g'] w']| |] eqn:Hrun; [|done|done].
  apply get_text_inv in Hrun as (a & g1 & w1 & _ & Hrest).
  destruct a.
  - apply loop_meta in Hrest.
    + destruct Hrest as (Hurl & Hel & Hc & Hstop).
      split; [done|]. split; [|split; [|done]].
      * destruct content; [|done]. destruct Hc. by repeat split.
      * intros Hnone. rewrite Hnone in Hel. by destruct Hel.
    + split; [done|]. split; [done|]. split; [done|]. by intros s [=].
  - injection Hrest as -> -> -> ->. simpl. split; [done|].
    split; [|split; [done|by intros s [=]]].
    split; [done|]. split; [done|by eexists].
Qed.





(** X21. The policy of an origin is read once.  With [respect_robots]
    set, a call of [get_text] reads [robots.txt] at most once, and after
    it has returned no later call with the gateway it leaves, for an
    address of the same origin, reads [robots.txt] again or changes the
    cache. *)
Theorem robots_read_once_per_origin
    (check_bracketed_netloc : string -> bool)
    (Robots : Type) (robots_read : string -> Robots)
    (can_fetch : Robots -> string -> string -> bool)
    (urljoin : string -> string -> string)
    (monotonic : nat -> Q)
    (client_get : nat -> string -> option string -> response)
    (round3 : Q -> Q)
    (fuel : nat) (g : NetGateway Robots) (w : World) (url : string)
    (budget_s_arg : option Q) (referer : option string)
    (url2 : string) (sp sp2 : UrlParse.SplitResult) :
  respect_robots (p Robots g) = true ->
  UrlParse.urlsplit check_bracketed_netloc url = Some sp ->
  UrlParse.urlsplit check_bracketed_netloc url2 = Some sp2 ->
  origin_of sp2 = origin_of sp ->
  match get_text check_bracketed_netloc Robots robots_read can_fetch urljoin
                 monotonic client_get round3 fuel g w url budget_s_arg referer with
  | Returns (_, _, g1, w1) =>
      (robots_reads (events w1) <= S (robots_reads (events w)))%nat /\
      forall (fuel2 : nat) (w2 : World) (budget2 : option Q) (referer2 : option string),
        match get_text check_bracketed_netloc Robots robots_read can_fetch urljoin
                       monotonic client_get round3 fuel2 g1 w2 url2 budget2 referer2
        with
        | Returns (_, _, g2, w3) =>
            robots_reads (events w3) = robots_reads (events w2) /\
            _robots_cache Robots g2 = _robots_cache Robots g1
        | _ => True
        end
  | _ => True
  end.
Proof.
  intros Hrespect Hsp Hsp2 Horigin.
  destruct (get_text _ Robots _ _ _ _ _ _ fuel g w url budget_s_arg referer)
    as [[[[content meta] g1] w1]| |] eqn:Hrun; [|done|done].
  apply get_text_inv in Hrun as (a & ga & wa & Hrob & Hrest).
  apply robots_allowed_inv in Hrob as (Hp & _ & _ & _ & Hreads & _ & Hcache).
  destruct (Hcache sp Hrespect Hsp) as [Hin _]. simpl in Hreads.
  assert (Hg1 : _robots_cache Robots g1 = _robots_cache Robots ga /\
                p Robots g1 = p Robots ga /\
                robots_reads (events w1) = robots_reads (events wa)).
  { destruct a.
    - by apply loop_frame in Hrest.
    - by injection Hrest as _ _ -> ->. }
  destruct Hg1 as (Hc1 & Hp1 & Hr1). split; [lia|].
  intros fuel2 w2 budget2 referer2.
  destruct (get_text _ Robots _ _ _ _ _ _ fuel2 g1 w2 url2 budget2 referer2)
    as [[[[content2 meta2] g2] w3]| |] eqn:Hrun2; [|done|done].
  apply get_text_inv in Hrun2 as (a2 & gb & wb & Hrob2 & Hrest2).
  apply robots_allowed_inv in Hrob2 as (_ & _ & _ & _ & _ & _ & Hcache2).
  destruct (Hcache2 sp2) as [_ Hsame]; [by rewrite Hp1, Hp|done|].
  destruct Hsame as [-> ->]; [by rewrite Horigin, Hc1|].
  destruct a2.
  - apply loop_frame in Hrest2 as (Hc2 & _ & Hr2). by split.
  - by injection Hrest2 as _ _ -> ->.
Qed.

(** The statement at a fresh gateway and two addresses of one shop; the
    policy of the shop allows everything and the shop always answers
    500. *)
Lemma robots_read_once_per_origin_witness :
  let monotonic := fun n : nat => inject_Z (Z.of_nat n) in
  let call :=
    get_text (fun _ => true) bool (fun _ : string => true)
             (fun (r : bool) (_ _ : string) => r) (fun a b : string => a +:+ b)
             monotonic
             (fun (_ : nat) (_ : string) (_ : option string) => Reply 500 "")
             (fun q => q) in
  let g := (init bool monotonic
                 (mkGatewayPolicy "EOPT/1.0" (7 # 10) 4 20 3 true) (mkWorld 0 [])).1 in
  let w := (init bool monotonic
                 (mkGatewayPolicy "EOPT/1.0" (7 # 10) 4 20 3 true) (mkWorld 0 [])).2 in
  match call 6%nat g w "https://shop.example/oils" None None with
  | Returns (_, _, g1, w1) =>
      (robots_reads (events w1) <= S (robots_reads (events w)))%nat /\
      forall (fuel2 : nat) (w2 : World) (budget2 : option Q) (referer2 : option string),
        match call fuel2 g1 w2 "https://shop.example/vinegar" budget2 referer2 with
        | Returns (_, _, g2, w3) =>
            robots_reads (events w3) = robots_reads (events w2) /\
            _robots_cache bool g2 = _robots_cache bool g1
        | _ => True
        end
  | _ => True
  end.
Proof.
  cbv zeta.
  apply (robots_read_once_per_origin
           (fun _ => true) bool (fun _ : string => true)
           (fun (r : bool) (_ _ : string) => r) (fun a b : string => a +:+ b)
           (fun n : nat => inject_Z (Z.of_nat n))
           (fun (_ : nat) (_ : string) (_ : option string) => Reply 500 "")
           (fun q => q) 6
           (init bool (fun n : nat => inject_Z (Z.of_nat n))
                 (mkGatewayPolicy "EOPT/1.0" (7 # 10) 4 20 3 true) (mkWorld 0 [])).1
           (init bool (fun n : nat => inject_Z (Z.of_nat n))
                 (mkGatewayPolicy "EOPT/1.0" (7 # 10) 4 20 3 true) (mkWorld 0 [])).2
           "https://shop.example/oils" None None "https://shop.example/vinegar"
           (UrlParse.mkSplit "https" "shop.example" "/oils" "" "")
           (UrlParse.mkSplit "https" "shop.example" "/vinegar" "" "")).
  - reflexivity.
  - reflexivity.
  - reflexivity.
  - reflexivity.
Defined.



End NetGatewayMoreProps.

(** ** finder/core/cdx.py: the counts and the cleaned address *)

Module CdxMore.
Import Cdx CdxFacts UrlParse UrlParseFacts.

(** The months seen are those seen before and the months of the stamps
    of eight characters or more. *)
Lemma months_seen_elem (stamps : list string) (seen : gset string) (k : string) :
  k ∈ months_seen seen stamps <->
  k ∈ seen \/
  exists ts, ts ∈ stamps /\ (8 <=? String.length ts)%nat = true /\
             k = String.substring 0 4 ts +:+ "-" +:+ String.substring 4 2 ts.
Proof.
  revert seen. induction stamps as [|ts stamps IH]; intros seen;
    cbn [months_seen].
  - split; [by left|]. intros [H|(ts & H & _)]; [done|]. by apply elem_of_nil in H.
  - rewrite IH. destruct (8 <=? String.length ts)%nat eqn:Hlen.
    + rewrite elem_of_union, elem_of_singleton. split.
      * intros [[->|H]|(ts' & Hin & Hl & Hk)].
        -- right. exists ts. split; [by left|done].
        -- by left.
        -- right. exists ts'. split; [by right|done].
      * intros [H|(ts' & Hin & Hl & Hk)]; [by left; right|].
        apply elem_of_cons in Hin as [->|Hin]; [by left; left|].
        right. by exists ts'.
    + split.
      * intros [H|(ts' & Hin & Hl & Hk)]; [by left|].
        right. exists ts'. split; [by right|done].
      * intros [H|(ts' & Hin & Hl & Hk)]; [by left|].
        apply elem_of_cons in Hin as [->|Hin]; [congruence|].
        right. by exists ts'.
Qed.

(** A scheme holds scheme characters only. *)
Lemma split_scheme_chars (url s r : string) :
  split_scheme url = Some (s, r) -> all_chars is_scheme_char s = true.
Proof.
  unfold split_scheme. destruct (cut ":" url) as [[[|a pre] rest]|]; try done.
  destruct (isalpha a); [|done].
  destruct (all_chars is_scheme_char (String a pre)) eqn:Hall; [|done].
  simpl. intros [= <- <-].
  change (all_chars is_scheme_char (Py.lower (String a pre)) = true).
  rewrite all_chars_lower; [done|apply scheme_char_lower].
Qed.

Section Sampled.

Variable check : string -> bool.
Variable wayback_reply : string -> Z -> option (list (list string)).
Variable arquivo_reply : string -> Z -> option (list (list string)).

(** What holds of the counts of one level holds of what the loop
    returns, when it holds of the empty summary. *)
Lemma climb_inv (P : Summary -> Prop) (candidates : list string) (start_year : Z) :
  P (mkSummary 0 0 0 0 0 0) ->
  (forall c, P (level_summary wayback_reply arquivo_reply c start_year)) ->
  P (climb wayback_reply arquivo_reply candidates start_year).
Proof.
  intros Hzero Hlevel. induction candidates as [|c cs IH]; simpl; [done|].
  destruct (_ || _); [apply Hlevel|apply IH].
Qed.

End Sampled.

End CdxMore.

Module CdxMoreProps.
Import Cdx CdxFacts CdxMore UrlParse UrlParseFacts.

(** X23. The address that [_strip_query_and_fragment] returns holds
    neither a question mark nor a hash sign. *)
Theorem stripped_url_has_no_query_or_fragment
    (check_bracketed_netloc : string -> bool) (url : string) :
  match _strip_query_and_fragment check_bracketed_netloc url with
  | Some u => Py.contains "?" u = false /\ Py.contains "#" u = false
  | None => True
  end.
Proof.
  unfold _strip_query_and_fragment.
  destruct (urlsplit check_bracketed_netloc url) as [sp|] eqn:Hsplit; [|done].
  simpl.
  destruct (urlsplit_inv check_bracketed_netloc url sp Hsplit)
    as (Hscheme & _ & Hdelim & _ & _ & Hhash & Hquery & _).
  assert (Hs : forall c, is_scheme_char c = false -> c <> ":"%char ->
                         Py.contains c (if Py.truthy (scheme sp)
                                        then scheme sp +:+ ":" else "") = false).
  { intros c Hc Hcolon. destruct Hscheme as [->|(_ & _ & _ & Hre)]; [done|].
    destruct (Py.truthy (scheme sp)); [|done].
    rewrite contains_app. apply orb_false_iff. split.
    - eapply contains_all_chars; [exact Hc|].
      by eapply split_scheme_chars, (Hre "").
    - simpl. by destruct (decide (":"%char = c)). }
  assert (Hn : forall c, is_delim c = true ->
                         Py.contains c (Py.lower (netloc sp)) = false).
  { intros c Hc. apply (contains_all_chars (fun c => negb (is_delim c))).
    - by rewrite Hc.
    - rewrite all_chars_lower; [done|apply delim_lower]. }
  assert (Hall : forall c, is_scheme_char c = false -> c <> ":"%char ->
                   c <> "/"%char -> is_delim c = true -> Py.contains c (path sp) = false ->
                   Py.contains c (urlunsplit (scheme sp) (Py.lower (netloc sp))
                                             (path sp) "" "") = false).
  { intros c Hc Hcolon Hslash Hd Hp. rewrite urlunsplit_plain, contains_app, Hs by done.
    simpl. destruct (_ || _); [|done].
    rewrite !contains_app, Hn by done.
    assert (Py.contains c "//" = false) as ->.
    { simpl. by rewrite !decide_False by congruence. }
    simpl. destruct (_ && _); [|done].
    rewrite contains_app, Hp. simpl. by rewrite decide_False by congruence. }
  split; by apply Hall.
Qed.

(** X24. The summary that [summarize_archives] returns adds up: the total
    is the sum of the hits of the two indexes, the months with snapshots
    are the larger of their two month counts, no index reports more
    months than hits, and no count is negative. *)
Theorem summarize_archives_adds_up
    (check_bracketed_netloc : string -> bool)
    (wayback_reply arquivo_reply : string -> Z -> option (list (list string)))
    (url : string) (start_year : Z) :
  match summarize_archives check_bracketed_netloc wayback_reply arquivo_reply
                           url start_year with
  | Some s =>
      total_hits s = wayback_hits s + arquivo_hits s /\
      months_with_snapshots s = Z.max (wayback_months s) (arquivo_months s) /\
      0 <= wayback_months s <= wayback_hits s /\
      0 <= arquivo_months s <= arquivo_hits s /\
      0 <= months_with_snapshots s <= total_hits s
  | None => True
  end.
Proof.
  unfold summarize_archives.
  destruct (_parent_urls check_bracketed_netloc url) as [candidates|]; [|done].
  simpl. apply climb_inv; [simpl; lia|].
  intros c. unfold level_summary, wayback_cdx, arquivo_cdx.
  pose proof (cdx_counts_months_le (wayback_reply c start_year)) as Hw.
  pose proof (cdx_counts_months_le (arquivo_reply c start_year)) as Ha.
  destruct (cdx_counts (wayback_reply c start_year)) as [wh wm].
  destruct (cdx_counts (arquivo_reply c start_year)) as [ah am].
  simpl in *. lia.
Qed.

(** X25. [_group_by_month] counts the distinct months of the stamps of
    eight characters or more: it does not depend on the order of the
    stamps, a stamp repeated counts once, and the count of two lists
    put together is at least the count of each and at most their
    sum. *)
Theorem group_by_month_counts_distinct_months (stamps stamps' : list string) :
  (stamps ≡ₚ stamps' -> _group_by_month stamps = _group_by_month stamps') /\
  _group_by_month (stamps ++ stamps) = _group_by_month stamps /\
  (_group_by_month stamps <= _group_by_month (stamps ++ stamps'))%nat /\
  (_group_by_month (stamps ++ stamps')
   <= _group_by_month stamps + _group_by_month stamps')%nat.
Proof.
  unfold _group_by_month.
  assert (Happ : forall a b : list string,
            months_seen ∅ (a ++ b) = months_seen ∅ a ∪ months_seen ∅ b).
  { intros a b. apply set_eq. intros k.
    rewrite elem_of_union, !months_seen_elem. split.
    - intros [H|(ts & Hin & Hl & Hk)]; [by left; left|].
      apply elem_of_app in Hin as [Hin|Hin].
      + left. right. by exists ts.
      + right. right. by exists ts.
    - intros [[H|(ts & Hin & Hl & Hk)]|[H|(ts & Hin & Hl & Hk)]];
        try (by left); right; exists ts; rewrite elem_of_app; tauto. }
  split; [|split; [|split]].
  - intros Hperm. f_equal. apply set_eq. intros k. rewrite !months_seen_elem.
    split; intros [H|(ts & Hin & Hl & Hk)]; try (by left);
      right; exists ts; split; try done.
    + by rewrite <- Hperm.
    + by rewrite Hperm.
  - rewrite Happ. f_equal. set_solver.
  - rewrite Happ. apply subseteq_size. set_solver.
  - rewrite Happ, size_union_alt.
    pose proof (subseteq_size (months_seen ∅ stamps' ∖ months_seen ∅ stamps)
                  (months_seen ∅ stamps') ltac:(set_solver)).
    lia.
Qed.

End CdxMoreProps.

(** ** tools/phase1/selector_wizard.py: what a call stores *)

Module SelectorWizardMore.
Import SelectorWizard SelectorWizardFacts.




End SelectorWizardMore.

Module SelectorWizardMoreProps.
Import SelectorWizard SelectorWizardFacts SelectorWizardMore.


End SelectorWizardMoreProps.

